(** * blog-emailing: a newsletter dispatcher (main.go)

    A shallow embedding of [main.go].  The Go program keeps three SQLite
    tables (subscribers, articles, sent_emails), serves four HTTP
    endpoints, and mails every subscriber that has no sent-record for an
    article.  Everything outside the program text -- the SQLite engine,
    [encoding/json], [html/template], the file system, the SMTP relay --
    is collected in an environment record [Env]; the program itself is
    written in a small state monad over a [World] that holds the
    database, a counter of external calls, the trace of observable
    events and the goroutines that were spawned but did not run yet. *)

From Stdlib Require Import ZArith List String Bool Lia Arith Sorted.
Import ListNotations.

Local Open Scope string_scope.
Local Open Scope list_scope.
Local Open Scope Z_scope.

(** Go's [error] values are rendered by their message. *)
Inductive result (A : Type) : Type :=
| Ok (a : A)
| Err (e : string).
Arguments Ok {A} a.
Arguments Err {A} e.

(** ** Data model (main.go:17-45) *)

Module Subscriber.
Record t := mk { ID : Z; Email : string; Name : string; SubscribedAt : string }.
End Subscriber.

Module Article.
Record t := mk { ID : Z; Title : string; Content : string; PublishedAt : string }.
End Article.

Module SentEmail.
Record t := mk { ID : Z; SubscriberID : Z; ArticleID : Z; SentAt : string }.
End SentEmail.

Module AllData.
Record t := mk {
  Subscribers : list Subscriber.t;
  SubscriberCount : Z;
  Articles : list Article.t;
  ArticleCount : Z;
  SentEmails : list SentEmail.t;
  SentEmailCount : Z
}.
End AllData.

(** Go's [len] on a slice. *)
Definition len {A} (l : list A) : Z := Z.of_nat (List.length l).

(** ** The store: three tables of createTables (main.go:81-111)

    A table is the list of its rows in rowid order together with the
    AUTOINCREMENT counter SQLite keeps in [sqlite_sequence].  None of the
    program's SELECTs has an ORDER BY or a usable covering index, so each
    is a scan of the table in rowid order. *)

Module Store.

Record Table (R : Type) := mkTable { rows : list R; seq : Z }.
Arguments mkTable {R} rows seq.
Arguments rows {R} t.
Arguments seq {R} t.

Record DB := mkDB {
  subscribers : Table Subscriber.t;
  articles : Table Article.t;
  sent_emails : Table SentEmail.t
}.

Definition empty_table {R} : Table R := mkTable [] 0.
Definition empty : DB := mkDB empty_table empty_table empty_table.

(** INTEGER PRIMARY KEY AUTOINCREMENT: one more than the largest rowid
    the table ever held. *)
Definition max_rowid {R} (id : R -> Z) (t : Table R) : Z :=
  fold_right Z.max (seq t) (map id (rows t)).

Definition next_rowid {R} (id : R -> Z) (t : Table R) : Z :=
  max_rowid id t + 1.

Definition append_row {R} (id : R -> Z) (r : R) (t : Table R) : Table R :=
  mkTable (rows t ++ [r]) (id r).

(** The nine SQL statements the program issues, with their bound
    arguments. *)
Inductive Stmt :=
| InsertSubscriber (email name : string)          (* main.go:140 *)
| InsertArticle (title content : string)          (* main.go:165 *)
| InsertSentEmail (subscriberID articleID : Z)    (* main.go:264 *)
| SelectArticle (id : Z)                          (* main.go:229 *)
| SelectSubscribers                               (* main.go:235 *)
| CountSentEmails (subscriberID articleID : Z)    (* main.go:254 *)
| SelectAllSubscribers                            (* main.go:312 *)
| SelectAllArticles                               (* main.go:330 *)
| SelectAllSentEmails.                            (* main.go:348 *)

(** What the caller reads back: LastInsertId for an INSERT, the scanned
    row(s) for a SELECT. *)
Definition answer (q : Stmt) : Type :=
  match q with
  | InsertSubscriber _ _ | InsertArticle _ _ | InsertSentEmail _ _ => Z
  | SelectArticle _ => Article.t
  | SelectSubscribers | SelectAllSubscribers => list Subscriber.t
  | CountSentEmails _ _ => Z
  | SelectAllArticles => list Article.t
  | SelectAllSentEmails => list SentEmail.t
  end.

Definition has_email (email : string) (d : DB) : bool :=
  existsb (fun s => String.eqb (Subscriber.Email s) email) (rows (subscribers d)).

Definition has_subscriber (id : Z) (d : DB) : bool :=
  existsb (fun s => Subscriber.ID s =? id) (rows (subscribers d)).

Definition has_article (id : Z) (d : DB) : bool :=
  existsb (fun a => Article.ID a =? id) (rows (articles d)).

(** WHERE subscriber_id = ? AND article_id = ? *)
Definition sent_to (subscriberID articleID : Z) (r : SentEmail.t) : bool :=
  (SentEmail.SubscriberID r =? subscriberID) && (SentEmail.ArticleID r =? articleID).

Definition count_sent (subscriberID articleID : Z) (d : DB) : Z :=
  len (filter (sent_to subscriberID articleID) (rows (sent_emails d))).

(** SELECT id, email, name: the fourth field of the Go struct keeps its
    zero value. *)
Definition id_email_name (s : Subscriber.t) : Subscriber.t :=
  Subscriber.mk (Subscriber.ID s) (Subscriber.Email s) (Subscriber.Name s) "".

(** One statement against the engine.  [fk] is the foreign_keys pragma
    of the connection and [ts] the value of CURRENT_TIMESTAMP. *)
Definition eval (fk : bool) (ts : string) (q : Stmt) (d : DB)
  : result (answer q * DB) :=
  match q return result (answer q * DB) with
  | InsertSubscriber email name =>
      if has_email email d
      then Err "UNIQUE constraint failed: subscribers.email"
      else
        let id := next_rowid Subscriber.ID (subscribers d) in
        Ok (id, mkDB (append_row Subscriber.ID (Subscriber.mk id email name ts) (subscribers d))
                     (articles d) (sent_emails d))
  | InsertArticle title content =>
      let id := next_rowid Article.ID (articles d) in
      Ok (id, mkDB (subscribers d)
                   (append_row Article.ID (Article.mk id title content ts) (articles d))
                   (sent_emails d))
  | InsertSentEmail sid aid =>
      if fk && negb (has_subscriber sid d && has_article aid d)
      then Err "FOREIGN KEY constraint failed"
      else
        let id := next_rowid SentEmail.ID (sent_emails d) in
        Ok (id, mkDB (subscribers d) (articles d)
                     (append_row SentEmail.ID (SentEmail.mk id sid aid ts) (sent_emails d)))
  | SelectArticle id =>
      match find (fun a => Article.ID a =? id) (rows (articles d)) with
      | Some a => Ok (a, d)
      | None => Err "sql: no rows in result set"
      end
  | SelectSubscribers => Ok (map id_email_name (rows (subscribers d)), d)
  | CountSentEmails sid aid => Ok (count_sent sid aid d, d)
  | SelectAllSubscribers => Ok (rows (subscribers d), d)
  | SelectAllArticles => Ok (rows (articles d), d)
  | SelectAllSentEmails => Ok (rows (sent_emails d), d)
  end.

End Store.

(** ** Mail and HTTP values *)

(** The gomail message of sendEmail (main.go:295-299). *)
Record Message := mkMessage {
  From : string;
  To : string;
  Subject : string;
  HtmlBody : string
}.

(** gomail.NewDialer(host, 587, username, password) (main.go:301). *)
Record Dialer := mkDialer {
  Host : string;
  Port : Z;
  Username : string;
  Password : string
}.

(** A JSON document, as encoding/json writes one. *)
#[warnings="-register-all"]
Inductive JSON :=
| JNull
| JInt (n : Z)
| JStr (s : string)
| JArr (items : list JSON)
| JObj (fields : list (string * JSON)).

Inductive Payload :=
| Text (s : string)
| Json (v : JSON).

Record Request := mkRequest { Method : string; Path : string; Body : string }.

Record Response := mkResponse {
  Status : Z;
  Header : list (string * string);
  Content : Payload
}.

Definition StatusOK : Z := 200.
Definition StatusBadRequest : Z := 400.
Definition StatusMethodNotAllowed : Z := 405.
Definition StatusInternalServerError : Z := 500.
Definition MethodPost : string := "POST".

(** ** Observable events and the world *)

Inductive Event :=
| Log (line : string)                    (* log.Println / log.Printf *)
| Sql (q : Store.Stmt)                   (* a statement handed to the driver *)
| ReadFile (path : string)               (* os.ReadFile *)
| Smtp (m : Message) (delivered : bool)  (* gomail DialAndSend *)
| Go (articleID : Z).                    (* go sendNewsletterForArticle(db, id) *)

Record World := mkWorld {
  db : Store.DB;
  clock : nat;            (* external calls made so far *)
  trace : list Event;
  tasks : list Z          (* goroutines spawned and not yet run *)
}.

(** ** The environment: everything main.go calls but does not define *)

Record Env := mkEnv {
  (* database/sql with the sqlite3 driver *)
  sql_fault : nat -> option string;  (* the n-th external call, a statement, fails in the driver *)
  rows_before_fault : nat -> option nat;
    (* where that failure shows when the call is db.Query: None, db.Query
       or rows.Scan returns it; Some k, rows.Next returns false after k
       rows and only rows.Err would tell *)
  current_timestamp : nat -> string;
  foreign_keys : bool;
  (* encoding/json: Decoder.Decode into the handler's struct *)
  decode_subscriber : string -> result Subscriber.t;
  decode_article : string -> result Article.t;
  decode_article_id : string -> result Z;
  (* os *)
  read_file : nat -> string -> result string;
  getenv : string -> string;
  (* html/template: Parse, then Execute with Name, Title, Content *)
  template_parse : string -> result string;
  template_execute : string -> string -> string -> string -> result string;
  (* gomail: Dialer.DialAndSend, None when the relay accepted the message *)
  dial_and_send : nat -> Dialer -> Message -> option string
}.

(** ** encoding/json: how Decoder.Decode frames its input

    The handlers decode with json.NewDecoder(r.Body).Decode(&v).  Decode
    reads ONE value from the body with the package's scanner (readValue),
    then unmarshals the bytes of that value; what follows the value in
    the body is not read.  The scanner is the state machine of the
    package: a step function and a stack of open objects and arrays.
    What unmarshalling the bytes of a value into the handler's struct
    returns stays with the environment. *)

Module Decoder.

Inductive Code :=
| scanContinue | scanBeginLiteral | scanBeginObject | scanObjectKey | scanObjectValue
| scanEndObject | scanBeginArray | scanArrayValue | scanEndArray | scanSkipSpace
| scanEnd | scanError.

Inductive ParseState := parseObjectKey | parseObjectValue | parseArrayValue.

Inductive State :=
| BeginValueOrEmpty | BeginValue | BeginStringOrEmpty | BeginString
| EndValue | EndTop
| InString | InStringEsc | InStringEscU | InStringEscU1 | InStringEscU12 | InStringEscU123
| Neg | Digits1 | Digit0 | Dot | Dot0 | Exp | ExpSign | Exp0
| LitT | LitTr | LitTru | LitF | LitFa | LitFal | LitFals | LitN | LitNu | LitNul
| Failed.

(** The scanner: the function to run on the next byte, and the open
    objects and arrays, innermost first. *)
Record scanner := mkScanner {
  step : State;
  parseState : list ParseState
}.

Definition maxNestingDepth : nat := 100 * 100.

Definition quote : Ascii.ascii := Ascii.ascii_of_nat 34.
Definition space : Ascii.ascii := Ascii.ascii_of_nat 32.

Definition is_byte (x : string) (c : Ascii.ascii) : bool :=
  match x with
  | String y EmptyString => Ascii.eqb y c
  | _ => false
  end.

Definition between (lo hi : nat) (c : Ascii.ascii) : bool :=
  let n := Ascii.nat_of_ascii c in Nat.leb lo n && Nat.leb n hi.

Definition isSpace (c : Ascii.ascii) : bool :=
  let n := Ascii.nat_of_ascii c in
  Nat.eqb n 32 || Nat.eqb n 9 || Nat.eqb n 13 || Nat.eqb n 10.

Definition isDigit (c : Ascii.ascii) : bool := between 48 57 c.

Definition isHex (c : Ascii.ascii) : bool :=
  isDigit c || between 97 102 c || between 65 70 c.

Definition reset : scanner := mkScanner BeginValue [].

Definition to (st : State) (code : Code) (s : scanner) : Code * scanner :=
  (code, mkScanner st (parseState s)).

(** s.error: the scanner stays in the error state *)
Definition error (s : scanner) : Code * scanner := to Failed scanError s.

Definition pushParseState (p : ParseState) (next : State) (success : Code) (s : scanner)
    : Code * scanner :=
  let stack := p :: parseState s in
  if Nat.leb (List.length stack) maxNestingDepth
  then (success, mkScanner next stack)
  else error (mkScanner next stack).

Definition popParseState (s : scanner) : scanner :=
  match parseState s with
  | _ :: [] => mkScanner EndTop []
  | _ :: rest => mkScanner EndValue rest
  | [] => s
  end.

(** After the top-level value: a byte that is not space is complained
    about on the NEXT call, this one still answers scanEnd. *)
Definition stateEndTop (s : scanner) (c : Ascii.ascii) : Code * scanner :=
  if isSpace c then (scanEnd, s) else (scanEnd, snd (error s)).

Definition stateEndValue (s : scanner) (c : Ascii.ascii) : Code * scanner :=
  match parseState s with
  | [] => stateEndTop (mkScanner EndTop []) c
  | ps :: rest =>
      if isSpace c then to EndValue scanSkipSpace s
      else
        match ps with
        | parseObjectKey =>
            if is_byte ":" c then (scanObjectKey, mkScanner BeginValue (parseObjectValue :: rest))
            else error s
        | parseObjectValue =>
            if is_byte "," c then (scanObjectValue, mkScanner BeginString (parseObjectKey :: rest))
            else if is_byte "}" c then (scanEndObject, popParseState s)
            else error s
        | parseArrayValue =>
            if is_byte "," c then to BeginValue scanArrayValue s
            else if is_byte "]" c then (scanEndArray, popParseState s)
            else error s
        end
  end.

Definition stateBeginValue (s : scanner) (c : Ascii.ascii) : Code * scanner :=
  if isSpace c then (scanSkipSpace, s)
  else if is_byte "{" c then pushParseState parseObjectKey BeginStringOrEmpty scanBeginObject s
  else if is_byte "[" c then pushParseState parseArrayValue BeginValueOrEmpty scanBeginArray s
  else if Ascii.eqb c quote then to InString scanBeginLiteral s
  else if is_byte "-" c then to Neg scanBeginLiteral s
  else if is_byte "0" c then to Digit0 scanBeginLiteral s
  else if is_byte "t" c then to LitT scanBeginLiteral s
  else if is_byte "f" c then to LitF scanBeginLiteral s
  else if is_byte "n" c then to LitN scanBeginLiteral s
  else if between 49 57 c then to Digits1 scanBeginLiteral s
  else error s.

Definition stateBeginValueOrEmpty (s : scanner) (c : Ascii.ascii) : Code * scanner :=
  if isSpace c then (scanSkipSpace, s)
  else if is_byte "]" c then stateEndValue s c
  else stateBeginValue s c.

Definition stateBeginString (s : scanner) (c : Ascii.ascii) : Code * scanner :=
  if isSpace c then (scanSkipSpace, s)
  else if Ascii.eqb c quote then to InString scanBeginLiteral s
  else error s.

Definition stateBeginStringOrEmpty (s : scanner) (c : Ascii.ascii) : Code * scanner :=
  if isSpace c then (scanSkipSpace, s)
  else if is_byte "}" c then
    stateEndValue (mkScanner (step s) (parseObjectValue :: tl (parseState s))) c
  else stateBeginString s c.

Definition stateInString (s : scanner) (c : Ascii.ascii) : Code * scanner :=
  if Ascii.eqb c quote then to EndValue scanContinue s
  else if is_byte "\" c then to InStringEsc scanContinue s
  else if Nat.ltb (Ascii.nat_of_ascii c) 32 then error s
  else (scanContinue, s).

Definition stateInStringEsc (s : scanner) (c : Ascii.ascii) : Code * scanner :=
  if is_byte "b" c || is_byte "f" c || is_byte "n" c || is_byte "r" c || is_byte "t" c || is_byte "\" c || is_byte "/" c
     || Ascii.eqb c quote
  then to InString scanContinue s
  else if is_byte "u" c then to InStringEscU scanContinue s
  else error s.

(** One of the four hexadecimal digits of a \u escape. *)
Definition stateHex (next : State) (s : scanner) (c : Ascii.ascii) : Code * scanner :=
  if isHex c then to next scanContinue s else error s.

(** The next letter of true, false or null. *)
Definition stateLetter (x : string) (next : State) (s : scanner) (c : Ascii.ascii)
    : Code * scanner :=
  if is_byte x c then to next scanContinue s else error s.

Definition stateNeg (s : scanner) (c : Ascii.ascii) : Code * scanner :=
  if is_byte "0" c then to Digit0 scanContinue s
  else if between 49 57 c then to Digits1 scanContinue s
  else error s.

Definition state0 (s : scanner) (c : Ascii.ascii) : Code * scanner :=
  if is_byte "." c then to Dot scanContinue s
  else if is_byte "e" c || is_byte "E" c then to Exp scanContinue s
  else stateEndValue s c.

Definition state1 (s : scanner) (c : Ascii.ascii) : Code * scanner :=
  if isDigit c then to Digits1 scanContinue s else state0 s c.

Definition stateDot (s : scanner) (c : Ascii.ascii) : Code * scanner :=
  if isDigit c then to Dot0 scanContinue s else error s.

Definition stateDot0 (s : scanner) (c : Ascii.ascii) : Code * scanner :=
  if isDigit c then (scanContinue, s)
  else if is_byte "e" c || is_byte "E" c then to Exp scanContinue s
  else stateEndValue s c.

Definition stateESign (s : scanner) (c : Ascii.ascii) : Code * scanner :=
  if isDigit c then to Exp0 scanContinue s else error s.

Definition stateE (s : scanner) (c : Ascii.ascii) : Code * scanner :=
  if is_byte "+" c || is_byte "-" c then to ExpSign scanContinue s else stateESign s c.

Definition stateE0 (s : scanner) (c : Ascii.ascii) : Code * scanner :=
  if isDigit c then (scanContinue, s) else stateEndValue s c.

(** s.step(s, c) *)
Definition run_step (s : scanner) (c : Ascii.ascii) : Code * scanner :=
  match step s with
  | BeginValueOrEmpty => stateBeginValueOrEmpty s c
  | BeginValue => stateBeginValue s c
  | BeginStringOrEmpty => stateBeginStringOrEmpty s c
  | BeginString => stateBeginString s c
  | EndValue => stateEndValue s c
  | EndTop => stateEndTop s c
  | InString => stateInString s c
  | InStringEsc => stateInStringEsc s c
  | InStringEscU => stateHex InStringEscU1 s c
  | InStringEscU1 => stateHex InStringEscU12 s c
  | InStringEscU12 => stateHex InStringEscU123 s c
  | InStringEscU123 => stateHex InString s c
  | Neg => stateNeg s c
  | Digits1 => state1 s c
  | Digit0 => state0 s c
  | Dot => stateDot s c
  | Dot0 => stateDot0 s c
  | Exp => stateE s c
  | ExpSign => stateESign s c
  | Exp0 => stateE0 s c
  | LitT => stateLetter "r" LitTr s c
  | LitTr => stateLetter "u" LitTru s c
  | LitTru => stateLetter "e" EndValue s c
  | LitF => stateLetter "a" LitFa s c
  | LitFa => stateLetter "l" LitFal s c
  | LitFal => stateLetter "s" LitFals s c
  | LitFals => stateLetter "e" EndValue s c
  | LitN => stateLetter "u" LitNu s c
  | LitNu => stateLetter "l" LitNul s c
  | LitNul => stateLetter "l" EndValue s c
  | Failed => (scanError, s)
  end.

Definition ends (r : Code * scanner) : bool :=
  match fst r with
  | scanEnd => true
  | _ => false
  end.

(** Decoder.readValue: the number of bytes of the first value of the
    input, [n] bytes of it already scanned.  scanEnd arrives one byte
    late, so that byte is not part of the value; after a closing brace
    or bracket the decoder does not wait for the next byte and invents a
    space.  At the end of the input a space is invented likewise: a
    value cut short there is an error. *)
Fixpoint readValue_from (s : scanner) (n : nat) (input : string) : option nat :=
  match input with
  | EmptyString => if ends (run_step s space) then Some n else None
  | String c rest =>
      match run_step s c with
      | (scanEnd, _) => Some n
      | (scanEndObject, s') | (scanEndArray, s') =>
          if ends (stateEndValue s' space) then Some (S n) else readValue_from s' (S n) rest
      | (scanError, _) => None
      | (_, s') => readValue_from s' (S n) rest
      end
  end.

Definition readValue (body : string) : option nat := readValue_from reset 0 body.

(** Decode(&v) on a fresh decoder: the value read is unmarshalled, the
    rest of the body stays unread.  The text of a syntax error is the
    library's ([syntax_error]). *)
Definition Decode {T} (syntax_error : string -> string) (unmarshal : string -> result T)
    (body : string) : result T :=
  match readValue body with
  | Some n => unmarshal (String.substring 0 n body)
  | None => Err (syntax_error body)
  end.

(** json.Valid (checkValid, then scanner.eof): every byte is stepped
    through; a JSON text is one value with nothing but space around it. *)
Fixpoint checkValid_from (s : scanner) (input : string) : bool :=
  match input with
  | EmptyString =>
      match step s with
      | Failed => false
      | EndTop => true
      | _ =>
          match step (snd (run_step s space)) with
          | EndTop => true
          | _ => false
          end
      end
  | String c rest =>
      match run_step s c with
      | (scanError, _) => false
      | (_, s') => checkValid_from s' rest
      end
  end.

Definition Valid (body : string) : bool := checkValid_from reset body.

(** An environment whose three decoders are Decode over the
    unmarshalling of [base]. *)
Definition decoding (syntax_error : string -> string) (base : Env) : Env :=
  mkEnv
    (sql_fault base) (rows_before_fault base) (current_timestamp base) (foreign_keys base)
    (Decode syntax_error (decode_subscriber base))
    (Decode syntax_error (decode_article base))
    (Decode syntax_error (decode_article_id base))
    (read_file base) (getenv base) (template_parse base) (template_execute base)
    (dial_and_send base).

End Decoder.

(** ** The program monad: state passing over the world *)

Definition M (A : Type) : Type := World -> A * World.

Definition ret {A} (a : A) : M A := fun w => (a, w).

Definition bind {A B} (m : M A) (k : A -> M B) : M B :=
  fun w => let (a, w') := m w in k a w'.

Declare Scope prog_scope.
Delimit Scope prog_scope with prog.
Notation "x <- m ;; k" := (bind m (fun x => k))
  (at level 61, m at next level, right associativity) : prog_scope.
Notation "m ;; k" := (bind m (fun _ => k))
  (at level 61, right associativity) : prog_scope.
Local Open Scope prog_scope.

(** Final world and returned value of a run. *)
Definition exec {A} (m : M A) (w : World) : World := snd (m w).
Definition value {A} (m : M A) (w : World) : A := fst (m w).

Definition emit (e : Event) : M unit :=
  fun w => (tt, mkWorld (db w) (clock w) (trace w ++ [e]) (tasks w)).

(** An external call: reads the counter and advances it. *)
Definition tick : M nat :=
  fun w => (clock w, mkWorld (db w) (S (clock w)) (trace w) (tasks w)).

Definition log (line : string) : M unit := emit (Log line).

(** The [go] statement: the call is queued, the caller goes on. *)
Definition spawn (articleID : Z) : M unit :=
  fun w => (tt, mkWorld (db w) (clock w) (trace w ++ [Go articleID]) (tasks w ++ [articleID])).

(** range over a slice *)
Fixpoint forEach {A} (l : list A) (body : A -> M unit) : M unit :=
  match l with
  | [] => ret tt
  | x :: l' => body x ;; forEach l' body
  end.

(** ** The program *)

Definition LF : string := String (Ascii.ascii_of_nat 10) EmptyString.

(** http.Error: a plain-text reply, the message followed by a newline. *)
Definition http_Error (msg : string) (code : Z) : Response :=
  mkResponse code
    [("Content-Type", "text/plain; charset=utf-8"); ("X-Content-Type-Options", "nosniff")]
    (Text (msg ++ LF)).

(** w.WriteHeader(http.StatusOK); w.Write(msg) *)
Definition write_ok (msg : string) : Response :=
  mkResponse StatusOK [] (Text msg).

(** encoding/json on the tagged structs; a nil slice is written as null. *)
Definition json_slice {A} (enc : A -> JSON) (l : list A) : JSON :=
  match l with
  | [] => JNull
  | _ :: _ => JArr (map enc l)
  end.

Definition json_Subscriber (s : Subscriber.t) : JSON :=
  JObj [("id", JInt (Subscriber.ID s)); ("email", JStr (Subscriber.Email s));
        ("name", JStr (Subscriber.Name s)); ("subscribed_at", JStr (Subscriber.SubscribedAt s))].

Definition json_Article (a : Article.t) : JSON :=
  JObj [("id", JInt (Article.ID a)); ("title", JStr (Article.Title a));
        ("content", JStr (Article.Content a)); ("published_at", JStr (Article.PublishedAt a))].

Definition json_SentEmail (e : SentEmail.t) : JSON :=
  JObj [("id", JInt (SentEmail.ID e)); ("subscriber_id", JInt (SentEmail.SubscriberID e));
        ("article_id", JInt (SentEmail.ArticleID e)); ("sent_at", JStr (SentEmail.SentAt e))].

Definition json_AllData (d : AllData.t) : JSON :=
  JObj [("subscribers", json_slice json_Subscriber (AllData.Subscribers d));
        ("subscriber_count", JInt (AllData.SubscriberCount d));
        ("articles", json_slice json_Article (AllData.Articles d));
        ("article_count", JInt (AllData.ArticleCount d));
        ("sent_emails", json_slice json_SentEmail (AllData.SentEmails d));
        ("sent_email_count", JInt (AllData.SentEmailCount d))].

(** The loop of the four list readers: var xs []T; for rows.Next()
    { var x T; rows.Scan(...); xs = append(xs, x) }. *)
Definition appended {R} (rows : list R) : list R :=
  fold_left (fun xs x => xs ++ [x]) rows [].

(** What rows.Next yields of a result when the driver fails after [k]
    rows. *)
Definition yielded (k : nat) (q : Store.Stmt) : Store.answer q -> Store.answer q :=
  match q return Store.answer q -> Store.answer q with
  | Store.SelectSubscribers | Store.SelectAllSubscribers => firstn k
  | Store.SelectAllArticles => firstn k
  | Store.SelectAllSentEmails => firstn k
  | _ => fun a => a
  end.

Section Program.

Variable env : Env.

(** db.Exec and db.QueryRow(..).Scan, and db.Query when a failure is
    reported by db.Query itself: the statement reaches the driver, which
    either fails on its own or lets the engine evaluate it. *)
Definition sql (q : Store.Stmt) : M (result (Store.answer q)) :=
  c <- tick ;;
  emit (Sql q) ;;
  fun w =>
    match sql_fault env c with
    | Some e => (Err e, w)
    | None =>
        match Store.eval (foreign_keys env) (current_timestamp env c) q (db w) with
        | Ok (a, d) => (Ok a, mkWorld d (clock w) (trace w) (tasks w))
        | Err e => (Err e, w)
        end
    end.

(** main.go:227-232 *)
Definition getArticle (id : Z) : M (result Article.t) :=
  sql (Store.SelectArticle id).

(** db.Query, for the loop over rows.Next that follows it.  A failure
    the driver reports at once comes back from db.Query as its error.  A
    failure while the rows are stepped comes after db.Query returned:
    rows.Next returns false at that row and keeps the error for
    rows.Err.  The answer is the rows rows.Next yields. *)
Definition query (q : Store.Stmt) : M (result (Store.answer q)) :=
  fun w =>
    match sql_fault env (clock w), rows_before_fault env (clock w) with
    | Some _, Some k =>
        match Store.eval (foreign_keys env) (current_timestamp env (clock w)) q (db w) with
        | Ok (a, d) =>
            (Ok (yielded k q a), mkWorld d (S (clock w)) (trace w ++ [Sql q]) (tasks w))
        | Err e => (Err e, mkWorld (db w) (S (clock w)) (trace w ++ [Sql q]) (tasks w))
        end
    | _, _ => sql q w
    end.

(** main.go:234-250.  The loop ends when rows.Next returns false;
    rows.Err is not consulted, so the rows appended so far are returned
    with a nil error. *)
Definition getSubscribers : M (result (list Subscriber.t)) :=
  r <- query Store.SelectSubscribers ;;
  match r with
  | Err e => ret (Err e)
  | Ok rows => ret (Ok (appended rows))
  end.

(** main.go:252-261 *)
Definition hasReceivedArticle (subscriberID articleID : Z) : M bool :=
  r <- sql (Store.CountSentEmails subscriberID articleID) ;;
  match r with
  | Err e => log ("Error checking sent email: " ++ e) ;; ret false
  | Ok count => ret (0 <? count)
  end.

(** main.go:263-269 *)
Definition markEmailSent (subscriberID articleID : Z) : M unit :=
  r <- sql (Store.InsertSentEmail subscriberID articleID) ;;
  match r with
  | Err e => log ("Error marking email as sent: " ++ e)
  | Ok _ => ret tt
  end.

(** main.go:271-309 *)
Definition sendEmail (sub : Subscriber.t) (article : Article.t) : M bool :=
  c <- tick ;;
  emit (ReadFile "email_template.html") ;;
  match read_file env c "email_template.html" with
  | Err e => log ("Error reading email template file: " ++ e) ;; ret false
  | Ok templateContent =>
      match template_parse env templateContent with
      | Err e => log ("Error parsing email template: " ++ e) ;; ret false
      | Ok t =>
          match template_execute env t (Subscriber.Name sub)
                  (Article.Title article) (Article.Content article) with
          | Err e => log ("Error executing template: " ++ e) ;; ret false
          | Ok body =>
              let m := mkMessage (getenv env "EMAIL_FROM") (Subscriber.Email sub)
                         ("New Blog Post: " ++ Article.Title article) body in
              let d := mkDialer (getenv env "SMTP_HOST") 587
                         (getenv env "SMTP_USERNAME") (getenv env "SMTP_PASSWORD") in
              c' <- tick ;;
              match dial_and_send env c' d m with
              | Some e =>
                  emit (Smtp m false) ;;
                  log ("Error sending email to " ++ Subscriber.Email sub ++ ": " ++ e) ;;
                  ret false
              | None => emit (Smtp m true) ;; ret true
              end
          end
      end
  end.

(** The body of the loop at main.go:218-224. *)
Definition forSubscriber (article : Article.t) (articleID : Z) (sub : Subscriber.t) : M unit :=
  received <- hasReceivedArticle (Subscriber.ID sub) articleID ;;
  if negb received then
    sent <- sendEmail sub article ;;
    if sent then markEmailSent (Subscriber.ID sub) articleID else ret tt
  else ret tt.

(** main.go:204-225 *)
Definition sendNewsletterForArticle (articleID : Z) : M unit :=
  log "sending blog post" ;;
  r <- getArticle articleID ;;
  match r with
  | Err e => log ("Error getting article: " ++ e)
  | Ok article =>
      r <- getSubscribers ;;
      match r with
      | Err e => log ("Error getting subscribers: " ++ e)
      | Ok subscribers => forEach subscribers (forSubscriber article articleID)
      end
  end.

(** main.go:126-149 *)
Definition handleSubscribe (r : Request) : M Response :=
  if negb (String.eqb (Method r) MethodPost) then
    ret (http_Error "Method not allowed" StatusMethodNotAllowed)
  else
    match decode_subscriber env (Body r) with
    | Err e => ret (http_Error e StatusBadRequest)
    | Ok sub =>
        res <- sql (Store.InsertSubscriber (Subscriber.Email sub) (Subscriber.Name sub)) ;;
        match res with
        | Err _ => ret (http_Error "Error subscribing" StatusInternalServerError)
        | Ok _ => ret (write_ok "Subscribed successfully")
        end
    end.

(** main.go:151-179 *)
Definition handlePublish (r : Request) : M Response :=
  if negb (String.eqb (Method r) MethodPost) then
    ret (http_Error "Method not allowed" StatusMethodNotAllowed)
  else
    match decode_article env (Body r) with
    | Err e => ret (http_Error e StatusBadRequest)
    | Ok article =>
        res <- sql (Store.InsertArticle (Article.Title article) (Article.Content article)) ;;
        match res with
        | Err _ => ret (http_Error "Error publishing article" StatusInternalServerError)
        | Ok articleID =>
            spawn articleID ;;
            ret (write_ok "Article published successfully")
        end
    end.

(** main.go:181-202 *)
Definition handleSendNewsletter (r : Request) : M Response :=
  if negb (String.eqb (Method r) MethodPost) then
    ret (http_Error "Method not allowed" StatusMethodNotAllowed)
  else
    match decode_article_id env (Body r) with
    | Err e => ret (http_Error e StatusBadRequest)
    | Ok articleID =>
        spawn articleID ;;
        ret (write_ok "Newsletter sending triggered")
    end.

(** main.go:311-363 *)
Definition getAllSubscribers : M (result (list Subscriber.t)) :=
  r <- query Store.SelectAllSubscribers ;;
  match r with
  | Err e => ret (Err e)
  | Ok rows => ret (Ok (appended rows))
  end.

Definition getAllArticles : M (result (list Article.t)) :=
  r <- query Store.SelectAllArticles ;;
  match r with
  | Err e => ret (Err e)
  | Ok rows => ret (Ok (appended rows))
  end.

Definition getAllSentEmails : M (result (list SentEmail.t)) :=
  r <- query Store.SelectAllSentEmails ;;
  match r with
  | Err e => ret (Err e)
  | Ok rows => ret (Ok (appended rows))
  end.

(** main.go:365-389 *)
Definition getAllData : M (result AllData.t) :=
  r <- getAllSubscribers ;;
  match r with
  | Err e => ret (Err e)
  | Ok subscribers =>
      r <- getAllArticles ;;
      match r with
      | Err e => ret (Err e)
      | Ok articles =>
          r <- getAllSentEmails ;;
          match r with
          | Err e => ret (Err e)
          | Ok sentEmails =>
              ret (Ok (AllData.mk subscribers (len subscribers)
                                  articles (len articles)
                                  sentEmails (len sentEmails)))
          end
      end
  end.

(** main.go:391-403.  Encoding a struct of ints, strings and slices of
    such structs has no failing case, so the error branch of Encode is
    not reached. *)
Definition handleGetAllData (r : Request) : M Response :=
  res <- getAllData ;;
  match res with
  | Err e => ret (http_Error e StatusInternalServerError)
  | Ok data =>
      ret (mkResponse StatusOK [("Content-Type", "application/json")] (Json (json_AllData data)))
  end.

(** The routes registered in main (main.go:68-71) on the default mux. *)
Definition serve (r : Request) : M Response :=
  if String.eqb (Path r) "/api/subscribe" then handleSubscribe r
  else if String.eqb (Path r) "/api/publish" then handlePublish r
  else if String.eqb (Path r) "/api/send-newsletter" then handleSendNewsletter r
  else if String.eqb (Path r) "/api/stats" then handleGetAllData r
  else ret (http_Error "404 page not found" 404).

(** The Go scheduler, at the grain of whole goroutines: the oldest
    spawned dispatch runs to its end. *)
Definition run_task : M unit :=
  fun w =>
    match tasks w with
    | [] => (tt, w)
    | articleID :: rest =>
        sendNewsletterForArticle articleID (mkWorld (db w) (clock w) (trace w) rest)
    end.

End Program.

(** ** Reading a run: the events an action added, and what they say *)

(** The events [w'] has beyond those of [w]. *)
Definition since (w w' : World) : list Event :=
  skipn (List.length (trace w)) (trace w').

(** The world after a statement that left the tables alone. *)
Definition issued (q : Store.Stmt) (w : World) : World :=
  mkWorld (db w) (S (clock w)) (trace w ++ [Sql q]) (tasks w).

(** The world in which the loop of sendNewsletterForArticle starts, once
    the article and the subscribers were read. *)
Definition loop_entry (articleID : Z) (w : World) : World :=
  mkWorld (db w) (S (S (clock w)))
    (trace w ++ [Log "sending blog post"; Sql (Store.SelectArticle articleID);
                 Sql Store.SelectSubscribers])
    (tasks w).

(** The store with a sent-record for the pair added at the end. *)
Definition recorded (id sid aid : Z) (ts : string) (d : Store.DB) : Store.DB :=
  Store.mkDB (Store.subscribers d) (Store.articles d)
    (Store.append_row SentEmail.ID (SentEmail.mk id sid aid ts) (Store.sent_emails d)).

(** The (subscriber, article) pairs whose sent-record was looked up. *)
Fixpoint checks (t : list Event) : list (Z * Z) :=
  match t with
  | [] => []
  | Sql (Store.CountSentEmails s a) :: t' => (s, a) :: checks t'
  | _ :: t' => checks t'
  end.

(** The pairs for which an INSERT INTO sent_emails was issued. *)
Fixpoint inserts (t : list Event) : list (Z * Z) :=
  match t with
  | [] => []
  | Sql (Store.InsertSentEmail s a) :: t' => (s, a) :: inserts t'
  | _ :: t' => inserts t'
  end.

(** Calls of sendEmail: each starts by reading the template file. *)
Fixpoint attempts (t : list Event) : nat :=
  match t with
  | [] => 0
  | ReadFile _ :: t' => S (attempts t')
  | _ :: t' => attempts t'
  end.

(** Messages the relay accepted. *)
Fixpoint delivered (t : list Event) : list Message :=
  match t with
  | [] => []
  | Smtp m true :: t' => m :: delivered t'
  | _ :: t' => delivered t'
  end.

(** Whether the subscribers table was read by the dispatch query. *)
Fixpoint fetched_subscribers (t : list Event) : bool :=
  match t with
  | [] => false
  | Sql Store.SelectSubscribers :: _ => true
  | _ :: t' => fetched_subscribers t'
  end.

(** Text of a plain-text reply. *)
Definition text_of (r : Response) : string :=
  match Content r with
  | Text s => s
  | Json _ => ""
  end.

(** [needle] occurs somewhere in [hay]. *)
Fixpoint contains (needle hay : string) : bool :=
  String.prefix needle hay ||
  match hay with
  | EmptyString => false
  | String _ hay' => contains needle hay'
  end.

(** Reading a JSON reply: a member of an object, the items of an array
    (null, Go's encoding of a nil slice, has none). *)
Definition json_get (key : string) (v : JSON) : option JSON :=
  match v with
  | JObj fields =>
      match find (fun kv => String.eqb (fst kv) key) fields with
      | Some kv => Some (snd kv)
      | None => None
      end
  | _ => None
  end.

Definition json_items (v : JSON) : list JSON :=
  match v with
  | JArr items => items
  | _ => []
  end.

(** Reading a row back from its object, by the keys of the struct tags. *)
Definition read_Subscriber (v : JSON) : option Subscriber.t :=
  match json_get "id" v, json_get "email" v, json_get "name" v,
        json_get "subscribed_at" v with
  | Some (JInt id), Some (JStr email), Some (JStr name), Some (JStr at_) =>
      Some (Subscriber.mk id email name at_)
  | _, _, _, _ => None
  end.

Definition read_Article (v : JSON) : option Article.t :=
  match json_get "id" v, json_get "title" v, json_get "content" v,
        json_get "published_at" v with
  | Some (JInt id), Some (JStr title), Some (JStr content), Some (JStr at_) =>
      Some (Article.mk id title content at_)
  | _, _, _, _ => None
  end.

Definition read_SentEmail (v : JSON) : option SentEmail.t :=
  match json_get "id" v, json_get "subscriber_id" v, json_get "article_id" v,
        json_get "sent_at" v with
  | Some (JInt id), Some (JInt sid), Some (JInt aid), Some (JStr at_) =>
      Some (SentEmail.mk id sid aid at_)
  | _, _, _, _ => None
  end.

Definition json_of (r : Response) : JSON :=
  match Content r with
  | Json v => v
  | Text _ => JNull
  end.

(** The three POST routes, decoding with Decoder.Decode, reject every
    body that is not valid JSON: the reply is 400 and the world is the
    one before the request. *)
Definition invalid_json_rejected : Prop :=
  forall (syntax_error : string -> string) (base : Env) (w : World) (r : Request),
    Method r = MethodPost ->
    Path r = "/api/subscribe" \/ Path r = "/api/publish" \/ Path r = "/api/send-newsletter" ->
    Decoder.Valid (Body r) = false ->
    Status (value (serve (Decoder.decoding syntax_error base) r) w) = StatusBadRequest /\
    exec (serve (Decoder.decoding syntax_error base) r) w = w.

(** The 500 reply of a handler carries the store's own error message.
    Stated for the sign-up and for the publication handler. *)
Definition subscribe_exposes_store_error : Prop :=
  forall (env : Env) (w : World) (r : Request) (sub : Subscriber.t) (e : string),
    Method r = MethodPost ->
    decode_subscriber env (Body r) = Ok sub ->
    value (sql env (Store.InsertSubscriber (Subscriber.Email sub) (Subscriber.Name sub))) w
      = Err e ->
    Status (value (handleSubscribe env r) w) = 500 /\
    contains e (text_of (value (handleSubscribe env r) w)) = true.

Definition publish_exposes_store_error : Prop :=
  forall (env : Env) (w : World) (r : Request) (article : Article.t) (e : string),
    Method r = MethodPost ->
    decode_article env (Body r) = Ok article ->
    value (sql env (Store.InsertArticle (Article.Title article) (Article.Content article))) w
      = Err e ->
    Status (value (handlePublish env r) w) = 500 /\
    contains e (text_of (value (handlePublish env r) w)) = true.

(** The server at work: it serves a request, or the scheduler lets the
    oldest spawned dispatch run. *)
Inductive Step :=
| Handle (r : Request)
| RunTask.

Definition step (env : Env) (st : Step) : M (option Response) :=
  match st with
  | Handle r => resp <- serve env r ;; ret (Some resp)
  | RunTask => run_task env ;; ret None
  end.

Fixpoint run (env : Env) (steps : list Step) : M (list (option Response)) :=
  match steps with
  | [] => ret []
  | st :: steps' =>
      o <- step env st ;;
      os <- run env steps' ;;
      ret (o :: os)
  end.





(** ** The store over time

    One accepted INSERT, as Store.eval performs it: the new row goes to
    the end of its table under the next rowid; a subscriber row only
    when its email is not in the table yet. *)
Inductive inserted : Store.DB -> Store.DB -> Prop :=
| inserted_subscriber d email name ts :
    Store.has_email email d = false ->
    inserted d
      (Store.mkDB
         (Store.append_row Subscriber.ID
            (Subscriber.mk (Store.next_rowid Subscriber.ID (Store.subscribers d)) email name ts)
            (Store.subscribers d))
         (Store.articles d) (Store.sent_emails d))
| inserted_article d title content ts :
    inserted d
      (Store.mkDB (Store.subscribers d)
         (Store.append_row Article.ID
            (Article.mk (Store.next_rowid Article.ID (Store.articles d)) title content ts)
            (Store.articles d))
         (Store.sent_emails d))
| inserted_sent_email d sid aid ts :
    inserted d
      (recorded (Store.next_rowid SentEmail.ID (Store.sent_emails d)) sid aid ts d).

(** Any number of accepted INSERTs, one after the other. *)
Inductive grows : Store.DB -> Store.DB -> Prop :=
| grows_refl d : grows d d
| grows_step d1 d2 d3 : inserted d1 d2 -> grows d2 d3 -> grows d1 d3.

(** An action that does nothing to the store but INSERT. *)
Definition growing {A} (m : M A) : Prop :=
  forall w, grows (db w) (db (exec m w)).

(** Rowids strictly increase along a table. *)
Definition ascending {R} (id : R -> Z) (t : Store.Table R) : Prop :=
  StronglySorted Z.lt (map id (Store.rows t)).

Definition well_keyed (d : Store.DB) : Prop :=
  ascending Subscriber.ID (Store.subscribers d) /\
  ascending Article.ID (Store.articles d) /\
  ascending SentEmail.ID (Store.sent_emails d).

(** No two subscriber rows share an email. *)
Definition unique_emails (d : Store.DB) : Prop :=
  NoDup (map Subscriber.Email (Store.rows (Store.subscribers d))).

(** Every sent-record names a subscriber and an article that are stored. *)
Definition references_stored (d : Store.DB) : Prop :=
  forall r, In r (Store.rows (Store.sent_emails d)) ->
            Store.has_subscriber (SentEmail.SubscriberID r) d = true /\
            Store.has_article (SentEmail.ArticleID r) d = true.

(** Attempts to reach the relay, accepted or not. *)
Fixpoint dials (t : list Event) : nat :=
  match t with
  | [] => 0
  | Smtp _ _ :: t' => S (dials t')
  | _ :: t' => dials t'
  end.

(** The body of the mail for a subscriber and an article when the
    template file is read at call [c], parsed and executed; the error of
    the first of the three that fails otherwise. *)
Definition rendered (env : Env) (c : nat) (sub : Subscriber.t) (article : Article.t)
  : result string :=
  match read_file env c "email_template.html" with
  | Err e => Err e
  | Ok templateContent =>
      match template_parse env templateContent with
      | Err e => Err e
      | Ok t =>
          template_execute env t (Subscriber.Name sub)
            (Article.Title article) (Article.Content article)
      end
  end.

(** The message sendEmail builds around a body, and the dialer it uses. *)
Definition message_for (env : Env) (sub : Subscriber.t) (article : Article.t) (body : string)
  : Message :=
  mkMessage (getenv env "EMAIL_FROM") (Subscriber.Email sub)
            ("New Blog Post: " ++ Article.Title article) body.

Definition dialer_of (env : Env) : Dialer :=
  mkDialer (getenv env "SMTP_HOST") 587 (getenv env "SMTP_USERNAME") (getenv env "SMTP_PASSWORD").

(** What one of the four list readers returns when its query is call
    [n] and the table scan holds the rows [all]: all of them when the
    driver does not fail; the error when db.Query reports it; the first
    [k] rows, with no error, when rows.Next stops after [k] rows. *)
Definition read_outcome {R} (env : Env) (all : list R) (n : nat) : result (list R) :=
  match sql_fault env n, rows_before_fault env n with
  | None, _ => Ok all
  | Some e, None => Err e
  | Some _, Some k => Ok (firstn k all)
  end.

(** ** A concrete environment for the examples

    SQLite with the default pragma, a relay that accepts every message,
    a template that renders, and decoders that answer as encoding/json
    does on the three request bodies below. *)

Module Demo.

Definition DQ : string := String (Ascii.ascii_of_nat 34) EmptyString.
Definition quoted (s : string) : string := DQ ++ s ++ DQ.

(** {"email":"ann@x.com","name":"Ann"} *)
Definition subscribe_body : string :=
  "{" ++ quoted "email" ++ ":" ++ quoted "ann@x.com" ++ "," ++
  quoted "name" ++ ":" ++ quoted "Ann" ++ "}".

(** {"title":"Hi","content":"Body"} *)
Definition publish_body : string :=
  "{" ++ quoted "title" ++ ":" ++ quoted "Hi" ++ "," ++
  quoted "content" ++ ":" ++ quoted "Body" ++ "}".

(** {"article_id":7} *)
Definition send_body : string := "{" ++ quoted "article_id" ++ ":7}".

(** Cut off in the middle of the first key. *)
Definition broken_body : string := "{" ++ DQ ++ "emai".

(** {"email":"ann@x.com","name":"Ann"}] : a value, then a stray bracket. *)
Definition trailing_body : string := subscribe_body ++ "]".

Definition env : Env :=
  mkEnv
    (fun _ => None)
    (fun _ => None)
    (fun _ => "2024-05-01 10:00:00")
    false
    (fun b => if String.eqb b subscribe_body
              then Ok (Subscriber.mk 0 "ann@x.com" "Ann" "")
              else Err "unexpected EOF")
    (fun b => if String.eqb b publish_body
              then Ok (Article.mk 0 "Hi" "Body" "")
              else Err "unexpected EOF")
    (fun b => if String.eqb b send_body then Ok 7 else Err "unexpected EOF")
    (fun _ _ => Ok "<h1>{{.Title}}</h1>")
    (fun _ => "")
    (fun src => Ok src)
    (fun _ name title content => Ok ("<h1>" ++ title ++ "</h1>")%string)
    (fun _ _ _ => None).

(** The same environment with the driver failing at call [n]. *)
Definition with_sql_fault (n : nat) (e : string) (base : Env) : Env :=
  mkEnv
    (fun c => if Nat.eqb c n then Some e else sql_fault base c)
    (rows_before_fault base)
    (current_timestamp base) (foreign_keys base)
    (decode_subscriber base) (decode_article base) (decode_article_id base)
    (read_file base) (getenv base) (template_parse base) (template_execute base)
    (dial_and_send base).

(** The same environment with the relay unreachable at call [n]. *)
Definition with_relay_down (n : nat) (base : Env) : Env :=
  mkEnv
    (sql_fault base) (rows_before_fault base) (current_timestamp base) (foreign_keys base)
    (decode_subscriber base) (decode_article base) (decode_article_id base)
    (read_file base) (getenv base) (template_parse base) (template_execute base)
    (fun c d m => if Nat.eqb c n then Some "dial tcp: i/o timeout" else dial_and_send base c d m).

(** The same environment with foreign keys enforced. *)
Definition with_foreign_keys (base : Env) : Env :=
  mkEnv
    (sql_fault base) (rows_before_fault base) (current_timestamp base) true
    (decode_subscriber base) (decode_article base) (decode_article_id base)
    (read_file base) (getenv base) (template_parse base) (template_execute base)
    (dial_and_send base).

Definition start : World := mkWorld Store.empty 0 [] [].

Definition ann : Subscriber.t := Subscriber.mk 1 "ann@x.com" "Ann" "2024-05-01 10:00:00".
Definition bob : Subscriber.t := Subscriber.mk 2 "bob@x.com" "Bob" "2024-05-01 10:00:00".
Definition cyd : Subscriber.t := Subscriber.mk 3 "cyd@x.com" "Cyd" "2024-05-01 10:00:00".
Definition hi : Article.t := Article.mk 1 "Hi" "Body" "2024-05-01 10:00:00".

(** One subscriber, one article, nothing sent. *)
Definition one_subscriber : World :=
  mkWorld (Store.mkDB (Store.mkTable [ann] 1) (Store.mkTable [hi] 1) Store.empty_table) 0 [] [].

(** Three subscribers, one article, nothing sent. *)
Definition three_subscribers : World :=
  mkWorld (Store.mkDB (Store.mkTable [ann; bob; cyd] 3) (Store.mkTable [hi] 1) Store.empty_table)
          0 [] [].

(** One subscriber who already has a sent-record for the article. *)
Definition already_sent : World :=
  mkWorld (Store.mkDB (Store.mkTable [ann] 1) (Store.mkTable [hi] 1)
             (Store.mkTable [SentEmail.mk 1 1 1 "2024-05-01 10:00:00"] 1)) 0 [] [].

Definition post (path body : string) : Request := mkRequest MethodPost path body.

End Demo.

(** Environments in which the mail cannot go out. *)

Module Outage.

(** The template file is not where sendEmail looks for it. *)
Definition template_missing (base : Env) : Env :=
  mkEnv
    (sql_fault base) (rows_before_fault base) (current_timestamp base) (foreign_keys base)
    (decode_subscriber base) (decode_article base) (decode_article_id base)
    (fun _ _ => Err "open email_template.html: no such file or directory")
    (getenv base) (template_parse base) (template_execute base)
    (dial_and_send base).

(** The relay refuses every message. *)
Definition relay_refuses (base : Env) : Env :=
  mkEnv
    (sql_fault base) (rows_before_fault base) (current_timestamp base) (foreign_keys base)
    (decode_subscriber base) (decode_article base) (decode_article_id base)
    (read_file base) (getenv base) (template_parse base) (template_execute base)
    (fun _ _ _ => Some "535 authentication failed").

(** The driver fails at call [n] while the rows of a query are stepped,
    after [k] of them. *)
Definition fault_while_stepping (n : nat) (e : string) (k : nat) (base : Env) : Env :=
  mkEnv
    (fun c => if Nat.eqb c n then Some e else sql_fault base c)
    (fun c => if Nat.eqb c n then Some k else rows_before_fault base c)
    (current_timestamp base) (foreign_keys base)
    (decode_subscriber base) (decode_article base) (decode_article_id base)
    (read_file base) (getenv base) (template_parse base) (template_execute base)
    (dial_and_send base).

End Outage.

(** * Properties *)

(** ** Running the monad *)

Lemma bind_run {A B} (m : M A) (k : A -> M B) (w : World) :
  bind m k w = k (value m w) (exec m w).
Proof. unfold bind, value, exec. destruct (m w); reflexivity. Qed.

Lemma exec_bind {A B} (m : M A) (k : A -> M B) (w : World) :
  exec (bind m k) w = exec (k (value m w)) (exec m w).
Proof. unfold exec at 1. rewrite bind_run. reflexivity. Qed.

Lemma value_bind {A B} (m : M A) (k : A -> M B) (w : World) :
  value (bind m k) w = value (k (value m w)) (exec m w).
Proof. unfold value at 1. rewrite bind_run. reflexivity. Qed.

Lemma value_of {A} (m : M A) (w : World) (a : A) (w' : World) :
  m w = (a, w') -> value m w = a.
Proof. unfold value. intros ->. reflexivity. Qed.

Lemma exec_of {A} (m : M A) (w : World) (a : A) (w' : World) :
  m w = (a, w') -> exec m w = w'.
Proof. unfold exec. intros ->. reflexivity. Qed.

Lemma forEach_app {A} (body : A -> M unit) (l1 l2 : list A) (w : World) :
  exec (forEach (l1 ++ l2) body) w = exec (forEach l2 body) (exec (forEach l1 body) w).
Proof.
  revert w. induction l1 as [|x l1 IH]; intros w; simpl.
  - reflexivity.
  - rewrite !exec_bind. apply IH.
Qed.

Lemma since_app (w w' : World) (d : list Event) :
  trace w' = trace w ++ d -> since w w' = d.
Proof.
  intros H. unfold since. rewrite H.
  rewrite skipn_app, skipn_all, Nat.sub_diag. reflexivity.
Qed.

Lemma has_article_find (id : Z) (d : Store.DB) :
  Store.has_article id d = false ->
  find (fun a => Article.ID a =? id) (Store.rows (Store.articles d)) = None.
Proof.
  unfold Store.has_article. induction (Store.rows (Store.articles d)) as [|a l IH]; simpl.
  - reflexivity.
  - destruct (Article.ID a =? id); simpl; [discriminate | exact IH].
Qed.

Lemma find_has_article (id : Z) (d : Store.DB) (a : Article.t) :
  find (fun a => Article.ID a =? id) (Store.rows (Store.articles d)) = Some a ->
  Store.has_article id d = true.
Proof.
  unfold Store.has_article. induction (Store.rows (Store.articles d)) as [|x l IH]; simpl.
  - discriminate.
  - destruct (Article.ID x =? id); simpl; [reflexivity | exact IH].
Qed.

(** ** The driver *)

Section Driver.

Variable env : Env.

Lemma sql_faulty q w e :
  sql_fault env (clock w) = Some e ->
  sql env q w = (Err e, issued q w).
Proof. intros H. unfold sql, bind, tick, emit; simpl. rewrite H. reflexivity. Qed.

Lemma sql_accepted q w a d :
  sql_fault env (clock w) = None ->
  Store.eval (foreign_keys env) (current_timestamp env (clock w)) q (db w) = Ok (a, d) ->
  sql env q w = (Ok a, mkWorld d (S (clock w)) (trace w ++ [Sql q]) (tasks w)).
Proof. intros H E. unfold sql, bind, tick, emit; simpl. rewrite H, E. reflexivity. Qed.

Lemma sql_rejected q w e :
  sql_fault env (clock w) = None ->
  Store.eval (foreign_keys env) (current_timestamp env (clock w)) q (db w) = Err e ->
  sql env q w = (Err e, issued q w).
Proof. intros H E. unfold sql, bind, tick, emit; simpl. rewrite H, E. reflexivity. Qed.

(** A failed statement changes no table. *)
Lemma sql_error_keeps_db q w e :
  value (sql env q) w = Err e -> exec (sql env q) w = issued q w.
Proof.
  unfold value, exec.
  destruct (sql_fault env (clock w)) as [e'|] eqn:F.
  - rewrite (sql_faulty q w e' F). reflexivity.
  - destruct (Store.eval (foreign_keys env) (current_timestamp env (clock w)) q (db w))
      as [[a d]|e'] eqn:E.
    + rewrite (sql_accepted q w a d F E). discriminate.
    + rewrite (sql_rejected q w e' F E). reflexivity.
Qed.

Lemma sql_footprint q w :
  clock (exec (sql env q) w) = S (clock w) /\
  trace (exec (sql env q) w) = trace w ++ [Sql q] /\
  tasks (exec (sql env q) w) = tasks w.
Proof.
  unfold exec.
  destruct (sql_fault env (clock w)) as [e'|] eqn:F.
  - rewrite (sql_faulty q w e' F). simpl. auto.
  - destruct (Store.eval (foreign_keys env) (current_timestamp env (clock w)) q (db w))
      as [[a d]|e'] eqn:E.
    + rewrite (sql_accepted q w a d F E). simpl. auto.
    + rewrite (sql_rejected q w e' F E). simpl. auto.
Qed.

Lemma appended_all {R} (rows : list R) : appended rows = rows.
Proof.
  unfold appended.
  assert (G : forall acc, fold_left (fun xs x => xs ++ [x]) rows acc = acc ++ rows).
  { induction rows as [|x rows IH]; intros acc; simpl.
    - rewrite app_nil_r. reflexivity.
    - rewrite IH, <- app_assoc. reflexivity. }
  exact (G []).
Qed.

Ltac run_reader :=
  unfold query, sql, bind, tick, emit, ret, read_outcome, issued; simpl;
  destruct (sql_fault env _); [destruct (rows_before_fault env _) | ];
  simpl; rewrite ?appended_all; reflexivity.

Lemma getSubscribers_run w :
  getSubscribers env w
  = (read_outcome env (map Store.id_email_name (Store.rows (Store.subscribers (db w))))
                  (clock w),
     issued Store.SelectSubscribers w).
Proof. unfold getSubscribers. run_reader. Qed.

Lemma getAllSubscribers_run w :
  getAllSubscribers env w
  = (read_outcome env (Store.rows (Store.subscribers (db w))) (clock w),
     issued Store.SelectAllSubscribers w).
Proof. unfold getAllSubscribers. run_reader. Qed.

Lemma getAllArticles_run w :
  getAllArticles env w
  = (read_outcome env (Store.rows (Store.articles (db w))) (clock w),
     issued Store.SelectAllArticles w).
Proof. unfold getAllArticles. run_reader. Qed.

Lemma getAllSentEmails_run w :
  getAllSentEmails env w
  = (read_outcome env (Store.rows (Store.sent_emails (db w))) (clock w),
     issued Store.SelectAllSentEmails w).
Proof. unfold getAllSentEmails. run_reader. Qed.

(** getAllData, read by read. *)
Lemma getAllData_run w :
  getAllData env w
  = let w1 := issued Store.SelectAllSubscribers w in
    let w2 := issued Store.SelectAllArticles w1 in
    let w3 := issued Store.SelectAllSentEmails w2 in
    match read_outcome env (Store.rows (Store.subscribers (db w))) (clock w) with
    | Err e => (Err e, w1)
    | Ok subscribers =>
        match read_outcome env (Store.rows (Store.articles (db w))) (S (clock w)) with
        | Err e => (Err e, w2)
        | Ok articles =>
            match read_outcome env (Store.rows (Store.sent_emails (db w))) (S (S (clock w))) with
            | Err e => (Err e, w3)
            | Ok sentEmails =>
                (Ok (AllData.mk subscribers (len subscribers) articles (len articles)
                                sentEmails (len sentEmails)), w3)
            end
        end
    end.
Proof.
  cbv zeta. unfold getAllData.
  rewrite bind_run, (value_of _ _ _ _ (getAllSubscribers_run w)),
          (exec_of _ _ _ _ (getAllSubscribers_run w)).
  destruct (read_outcome env (Store.rows (Store.subscribers (db w))) (clock w)) as [subs|e];
    [ | reflexivity].
  rewrite bind_run, (value_of _ _ _ _ (getAllArticles_run _)),
          (exec_of _ _ _ _ (getAllArticles_run _)).
  change (db (issued Store.SelectAllSubscribers w)) with (db w).
  change (clock (issued Store.SelectAllSubscribers w)) with (S (clock w)).
  destruct (read_outcome env (Store.rows (Store.articles (db w))) (S (clock w))) as [arts|e];
    [ | reflexivity].
  rewrite bind_run, (value_of _ _ _ _ (getAllSentEmails_run _)),
          (exec_of _ _ _ _ (getAllSentEmails_run _)).
  change (db (issued Store.SelectAllArticles (issued Store.SelectAllSubscribers w)))
    with (db w).
  change (clock (issued Store.SelectAllArticles (issued Store.SelectAllSubscribers w)))
    with (S (S (clock w))).
  destruct (read_outcome env (Store.rows (Store.sent_emails (db w))) (S (S (clock w))))
    as [sents|e]; reflexivity.
Qed.

End Driver.


(** ** The mail client *)

Section Mail.

Variable env : Env.

(** sendEmail touches neither the tables nor the goroutines; it reads the
    template once and hands at most one message to the relay. *)
Lemma sendEmail_footprint sub article w :
  let w' := exec (sendEmail env sub article) w in
  db w' = db w /\ tasks w' = tasks w /\
  exists d, trace w' = trace w ++ ReadFile "email_template.html" :: d /\
            checks d = [] /\ inserts d = [] /\ attempts d = 0%nat /\
            fetched_subscribers d = false /\
            (value (sendEmail env sub article) w = true ->
               clock w' = S (S (clock w)) /\
               exists m, d = [Smtp m true] /\ To m = Subscriber.Email sub) /\
            (value (sendEmail env sub article) w = false -> delivered d = []).
Proof.
  unfold sendEmail, exec, value, bind, tick, emit, log, ret; simpl.
  destruct (read_file env (clock w) "email_template.html") as [tpl|e]; simpl;
    [ destruct (template_parse env tpl) as [t|e]; simpl;
      [ destruct (template_execute env t _ _ _) as [body|e]; simpl;
        [ destruct (dial_and_send env _ _ _) as [e|]; simpl | ] | ] | ];
    (split; [reflexivity | split; [reflexivity | ]]);
    rewrite <- ?app_assoc; simpl;
    eexists; (split; [reflexivity | ]);
    repeat (split; [reflexivity | ]);
    (split; [ intros H; try discriminate H | intros H; try discriminate H; try reflexivity ]).
  split; [reflexivity | eexists; split; reflexivity].
Qed.

End Mail.

(** ** The dispatch loop, one subscriber at a time *)

Section Dispatch.

Variable env : Env.

Lemma hasReceivedArticle_answered sid aid w :
  sql_fault env (clock w) = None ->
  hasReceivedArticle env sid aid w
  = (0 <? Store.count_sent sid aid (db w), issued (Store.CountSentEmails sid aid) w).
Proof.
  intros F. unfold hasReceivedArticle. rewrite bind_run.
  unfold value, exec.
  rewrite (sql_accepted env (Store.CountSentEmails sid aid) w
             (Store.count_sent sid aid (db w)) (db w) F eq_refl).
  destruct w; reflexivity.
Qed.

Lemma hasReceivedArticle_failed sid aid w e :
  sql_fault env (clock w) = Some e ->
  hasReceivedArticle env sid aid w
  = (false, mkWorld (db w) (S (clock w))
              (trace w ++ [Sql (Store.CountSentEmails sid aid);
                           Log ("Error checking sent email: " ++ e)])
              (tasks w)).
Proof.
  intros F. unfold hasReceivedArticle. rewrite bind_run.
  unfold value, exec.
  rewrite (sql_faulty env (Store.CountSentEmails sid aid) w e F).
  unfold bind, log, emit, ret; simpl. rewrite <- app_assoc. reflexivity.
Qed.

Lemma hasReceivedArticle_footprint sid aid w :
  let w' := exec (hasReceivedArticle env sid aid) w in
  db w' = db w /\ tasks w' = tasks w /\ clock w' = S (clock w) /\
  exists d, trace w' = trace w ++ Sql (Store.CountSentEmails sid aid) :: d /\
            checks d = [] /\ inserts d = [] /\ attempts d = 0%nat /\
            delivered d = [] /\ fetched_subscribers d = false.
Proof.
  unfold exec. destruct (sql_fault env (clock w)) as [e|] eqn:F.
  - rewrite (hasReceivedArticle_failed sid aid w e F); simpl.
    repeat (split; [reflexivity | ]).
    eexists; repeat split; reflexivity.
  - rewrite (hasReceivedArticle_answered sid aid w F); simpl.
    repeat (split; [reflexivity | ]).
    exists []; repeat split; reflexivity.
Qed.

Lemma markEmailSent_footprint sid aid w :
  let w' := exec (markEmailSent env sid aid) w in
  tasks w' = tasks w /\ clock w' = S (clock w) /\
  exists d, trace w' = trace w ++ Sql (Store.InsertSentEmail sid aid) :: d /\
            checks d = [] /\ inserts d = [] /\ attempts d = 0%nat /\
            delivered d = [] /\ fetched_subscribers d = false.
Proof.
  unfold markEmailSent. cbv zeta. rewrite exec_bind.
  destruct (sql_footprint env (Store.InsertSentEmail sid aid) w) as (C & T & K).
  set (w1 := exec (sql env (Store.InsertSentEmail sid aid)) w) in *.
  destruct (value (sql env (Store.InsertSentEmail sid aid)) w) as [id|e].
  - change (exec (ret tt) w1) with w1. rewrite C, T, K.
    repeat (split; [reflexivity | ]).
    exists []; repeat split; reflexivity.
  - unfold exec, log, emit; simpl. rewrite C, T, K, <- app_assoc.
    repeat (split; [reflexivity | ]).
    eexists; repeat split; reflexivity.
Qed.

(** The INSERT went through: one row more, for this pair. *)
Lemma markEmailSent_recorded sid aid w :
  sql_fault env (clock w) = None ->
  (foreign_keys env && negb (Store.has_subscriber sid (db w) && Store.has_article aid (db w)))%bool
    = false ->
  db (exec (markEmailSent env sid aid) w)
  = Store.mkDB (Store.subscribers (db w)) (Store.articles (db w))
      (Store.append_row SentEmail.ID
         (SentEmail.mk (Store.next_rowid SentEmail.ID (Store.sent_emails (db w)))
                       sid aid (current_timestamp env (clock w)))
         (Store.sent_emails (db w))).
Proof.
  intros F FK. unfold markEmailSent. rewrite exec_bind.
  unfold value, exec.
  erewrite sql_accepted; [ | exact F | simpl; rewrite FK; reflexivity ].
  reflexivity.
Qed.

(** The INSERT failed: the error is logged, the tables are as before. *)
Lemma markEmailSent_swallowed sid aid w e :
  value (sql env (Store.InsertSentEmail sid aid)) w = Err e ->
  exec (markEmailSent env sid aid) w
  = mkWorld (db w) (S (clock w))
      (trace w ++ [Sql (Store.InsertSentEmail sid aid);
                   Log ("Error marking email as sent: " ++ e)])
      (tasks w).
Proof.
  intros E. unfold markEmailSent. rewrite exec_bind, E.
  rewrite (sql_error_keeps_db env _ w e E).
  unfold exec, log, emit, issued; simpl. rewrite <- app_assoc. reflexivity.
Qed.

(** The loop body, by the outcome of its check and of its send. *)
Lemma forSubscriber_run a aid s w :
  exec (forSubscriber env a aid s) w
  = let w1 := exec (hasReceivedArticle env (Subscriber.ID s) aid) w in
    if value (hasReceivedArticle env (Subscriber.ID s) aid) w then w1
    else
      let w2 := exec (sendEmail env s a) w1 in
      if value (sendEmail env s a) w1
      then exec (markEmailSent env (Subscriber.ID s) aid) w2
      else w2.
Proof.
  unfold forSubscriber. rewrite exec_bind. cbv zeta.
  destruct (value (hasReceivedArticle env (Subscriber.ID s) aid) w); simpl.
  - reflexivity.
  - rewrite exec_bind.
    destruct (value (sendEmail env s a) _); reflexivity.
Qed.

(** Observations distribute over the concatenation of traces. *)
Lemma checks_app t1 t2 : checks (t1 ++ t2) = checks t1 ++ checks t2.
Proof.
  induction t1 as [|e t1 IH]; simpl; [reflexivity | ].
  destruct e as [ | q | | | ]; try exact IH.
  destruct q; try exact IH. simpl. now rewrite IH.
Qed.

Lemma inserts_app t1 t2 : inserts (t1 ++ t2) = inserts t1 ++ inserts t2.
Proof.
  induction t1 as [|e t1 IH]; simpl; [reflexivity | ].
  destruct e as [ | q | | | ]; try exact IH.
  destruct q; try exact IH. simpl. now rewrite IH.
Qed.

Lemma delivered_app t1 t2 : delivered (t1 ++ t2) = delivered t1 ++ delivered t2.
Proof.
  induction t1 as [|e t1 IH]; simpl; [reflexivity | ].
  destruct e as [ | | | m [|] | ]; try exact IH. simpl. now rewrite IH.
Qed.

Lemma attempts_app t1 t2 : attempts (t1 ++ t2) = (attempts t1 + attempts t2)%nat.
Proof.
  induction t1 as [|e t1 IH]; simpl; [reflexivity | ].
  destruct e; try exact IH. simpl. now rewrite IH.
Qed.

Lemma fetched_subscribers_app t1 t2 :
  fetched_subscribers (t1 ++ t2) = (fetched_subscribers t1 || fetched_subscribers t2)%bool.
Proof.
  induction t1 as [|e t1 IH]; simpl; [reflexivity | ].
  destruct e as [ | q | | | ]; try exact IH.
  destruct q; try exact IH. reflexivity.
Qed.

(** One turn of the loop: exactly one look-up, for this subscriber; one
    call of sendEmail when the look-up said unsent and none otherwise; an
    INSERT only after a delivered message; and no table changes unless
    that INSERT was issued. *)
Lemma forSubscriber_footprint a aid s w :
  let received := value (hasReceivedArticle env (Subscriber.ID s) aid) w in
  let w1 := exec (hasReceivedArticle env (Subscriber.ID s) aid) w in
  let sent := value (sendEmail env s a) w1 in
  let w' := exec (forSubscriber env a aid s) w in
  tasks w' = tasks w /\
  exists d, trace w' = trace w ++ d /\
            checks d = [(Subscriber.ID s, aid)] /\
            fetched_subscribers d = false /\
            attempts d = (if received then 0 else 1)%nat /\
            inserts d = (if received then [] else
                         if sent then [(Subscriber.ID s, aid)] else []) /\
            (inserts d = [] -> db w' = db w /\ delivered d = []).
Proof.
  cbv zeta. rewrite forSubscriber_run. cbv zeta.
  destruct (hasReceivedArticle_footprint (Subscriber.ID s) aid w)
    as (D1 & K1 & _ & d1 & T1 & C1 & I1 & A1 & M1 & F1).
  set (w1 := exec (hasReceivedArticle env (Subscriber.ID s) aid) w) in *.
  destruct (value (hasReceivedArticle env (Subscriber.ID s) aid) w).
  { split; [exact K1 | ].
    exists (Sql (Store.CountSentEmails (Subscriber.ID s) aid) :: d1).
    simpl. rewrite C1, I1, F1, A1, M1. repeat split; auto. }
  destruct (sendEmail_footprint env s a w1)
    as (D2 & K2 & d2 & T2 & C2 & I2 & A2 & F2 & Htrue & Hfalse).
  set (w2 := exec (sendEmail env s a) w1) in *.
  destruct (value (sendEmail env s a) w1).
  - destruct (markEmailSent_footprint (Subscriber.ID s) aid w2)
      as (K3 & _ & d3 & T3 & C3 & I3 & A3 & M3 & F3).
    split; [congruence | ].
    exists ((Sql (Store.CountSentEmails (Subscriber.ID s) aid) :: d1)
            ++ (ReadFile "email_template.html" :: d2)
            ++ (Sql (Store.InsertSentEmail (Subscriber.ID s) aid) :: d3)).
    split; [rewrite T3, T2, T1, <- !app_assoc; reflexivity | ].
    rewrite !checks_app, !inserts_app, !attempts_app, !fetched_subscribers_app.
    simpl. rewrite C1, C2, C3, I1, I2, I3, F1, F2, F3, A1, A2, A3.
    repeat (split; [reflexivity | ]). discriminate.
  - split; [congruence | ].
    exists ((Sql (Store.CountSentEmails (Subscriber.ID s) aid) :: d1)
            ++ (ReadFile "email_template.html" :: d2)).
    split; [rewrite T2, T1, <- !app_assoc; reflexivity | ].
    rewrite !checks_app, !inserts_app, !attempts_app, !fetched_subscribers_app, !delivered_app.
    simpl. rewrite C1, C2, I1, I2, F1, F2, M1, (Hfalse eq_refl), A1, A2.
    repeat (split; [reflexivity | ]). intros _. split; [congruence | reflexivity].
Qed.

(** The whole loop: the look-ups follow the slice, one per subscriber. *)
Lemma forEach_footprint a aid subs w :
  let w' := exec (forEach subs (forSubscriber env a aid)) w in
  tasks w' = tasks w /\
  exists d, trace w' = trace w ++ d /\
            checks d = map (fun s => (Subscriber.ID s, aid)) subs /\
            fetched_subscribers d = false /\
            (attempts d <= List.length subs)%nat.
Proof.
  cbv zeta. revert w. induction subs as [|s subs IH]; intros w.
  - simpl. split; [reflexivity | ].
    exists []. rewrite app_nil_r. repeat split; auto.
  - simpl forEach. rewrite exec_bind.
    destruct (forSubscriber_footprint a aid s w) as (K1 & d1 & T1 & C1 & F1 & A1 & _).
    destruct (IH (exec (forSubscriber env a aid s) w)) as (K2 & d2 & T2 & C2 & F2 & A2).
    split; [congruence | ].
    exists (d1 ++ d2).
    split; [rewrite T2, T1, <- app_assoc; reflexivity | ].
    rewrite checks_app, fetched_subscribers_app, attempts_app, C1, C2, F1, F2, A1.
    repeat (split; [reflexivity | ]).
    simpl. destruct (value (hasReceivedArticle env (Subscriber.ID s) aid) w); lia.
Qed.

End Dispatch.

(** ** Dispatch as a whole *)

Section Run.

Variable env : Env.

Lemma method_post r : Method r = MethodPost -> String.eqb (Method r) MethodPost = true.
Proof. intros ->. apply String.eqb_refl. Qed.

(** Looking up an article that is not there fails, whatever the driver does. *)
Lemma getArticle_missing aid w :
  Store.has_article aid (db w) = false ->
  exists e, getArticle env aid w = (Err e, issued (Store.SelectArticle aid) w).
Proof.
  intros H. unfold getArticle.
  destruct (sql_fault env (clock w)) as [e|] eqn:F.
  - exists e. apply (sql_faulty env (Store.SelectArticle aid)); exact F.
  - exists "sql: no rows in result set".
    apply (sql_rejected env (Store.SelectArticle aid)); [exact F | ].
    simpl. rewrite (has_article_find aid (db w) H). reflexivity.
Qed.

Lemma getArticle_found aid a w :
  sql_fault env (clock w) = None ->
  find (fun x => Article.ID x =? aid) (Store.rows (Store.articles (db w))) = Some a ->
  getArticle env aid w = (Ok a, issued (Store.SelectArticle aid) w).
Proof.
  intros F H. unfold getArticle.
  rewrite (sql_accepted env (Store.SelectArticle aid) w a (db w) F).
  - destruct w; reflexivity.
  - simpl. rewrite H. reflexivity.
Qed.

Lemma getSubscribers_answered w :
  sql_fault env (clock w) = None ->
  getSubscribers env w
  = (Ok (map Store.id_email_name (Store.rows (Store.subscribers (db w)))),
     issued Store.SelectSubscribers w).
Proof.
  intros F. rewrite getSubscribers_run. unfold read_outcome. rewrite F. reflexivity.
Qed.

(** With the article found and the subscribers read, dispatch is the loop
    over the rows of the subscribers table, in their order. *)
Lemma dispatch_enters_loop aid a w :
  sql_fault env (clock w) = None ->
  sql_fault env (S (clock w)) = None ->
  find (fun x => Article.ID x =? aid) (Store.rows (Store.articles (db w))) = Some a ->
  exec (sendNewsletterForArticle env aid) w
  = exec (forEach (map Store.id_email_name (Store.rows (Store.subscribers (db w))))
                  (forSubscriber env a aid))
         (loop_entry aid w).
Proof.
  intros F0 F1 H. unfold sendNewsletterForArticle.
  rewrite exec_bind, exec_bind.
  set (w0 := exec (log "sending blog post") w).
  assert (Hw0 : w0 = mkWorld (db w) (clock w) (trace w ++ [Log "sending blog post"]) (tasks w))
    by reflexivity.
  unfold value at 1, exec at 2.
  rewrite (getArticle_found aid a w0); [ | rewrite Hw0; exact F0 | rewrite Hw0; exact H ].
  cbn [fst snd]. rewrite exec_bind.
  unfold value at 1, exec at 2.
  rewrite getSubscribers_answered; [ | rewrite Hw0; exact F1 ].
  cbn [fst snd].
  rewrite Hw0. unfold issued, loop_entry; simpl. rewrite <- !app_assoc. reflexivity.
Qed.

(** With the article found, dispatch goes by what the query for the
    subscribers returns. *)
Lemma dispatch_reads aid a w :
  sql_fault env (clock w) = None ->
  find (fun x => Article.ID x =? aid) (Store.rows (Store.articles (db w))) = Some a ->
  exec (sendNewsletterForArticle env aid) w
  = match read_outcome env (map Store.id_email_name (Store.rows (Store.subscribers (db w))))
                       (S (clock w)) with
    | Ok subs => exec (forEach subs (forSubscriber env a aid)) (loop_entry aid w)
    | Err e =>
        mkWorld (db w) (S (S (clock w)))
          (trace w ++ [Log "sending blog post"; Sql (Store.SelectArticle aid);
                       Sql Store.SelectSubscribers;
                       Log ("Error getting subscribers: " ++ e)])
          (tasks w)
    end.
Proof.
  intros F0 H. unfold sendNewsletterForArticle.
  rewrite exec_bind, exec_bind.
  set (w0 := exec (log "sending blog post") w).
  assert (Hw0 : w0 = mkWorld (db w) (clock w) (trace w ++ [Log "sending blog post"]) (tasks w))
    by reflexivity.
  rewrite (value_of _ _ _ _ (getArticle_found aid a w0 F0 H)),
          (exec_of _ _ _ _ (getArticle_found aid a w0 F0 H)).
  rewrite exec_bind.
  rewrite (value_of _ _ _ _ (getSubscribers_run env _)),
          (exec_of _ _ _ _ (getSubscribers_run env _)).
  change (db (issued (Store.SelectArticle aid) w0)) with (db w).
  change (clock (issued (Store.SelectArticle aid) w0)) with (S (clock w)).
  destruct (read_outcome env _ (S (clock w))) as [subs|e].
  - rewrite Hw0. unfold issued, loop_entry; simpl. rewrite <- !app_assoc. reflexivity.
  - rewrite Hw0. unfold exec, log, emit, issued; simpl. rewrite <- !app_assoc. reflexivity.
Qed.

End Run.

(** ** What one turn of the loop does to the tables *)

Section Records.

Variable env : Env.

Lemma world_eta (w : World) : w = mkWorld (db w) (clock w) (trace w) (tasks w).
Proof. destruct w; reflexivity. Qed.

Lemma count_sent_recorded id sid aid ts d :
  Store.count_sent sid aid (recorded id sid aid ts d) = Store.count_sent sid aid d + 1.
Proof.
  unfold Store.count_sent, recorded, len; simpl.
  rewrite filter_app, length_app; simpl.
  unfold Store.sent_to at 2; simpl. rewrite !Z.eqb_refl; simpl. lia.
Qed.

Lemma count_sent_recorded_other id sid sid' aid aid' ts d :
  sid' <> sid ->
  Store.count_sent sid aid (recorded id sid' aid' ts d) = Store.count_sent sid aid d.
Proof.
  intros N. unfold Store.count_sent, recorded, len; simpl.
  rewrite filter_app, length_app; simpl.
  unfold Store.sent_to at 2; simpl.
  destruct (Z.eqb_spec sid' sid) as [E|_]; [contradiction | ]. simpl. lia.
Qed.

(** Nothing is written unless markEmailSent's INSERT goes through, and
    then it is one sent-record for this subscriber and this article. *)
Lemma markEmailSent_db sid aid w :
  db (exec (markEmailSent env sid aid) w) = db w \/
  exists id ts, db (exec (markEmailSent env sid aid) w) = recorded id sid aid ts (db w).
Proof.
  destruct (value (sql env (Store.InsertSentEmail sid aid)) w) as [id|e] eqn:V.
  - destruct (sql_fault env (clock w)) as [e|] eqn:F.
    { pose proof (value_of _ _ _ _ (sql_faulty env (Store.InsertSentEmail sid aid) w e F)) as V'.
      cbn [Store.answer] in V, V'. congruence. }
    destruct (foreign_keys env
              && negb (Store.has_subscriber sid (db w) && Store.has_article aid (db w)))%bool
      eqn:FK.
    + pose proof (value_of _ _ _ _
                    (sql_rejected env (Store.InsertSentEmail sid aid) w
                       "FOREIGN KEY constraint failed" F
                       ltac:(simpl; rewrite FK; reflexivity))) as V'.
      cbn [Store.answer] in V, V'. congruence.
    + right. eexists; eexists. apply (markEmailSent_recorded env sid aid w F FK).
  - left. rewrite (markEmailSent_swallowed env sid aid w e V). reflexivity.
Qed.

Lemma forSubscriber_db a aid s w :
  db (exec (forSubscriber env a aid s) w) = db w \/
  exists id ts,
    db (exec (forSubscriber env a aid s) w) = recorded id (Subscriber.ID s) aid ts (db w).
Proof.
  rewrite forSubscriber_run. cbv zeta.
  destruct (hasReceivedArticle_footprint env (Subscriber.ID s) aid w) as (D1 & _).
  set (w1 := exec (hasReceivedArticle env (Subscriber.ID s) aid) w) in *.
  destruct (value (hasReceivedArticle env (Subscriber.ID s) aid) w); [left; exact D1 | ].
  destruct (sendEmail_footprint env s a w1) as (D2 & _).
  set (w2 := exec (sendEmail env s a) w1) in *.
  destruct (value (sendEmail env s a) w1); [ | left; congruence ].
  destruct (markEmailSent_db (Subscriber.ID s) aid w2) as [E | (id & ts & E)].
  - left. congruence.
  - right. exists id, ts. rewrite E, D2, D1. reflexivity.
Qed.

(** The loop never writes to the subscribers or the articles table, and
    leaves alone the sent-records of a subscriber it does not visit. *)
Lemma forEach_db a aid subs w :
  let w' := exec (forEach subs (forSubscriber env a aid)) w in
  Store.subscribers (db w') = Store.subscribers (db w) /\
  Store.articles (db w') = Store.articles (db w) /\
  forall sid, ~ In sid (map Subscriber.ID subs) ->
              Store.count_sent sid aid (db w') = Store.count_sent sid aid (db w).
Proof.
  cbv zeta. revert w. induction subs as [|s subs IH]; intros w.
  - simpl. auto.
  - simpl forEach. rewrite exec_bind.
    destruct (IH (exec (forSubscriber env a aid s) w)) as (S2 & A2 & C2).
    rewrite S2, A2.
    destruct (forSubscriber_db a aid s w) as [E | (id & ts & E)]; rewrite E.
    + repeat split; try reflexivity.
      intros sid N. rewrite C2, E; [reflexivity | ].
      intros I; apply N; right; exact I.
    + repeat split; try reflexivity.
      intros sid N. rewrite C2, E.
      * apply count_sent_recorded_other. intros E'. apply N. left. exact E'.
      * intros I; apply N; right; exact I.
Qed.

(** A turn whose look-up says unsent and whose message is delivered. *)
Lemma forSubscriber_unsent_delivered a aid s w :
  value (hasReceivedArticle env (Subscriber.ID s) aid) w = false ->
  value (sendEmail env s a) (exec (hasReceivedArticle env (Subscriber.ID s) aid) w) = true ->
  exists w2 m d,
    exec (forSubscriber env a aid s) w = exec (markEmailSent env (Subscriber.ID s) aid) w2 /\
    db w2 = db w /\ clock w2 = (3 + clock w)%nat /\ tasks w2 = tasks w /\
    trace w2 = trace w ++ d /\ delivered d = [m] /\ To m = Subscriber.Email s.
Proof.
  intros R S. rewrite forSubscriber_run. cbv zeta. rewrite R, S.
  destruct (hasReceivedArticle_footprint env (Subscriber.ID s) aid w)
    as (D1 & K1 & L1 & d1 & T1 & _ & _ & _ & M1 & _).
  set (w1 := exec (hasReceivedArticle env (Subscriber.ID s) aid) w) in *.
  destruct (sendEmail_footprint env s a w1)
    as (D2 & K2 & d2 & T2 & _ & _ & _ & _ & Htrue & _).
  destruct (Htrue S) as (L2 & m & -> & Hm).
  exists (exec (sendEmail env s a) w1), m,
         ((Sql (Store.CountSentEmails (Subscriber.ID s) aid) :: d1)
          ++ [ReadFile "email_template.html"; Smtp m true]).
  split; [reflexivity | ].
  split; [congruence | ].
  split; [rewrite L2, L1; reflexivity | ].
  split; [congruence | ].
  split; [rewrite T2, T1, <- app_assoc; reflexivity | ].
  split; [ | exact Hm ].
  rewrite delivered_app; simpl. rewrite M1. reflexivity.
Qed.

Lemma forSubscriber_records a aid s w :
  value (hasReceivedArticle env (Subscriber.ID s) aid) w = false ->
  value (sendEmail env s a) (exec (hasReceivedArticle env (Subscriber.ID s) aid) w) = true ->
  sql_fault env (3 + clock w) = None ->
  (foreign_keys env
   && negb (Store.has_subscriber (Subscriber.ID s) (db w) && Store.has_article aid (db w)))%bool
    = false ->
  let w' := exec (forSubscriber env a aid s) w in
  db w' = recorded (Store.next_rowid SentEmail.ID (Store.sent_emails (db w)))
                   (Subscriber.ID s) aid (current_timestamp env (3 + clock w)) (db w) /\
  tasks w' = tasks w /\ clock w' = (4 + clock w)%nat /\
  exists m d, trace w' = trace w ++ d /\ delivered d = [m] /\ To m = Subscriber.Email s /\
              inserts d = [(Subscriber.ID s, aid)].
Proof.
  intros R S F FK. cbv zeta.
  destruct (forSubscriber_footprint env a aid s w) as (_ & d0 & T0 & _ & _ & _ & I0 & _).
  cbv zeta in I0. rewrite R, S in I0.
  destruct (forSubscriber_unsent_delivered a aid s w R S)
    as (w2 & m & d & E & D2 & L2 & K2 & T2 & M2 & Hm).
  rewrite E.
  destruct (markEmailSent_footprint env (Subscriber.ID s) aid w2)
    as (K3 & L3 & d3 & T3 & _ & _ & _ & M3 & _).
  rewrite (markEmailSent_recorded env (Subscriber.ID s) aid w2);
    [ | rewrite L2; exact F | rewrite D2; exact FK ].
  rewrite D2, L2, K3, K2, L3, L2.
  repeat (split; [reflexivity | ]).
  exists m, (d ++ Sql (Store.InsertSentEmail (Subscriber.ID s) aid) :: d3).
  split; [rewrite T3, T2, <- app_assoc; reflexivity | ].
  split; [rewrite delivered_app; simpl; rewrite M2, M3; reflexivity | ].
  split; [exact Hm | ].
  rewrite E, T3, T2, <- app_assoc in T0. apply app_inv_head in T0.
  rewrite T0. exact I0.
Qed.

(** A turn whose message is delivered and whose INSERT then fails. *)
Lemma forSubscriber_loses_record a aid s w e :
  value (hasReceivedArticle env (Subscriber.ID s) aid) w = false ->
  value (sendEmail env s a) (exec (hasReceivedArticle env (Subscriber.ID s) aid) w) = true ->
  sql_fault env (3 + clock w) = Some e ->
  let w' := exec (forSubscriber env a aid s) w in
  db w' = db w /\ tasks w' = tasks w /\
  exists m d, trace w' = trace w ++ d ++ [Sql (Store.InsertSentEmail (Subscriber.ID s) aid);
                                          Log ("Error marking email as sent: " ++ e)] /\
              delivered d = [m] /\ To m = Subscriber.Email s.
Proof.
  intros R S F. cbv zeta.
  destruct (forSubscriber_unsent_delivered a aid s w R S)
    as (w2 & m & d & E & D2 & L2 & K2 & T2 & M2 & Hm).
  rewrite E.
  assert (V : value (sql env (Store.InsertSentEmail (Subscriber.ID s) aid)) w2 = Err e).
  { apply (value_of _ _ _ _ (sql_faulty env _ w2 e ltac:(rewrite L2; exact F))). }
  rewrite (markEmailSent_swallowed env _ _ w2 e V); simpl.
  split; [exact D2 | ]. split; [exact K2 | ].
  exists m, d. rewrite T2, <- app_assoc. auto.
Qed.

(** A turn whose look-up finds a sent-record: nothing but the look-up. *)
Lemma forSubscriber_skips a aid s w :
  sql_fault env (clock w) = None ->
  0 < Store.count_sent (Subscriber.ID s) aid (db w) ->
  exec (forSubscriber env a aid s) w
  = issued (Store.CountSentEmails (Subscriber.ID s) aid) w.
Proof.
  intros F C. rewrite forSubscriber_run. cbv zeta.
  rewrite (value_of _ _ _ _ (hasReceivedArticle_answered env _ aid w F)),
          (exec_of _ _ _ _ (hasReceivedArticle_answered env _ aid w F)).
  apply Z.ltb_lt in C. rewrite C. reflexivity.
Qed.

(** A row of the subscribers table and an article that was found
    satisfy the references of a sent-record, pragma or not. *)
Lemma references_hold aid a s d :
  find (fun x => Article.ID x =? aid) (Store.rows (Store.articles d)) = Some a ->
  In s (Store.rows (Store.subscribers d)) ->
  (foreign_keys env
   && negb (Store.has_subscriber (Subscriber.ID s) d && Store.has_article aid d))%bool = false.
Proof.
  intros Ha Hs. rewrite (find_has_article aid d a Ha).
  assert (Store.has_subscriber (Subscriber.ID s) d = true) as ->.
  { unfold Store.has_subscriber. apply existsb_exists.
    exists s. split; [exact Hs | apply Z.eqb_refl]. }
  apply andb_false_r.
Qed.

End Records.

(** ** The subscribers table over the life of the server *)

Section Subscribers.

Variable env : Env.






Lemma handleSendNewsletter_keeps_db r w :
  db (exec (handleSendNewsletter env r) w) = db w.
Proof.
  unfold handleSendNewsletter.
  destruct (negb (Method r =? MethodPost)%string); [reflexivity | ].
  destruct (decode_article_id env (Body r)); reflexivity.
Qed.

Lemma handleGetAllData_keeps_db r w :
  db (exec (handleGetAllData env r) w) = db w.
Proof.
  unfold handleGetAllData. rewrite exec_bind.
  unfold value, exec. rewrite (getAllData_run env w). cbv zeta.
  destruct (read_outcome env (Store.rows (Store.subscribers (db w))) _); [ | reflexivity].
  destruct (read_outcome env (Store.rows (Store.articles (db w))) _); [ | reflexivity].
  destruct (read_outcome env (Store.rows (Store.sent_emails (db w))) _); reflexivity.
Qed.



End Subscribers.

(** ** The end-to-end scenario, run

    A sign-up, a publication, the dispatch it spawned, then the
    statistics: every reply is 200, one message went to the subscriber,
    and the statistics show one sent-record, of subscriber 1 for
    article 1.  Run with foreign keys enforced. *)

Example end_to_end :
  let env := Demo.with_foreign_keys Demo.env in
  let steps := [Handle (Demo.post "/api/subscribe" Demo.subscribe_body);
                Handle (Demo.post "/api/publish" Demo.publish_body);
                RunTask;
                Handle (mkRequest "GET" "/api/stats" "")] in
  let w := exec (run env steps) Demo.start in
  map (option_map Status) (value (run env steps) Demo.start)
  = [Some 200; Some 200; None; Some 200] /\
  map To (delivered (trace w)) = ["ann@x.com"] /\
  Store.rows (Store.sent_emails (db w)) = [SentEmail.mk 1 1 1 "2024-05-01 10:00:00"] /\
  option_map (fun resp => json_get "sent_email_count" (json_of resp))
             (last (value (run env steps) Demo.start) None)
  = Some (Some (JInt 1)).
Proof. repeat split; reflexivity. Qed.

(** * The specification's claims *)

(** C1.  One subscriber, an article that is in the store, no sent-record
    for the pair yet, the store answering and the mail going out.  The
    first dispatch delivers one message, to the subscriber, and leaves
    one sent-record for the pair.  The second dispatch reads the article
    and the subscribers, finds that record in its look-up and stops
    there: it does not call sendEmail and writes nothing, so there is
    still exactly one sent-record for the pair. *)
Theorem dispatch_idempotent (env : Env) (w : World) (aid : Z) (a : Article.t) (s : Subscriber.t) :
  (forall n, sql_fault env n = None) ->
  (forall sub art w', value (sendEmail env sub art) w' = true) ->
  find (fun x => Article.ID x =? aid) (Store.rows (Store.articles (db w))) = Some a ->
  Store.rows (Store.subscribers (db w)) = [s] ->
  Store.count_sent (Subscriber.ID s) aid (db w) = 0 ->
  let w1 := exec (sendNewsletterForArticle env aid) w in
  let w2 := exec (sendNewsletterForArticle env aid) w1 in
  (exists m, delivered (since w w1) = [m] /\ To m = Subscriber.Email s) /\
  inserts (since w w1) = [(Subscriber.ID s, aid)] /\
  Store.count_sent (Subscriber.ID s) aid (db w1) = 1 /\
  since w1 w2 = [Log "sending blog post"; Sql (Store.SelectArticle aid);
                 Sql Store.SelectSubscribers;
                 Sql (Store.CountSentEmails (Subscriber.ID s) aid)] /\
  attempts (since w1 w2) = 0%nat /\
  db w2 = db w1 /\
  Store.count_sent (Subscriber.ID s) aid (db w2) = 1.
Proof.
  intros H0 Hmail Ha Hs Hc. cbv zeta.
  set (s' := Store.id_email_name s).
  assert (One : forall v, Store.rows (Store.subscribers (db v)) = [s] ->
                  find (fun x => Article.ID x =? aid) (Store.rows (Store.articles (db v))) = Some a ->
                  exec (sendNewsletterForArticle env aid) v
                  = exec (forSubscriber env a aid s') (loop_entry aid v)).
  { intros v Hv Hav.
    rewrite (dispatch_enters_loop env aid a v (H0 _) (H0 _) Hav), Hv.
    simpl map. simpl forEach. rewrite exec_bind. reflexivity. }
  (* the first run *)
  rewrite (One w Hs Ha).
  set (w0 := loop_entry aid w).
  assert (R : value (hasReceivedArticle env (Subscriber.ID s') aid) w0 = false).
  { rewrite (value_of _ _ _ _ (hasReceivedArticle_answered env _ aid w0 (H0 _))).
    change (db w0) with (db w). change (Subscriber.ID s') with (Subscriber.ID s).
    rewrite Hc. reflexivity. }
  assert (FK : (foreign_keys env
                && negb (Store.has_subscriber (Subscriber.ID s') (db w0)
                         && Store.has_article aid (db w0)))%bool = false).
  { apply (references_hold env aid a s (db w) Ha). rewrite Hs. left. reflexivity. }
  destruct (forSubscriber_records env a aid s' w0 R (Hmail _ _ _) (H0 _) FK)
    as (D1 & K1 & L1 & m & d & T1 & M1 & Hm & I1).
  set (w1 := exec (forSubscriber env a aid s') w0) in *.
  change (db w0) with (db w) in D1.
  change (Subscriber.ID s') with (Subscriber.ID s) in *.
  assert (S1 : since w w1 = [Log "sending blog post"; Sql (Store.SelectArticle aid);
                             Sql Store.SelectSubscribers] ++ d).
  { apply since_app. rewrite T1. unfold w0, loop_entry; simpl.
    rewrite <- app_assoc. reflexivity. }
  assert (C1 : Store.count_sent (Subscriber.ID s) aid (db w1) = 1).
  { rewrite D1, count_sent_recorded, Hc. reflexivity. }
  (* the second run *)
  assert (Hs1 : Store.rows (Store.subscribers (db w1)) = [s]) by (rewrite D1; exact Hs).
  assert (Ha1 : find (fun x => Article.ID x =? aid) (Store.rows (Store.articles (db w1)))
                = Some a) by (rewrite D1; exact Ha).
  rewrite (One w1 Hs1 Ha1).
  rewrite (forSubscriber_skips env a aid s' (loop_entry aid w1) (H0 _));
    [ | change (Subscriber.ID s') with (Subscriber.ID s);
        change (db (loop_entry aid w1)) with (db w1); rewrite C1; reflexivity ].
  change (Subscriber.ID s') with (Subscriber.ID s).
  assert (S2 : since w1 (issued (Store.CountSentEmails (Subscriber.ID s) aid)
                                (loop_entry aid w1))
               = [Log "sending blog post"; Sql (Store.SelectArticle aid);
                  Sql Store.SelectSubscribers;
                  Sql (Store.CountSentEmails (Subscriber.ID s) aid)]).
  { apply since_app. unfold issued, loop_entry; simpl.
    rewrite <- app_assoc. reflexivity. }
  rewrite S1, S2. simpl. rewrite M1, I1.
  split; [exists m; split; [reflexivity | exact Hm] | ].
  repeat split; try reflexivity; exact C1.
Qed.

Lemma dispatch_idempotent_witness :
  let w1 := exec (sendNewsletterForArticle Demo.env 1) Demo.one_subscriber in
  let w2 := exec (sendNewsletterForArticle Demo.env 1) w1 in
  Store.count_sent 1 1 (db w1) = 1 /\
  attempts (since w1 w2) = 0%nat /\
  Store.count_sent 1 1 (db w2) = 1.
Proof.
  destruct (dispatch_idempotent Demo.env Demo.one_subscriber 1 Demo.hi Demo.ann
              (fun _ => eq_refl) (fun _ _ _ => eq_refl) eq_refl eq_refl eq_refl)
    as (_ & _ & H1 & _ & H2 & _ & H3).
  cbv zeta. repeat split; assumption.
Defined.

(** C2.  A dispatch whose article and subscribers were read, with a
    subscriber [s] somewhere in the table, unsent when its turn comes and
    whose sendEmail returns false.  The look-ups of the run are those of
    the table's rows, one each and in the table's order; the turn of [s]
    calls sendEmail once, issues no INSERT, delivers nothing and changes
    no table; the run then goes on with the rows after [s], by the same
    loop body, which calls sendEmail exactly once for whoever its look-up
    says unsent. *)
Theorem dispatch_send_failure_isolated
    (env : Env) (w : World) (aid : Z) (a : Article.t)
    (pre : list Subscriber.t) (s : Subscriber.t) (post : list Subscriber.t) :
  sql_fault env (clock w) = None ->
  sql_fault env (S (clock w)) = None ->
  find (fun x => Article.ID x =? aid) (Store.rows (Store.articles (db w))) = Some a ->
  Store.rows (Store.subscribers (db w)) = pre ++ s :: post ->
  let body := forSubscriber env a aid in
  let s' := Store.id_email_name s in
  let w1 := exec (forEach (map Store.id_email_name pre) body) (loop_entry aid w) in
  value (hasReceivedArticle env (Subscriber.ID s) aid) w1 = false ->
  value (sendEmail env s' a) (exec (hasReceivedArticle env (Subscriber.ID s) aid) w1) = false ->
  let w2 := exec (body s') w1 in
  let wend := exec (sendNewsletterForArticle env aid) w in
  checks (since w wend) = map (fun x => (Subscriber.ID x, aid)) (pre ++ s :: post) /\
  (attempts (since w wend) <= List.length (pre ++ s :: post))%nat /\
  db w2 = db w1 /\
  attempts (since w1 w2) = 1%nat /\
  inserts (since w1 w2) = [] /\
  delivered (since w1 w2) = [] /\
  wend = exec (forEach (map Store.id_email_name post) body) w2 /\
  (forall x v, value (hasReceivedArticle env (Subscriber.ID x) aid) v = false ->
               attempts (since v (exec (body x) v)) = 1%nat).
Proof.
  intros F0 F1 Ha Hs. cbv zeta. intros R S.
  set (w0 := loop_entry aid w) in *.
  set (w1 := exec (forEach (map Store.id_email_name pre) (forSubscriber env a aid)) w0) in *.
  assert (E : exec (sendNewsletterForArticle env aid) w
              = exec (forEach (map Store.id_email_name (pre ++ s :: post))
                              (forSubscriber env a aid)) w0).
  { rewrite (dispatch_enters_loop env aid a w F0 F1 Ha), Hs. reflexivity. }
  (* the whole run *)
  destruct (forEach_footprint env a aid (map Store.id_email_name (pre ++ s :: post)) w0)
    as (_ & d & T & C & _ & A).
  rewrite <- E in T.
  assert (Sw : since w (exec (sendNewsletterForArticle env aid) w)
               = [Log "sending blog post"; Sql (Store.SelectArticle aid);
                  Sql Store.SelectSubscribers] ++ d).
  { apply since_app. rewrite T. unfold w0, loop_entry; simpl.
    rewrite <- app_assoc. reflexivity. }
  rewrite Sw. simpl checks. simpl attempts.
  split; [rewrite C, map_map; reflexivity | ].
  split; [rewrite length_map in A; exact A | ].
  (* the turn of s *)
  destruct (forSubscriber_footprint env a aid (Store.id_email_name s) w1)
    as (_ & ds & Ts & _ & _ & As & Is & Ds).
  cbv zeta in As, Is.
  change (Subscriber.ID (Store.id_email_name s)) with (Subscriber.ID s) in *.
  rewrite R in As, Is. rewrite S in Is.
  destruct (Ds Is) as (Db & Ms).
  rewrite (since_app w1 _ ds Ts).
  repeat (split; [assumption | ]).
  split.
  - rewrite E, map_app. simpl map. rewrite forEach_app. simpl forEach at 1.
    rewrite exec_bind. reflexivity.
  - intros x v Rx.
    destruct (forSubscriber_footprint env a aid x v) as (_ & dx & Tx & _ & _ & Ax & _).
    cbv zeta in Ax. rewrite Rx in Ax.
    rewrite (since_app v _ dx Tx). exact Ax.
Qed.

Lemma dispatch_send_failure_isolated_witness :
  let env := Demo.with_relay_down 8 Demo.env in
  let wend := exec (sendNewsletterForArticle env 1) Demo.three_subscribers in
  checks (since Demo.three_subscribers wend) = [(1, 1); (2, 1); (3, 1)] /\
  inserts (since Demo.three_subscribers wend) = [(1, 1); (3, 1)] /\
  map To (delivered (since Demo.three_subscribers wend)) = ["ann@x.com"; "cyd@x.com"].
Proof.
  cbv zeta. split; [ | split; reflexivity ].
  exact (proj1 (dispatch_send_failure_isolated
                  (Demo.with_relay_down 8 Demo.env) Demo.three_subscribers 1 Demo.hi
                  [Demo.ann] Demo.bob [Demo.cyd]
                  eq_refl eq_refl eq_refl eq_refl eq_refl eq_refl)).
Defined.

(** C3.  POST /api/send-newsletter for an article id that is not in the
    store: the handler answers 200 and queues the dispatch; the dispatch
    logs the failed look-up and returns.  It does not read the
    subscribers, calls sendEmail for nobody, issues no INSERT, and the
    tables are those the request found. *)
Theorem dispatch_unknown_article (env : Env) (w : World) (r : Request) (aid : Z) :
  Method r = MethodPost ->
  decode_article_id env (Body r) = Ok aid ->
  Store.has_article aid (db w) = false ->
  tasks w = [] ->
  let resp := value (handleSendNewsletter env r) w in
  let w1 := exec (handleSendNewsletter env r) w in
  let w2 := exec (run_task env) w1 in
  resp = write_ok "Newsletter sending triggered" /\ Status resp = 200 /\
  db w1 = db w /\ tasks w1 = [aid] /\
  db w2 = db w /\ tasks w2 = [] /\
  (exists e, since w1 w2 = [Log "sending blog post"; Sql (Store.SelectArticle aid);
                            Log ("Error getting article: " ++ e)]) /\
  fetched_subscribers (since w1 w2) = false /\
  attempts (since w1 w2) = 0%nat /\
  delivered (since w1 w2) = [] /\
  inserts (since w1 w2) = [].
Proof.
  intros HM HD HA HT. cbv zeta.
  assert (E : handleSendNewsletter env r w
              = (write_ok "Newsletter sending triggered",
                 mkWorld (db w) (clock w) (trace w ++ [Go aid]) [aid])).
  { unfold handleSendNewsletter. rewrite (method_post r HM), HD. simpl.
    unfold bind, spawn, ret. rewrite HT. reflexivity. }
  rewrite (value_of _ _ _ _ E), (exec_of _ _ _ _ E).
  set (w1 := mkWorld (db w) (clock w) (trace w ++ [Go aid]) [aid]).
  set (w1' := mkWorld (db w) (clock w) (trace w ++ [Go aid]) []).
  assert (R : exec (run_task env) w1 = exec (sendNewsletterForArticle env aid) w1')
    by reflexivity.
  destruct (getArticle_missing env aid
              (exec (log "sending blog post") w1') HA) as [e Ge].
  assert (W2 : exec (run_task env) w1
               = mkWorld (db w) (S (clock w))
                   (trace w1 ++ [Log "sending blog post"; Sql (Store.SelectArticle aid);
                                 Log ("Error getting article: " ++ e)]) []).
  { rewrite R. unfold sendNewsletterForArticle.
    rewrite exec_bind, exec_bind.
    rewrite (value_of _ _ _ _ Ge), (exec_of _ _ _ _ Ge).
    unfold exec, log, emit, issued; simpl.
    rewrite <- !app_assoc. reflexivity. }
  assert (S12 : since w1 (exec (run_task env) w1)
                = [Log "sending blog post"; Sql (Store.SelectArticle aid);
                   Log ("Error getting article: " ++ e)]).
  { apply since_app. rewrite W2. reflexivity. }
  rewrite S12. rewrite W2. simpl.
  repeat (split; [reflexivity | ]).
  split; [exists e; reflexivity | ].
  repeat split; reflexivity.
Qed.

Lemma dispatch_unknown_article_witness :
  let r := Demo.post "/api/send-newsletter" Demo.send_body in
  let w1 := exec (handleSendNewsletter Demo.env r) Demo.one_subscriber in
  let w2 := exec (run_task Demo.env) w1 in
  Status (value (handleSendNewsletter Demo.env r) Demo.one_subscriber) = 200 /\
  db w2 = db Demo.one_subscriber /\
  delivered (since w1 w2) = [] /\
  inserts (since w1 w2) = [].
Proof.
  destruct (dispatch_unknown_article Demo.env Demo.one_subscriber
              (Demo.post "/api/send-newsletter" Demo.send_body) 7
              eq_refl eq_refl eq_refl eq_refl)
    as (_ & H1 & _ & _ & H2 & _ & _ & _ & _ & H3 & H4).
  cbv zeta. repeat split; assumption.
Defined.

(** C4.  GET /api/stats on a store with N subscribers, M articles and K
    sent-records, the three reads succeeding: the reply is 200,
    application/json, a JSON object whose three counts are N, M and K
    and whose three lists hold, in table order, one object per stored
    row with the row's values under the keys of the struct tags; read
    back by those keys the lists are the stored rows.  Each count is the
    length of its list, and the store is not changed. *)
Theorem stats_aggregate (env : Env) (w : World) (r : Request) (N M K : nat) :
  sql_fault env (clock w) = None ->
  sql_fault env (S (clock w)) = None ->
  sql_fault env (S (S (clock w))) = None ->
  List.length (Store.rows (Store.subscribers (db w))) = N ->
  List.length (Store.rows (Store.articles (db w))) = M ->
  List.length (Store.rows (Store.sent_emails (db w))) = K ->
  let resp := value (handleGetAllData env r) w in
  let j := json_of resp in
  Status resp = 200 /\
  Header resp = [("Content-Type", "application/json")] /\
  Content resp = Json j /\
  json_get "subscriber_count" j = Some (JInt (Z.of_nat N)) /\
  json_get "article_count" j = Some (JInt (Z.of_nat M)) /\
  json_get "sent_email_count" j = Some (JInt (Z.of_nat K)) /\
  option_map json_items (json_get "subscribers" j)
    = Some (map (fun s => JObj [("id", JInt (Subscriber.ID s));
                                ("email", JStr (Subscriber.Email s));
                                ("name", JStr (Subscriber.Name s));
                                ("subscribed_at", JStr (Subscriber.SubscribedAt s))])
                (Store.rows (Store.subscribers (db w)))) /\
  option_map json_items (json_get "articles" j)
    = Some (map (fun a => JObj [("id", JInt (Article.ID a));
                                ("title", JStr (Article.Title a));
                                ("content", JStr (Article.Content a));
                                ("published_at", JStr (Article.PublishedAt a))])
                (Store.rows (Store.articles (db w)))) /\
  option_map json_items (json_get "sent_emails" j)
    = Some (map (fun e => JObj [("id", JInt (SentEmail.ID e));
                                ("subscriber_id", JInt (SentEmail.SubscriberID e));
                                ("article_id", JInt (SentEmail.ArticleID e));
                                ("sent_at", JStr (SentEmail.SentAt e))])
                (Store.rows (Store.sent_emails (db w)))) /\
  option_map (fun v => map read_Subscriber (json_items v)) (json_get "subscribers" j)
    = Some (map Some (Store.rows (Store.subscribers (db w)))) /\
  option_map (fun v => map read_Article (json_items v)) (json_get "articles" j)
    = Some (map Some (Store.rows (Store.articles (db w)))) /\
  option_map (fun v => map read_SentEmail (json_items v)) (json_get "sent_emails" j)
    = Some (map Some (Store.rows (Store.sent_emails (db w)))) /\
  option_map (fun v => List.length (json_items v)) (json_get "subscribers" j) = Some N /\
  option_map (fun v => List.length (json_items v)) (json_get "articles" j) = Some M /\
  option_map (fun v => List.length (json_items v)) (json_get "sent_emails" j) = Some K /\
  db (exec (handleGetAllData env r) w) = db w.
Proof.
  intros F0 F1 F2 HN HM HK. cbv zeta.
  assert (E : handleGetAllData env r w
              = (mkResponse StatusOK [("Content-Type", "application/json")]
                   (Json (json_AllData
                            (AllData.mk (Store.rows (Store.subscribers (db w)))
                                        (len (Store.rows (Store.subscribers (db w))))
                                        (Store.rows (Store.articles (db w)))
                                        (len (Store.rows (Store.articles (db w))))
                                        (Store.rows (Store.sent_emails (db w)))
                                        (len (Store.rows (Store.sent_emails (db w))))))),
                 mkWorld (db w) (S (S (S (clock w))))
                   (trace w ++ [Sql Store.SelectAllSubscribers; Sql Store.SelectAllArticles;
                                Sql Store.SelectAllSentEmails])
                   (tasks w))).
  { unfold handleGetAllData. rewrite bind_run. unfold value, exec.
    rewrite (getAllData_run env w). cbv zeta.
    unfold read_outcome, issued; simpl. rewrite F0, F1, F2. simpl.
    rewrite <- !app_assoc. reflexivity. }
  rewrite (value_of _ _ _ _ E), (exec_of _ _ _ _ E).
  unfold json_of, len; simpl. rewrite HN, HM, HK.
  repeat (split; [reflexivity | ]).
  assert (L : forall A (enc : A -> JSON) (l : list A),
              json_items (json_slice enc l) = map enc l)
    by (intros A enc [|x l]; reflexivity).
  rewrite !L, !length_map, !map_map, HN, HM, HK.
  repeat (split; [reflexivity | ]).
  split; [f_equal; apply map_ext; intros []; reflexivity | ].
  split; [f_equal; apply map_ext; intros []; reflexivity | ].
  split; [f_equal; apply map_ext; intros []; reflexivity | ].
  repeat split; reflexivity.
Qed.

Lemma stats_aggregate_witness :
  let resp := value (handleGetAllData Demo.env (mkRequest "GET" "/api/stats" ""))
                    Demo.three_subscribers in
  json_get "subscriber_count" (json_of resp) = Some (JInt 3) /\
  json_get "article_count" (json_of resp) = Some (JInt 1) /\
  json_get "sent_email_count" (json_of resp) = Some (JInt 0) /\
  json_get "sent_emails" (json_of resp) = Some JNull /\
  option_map (fun v => map read_Subscriber (json_items v))
             (json_get "subscribers" (json_of resp))
  = Some [Some Demo.ann; Some Demo.bob; Some Demo.cyd] /\
  option_map json_items (json_get "articles" (json_of resp))
  = Some [JObj [("id", JInt 1); ("title", JStr "Hi"); ("content", JStr "Body");
                ("published_at", JStr "2024-05-01 10:00:00")]].
Proof.
  destruct (stats_aggregate Demo.env Demo.three_subscribers
              (mkRequest "GET" "/api/stats" "") 3 1 0
              eq_refl eq_refl eq_refl eq_refl eq_refl eq_refl)
    as (_ & _ & _ & H1 & H2 & H3 & _ & H5 & _ & H4 & _).
  cbv zeta. repeat split; try assumption; reflexivity.
Defined.

(** C5.  A body on which Decoder.Decode returns an error: each of the
    three POST routes answers 400 with the decoder's message and returns
    the world it was given -- no statement reached the store, no
    dispatch was spawned.  Decode returns a syntax error on every body
    that does not begin with a complete JSON value (readValue finds
    none); the text after a first value is not read. *)
Theorem malformed_body_rejected (env : Env) (w : World) (r : Request) :
  Method r = MethodPost ->
  (forall e, Path r = "/api/subscribe" -> decode_subscriber env (Body r) = Err e ->
             serve env r w = (http_Error e StatusBadRequest, w)) /\
  (forall e, Path r = "/api/publish" -> decode_article env (Body r) = Err e ->
             serve env r w = (http_Error e StatusBadRequest, w)) /\
  (forall e, Path r = "/api/send-newsletter" -> decode_article_id env (Body r) = Err e ->
             serve env r w = (http_Error e StatusBadRequest, w)) /\
  (forall syntax_error base,
     env = Decoder.decoding syntax_error base ->
     Decoder.readValue (Body r) = None ->
     Path r = "/api/subscribe" \/ Path r = "/api/publish" \/ Path r = "/api/send-newsletter" ->
     serve env r w = (http_Error (syntax_error (Body r)) StatusBadRequest, w)).
Proof.
  intros HM.
  assert (A : forall e, Path r = "/api/subscribe" -> decode_subscriber env (Body r) = Err e ->
                        serve env r w = (http_Error e StatusBadRequest, w)).
  { intros e HP HD. unfold serve; rewrite HP; simpl.
    unfold handleSubscribe. rewrite (method_post r HM), HD. reflexivity. }
  assert (B : forall e, Path r = "/api/publish" -> decode_article env (Body r) = Err e ->
                        serve env r w = (http_Error e StatusBadRequest, w)).
  { intros e HP HD. unfold serve; rewrite HP; simpl.
    unfold handlePublish. rewrite (method_post r HM), HD. reflexivity. }
  assert (C : forall e, Path r = "/api/send-newsletter" ->
                        decode_article_id env (Body r) = Err e ->
                        serve env r w = (http_Error e StatusBadRequest, w)).
  { intros e HP HD. unfold serve; rewrite HP; simpl.
    unfold handleSendNewsletter. rewrite (method_post r HM), HD. reflexivity. }
  repeat split; try assumption.
  intros syntax_error base E N [HP | [HP | HP]].
  - apply A; [exact HP | ]. rewrite E. simpl. unfold Decoder.Decode. rewrite N. reflexivity.
  - apply B; [exact HP | ]. rewrite E. simpl. unfold Decoder.Decode. rewrite N. reflexivity.
  - apply C; [exact HP | ]. rewrite E. simpl. unfold Decoder.Decode. rewrite N. reflexivity.
Qed.

Lemma malformed_body_rejected_witness :
  serve Demo.env (Demo.post "/api/subscribe" Demo.broken_body) Demo.one_subscriber
  = (http_Error "unexpected EOF" 400, Demo.one_subscriber) /\
  serve Demo.env (Demo.post "/api/publish" Demo.broken_body) Demo.one_subscriber
  = (http_Error "unexpected EOF" 400, Demo.one_subscriber) /\
  serve Demo.env (Demo.post "/api/send-newsletter" Demo.broken_body) Demo.one_subscriber
  = (http_Error "unexpected EOF" 400, Demo.one_subscriber) /\
  Decoder.readValue Demo.broken_body = None /\
  serve (Decoder.decoding (fun _ => "unexpected EOF") Demo.env)
        (Demo.post "/api/publish" Demo.broken_body) Demo.one_subscriber
  = (http_Error "unexpected EOF" 400, Demo.one_subscriber).
Proof.
  split; [ | split; [ | split; [ | split ] ] ].
  - exact (proj1 (malformed_body_rejected Demo.env Demo.one_subscriber
                    (Demo.post "/api/subscribe" Demo.broken_body) eq_refl)
                 "unexpected EOF" eq_refl eq_refl).
  - exact (proj1 (proj2 (malformed_body_rejected Demo.env Demo.one_subscriber
                           (Demo.post "/api/publish" Demo.broken_body) eq_refl))
                 "unexpected EOF" eq_refl eq_refl).
  - exact (proj1 (proj2 (proj2 (malformed_body_rejected Demo.env Demo.one_subscriber
                           (Demo.post "/api/send-newsletter" Demo.broken_body) eq_refl)))
                 "unexpected EOF" eq_refl eq_refl).
  - reflexivity.
  - exact (proj2 (proj2 (proj2 (malformed_body_rejected
                                  (Decoder.decoding (fun _ => "unexpected EOF") Demo.env)
                                  Demo.one_subscriber
                                  (Demo.post "/api/publish" Demo.broken_body) eq_refl)))
                 (fun _ => "unexpected EOF") Demo.env eq_refl eq_refl
                 (or_intror (or_introl eq_refl))).
Defined.

(** C5 as stated does not hold.  The body
    {"email":"ann@x.com","name":"Ann"}] is not valid JSON, yet
    Decoder.Decode reads the object, never looks at the bracket after
    it, and the sign-up is accepted: the reply is 200 and the
    subscribers table has a new row. *)
Lemma invalid_json_accepted :
  let env := Decoder.decoding (fun _ => "unexpected EOF") Demo.env in
  let r := Demo.post "/api/subscribe" Demo.trailing_body in
  Decoder.Valid (Body r) = false /\
  Decoder.readValue (Body r) = Some (String.length Demo.subscribe_body) /\
  value (serve env r) Demo.start = write_ok "Subscribed successfully" /\
  Store.rows (Store.subscribers (db (exec (serve env r) Demo.start))) = [Demo.ann] /\
  ~ invalid_json_rejected.
Proof.
  cbv zeta. repeat split; try reflexivity.
  intros H.
  destruct (H (fun _ => "unexpected EOF") Demo.env Demo.start
              (Demo.post "/api/subscribe" Demo.trailing_body)
              eq_refl (or_introl eq_refl) eq_refl) as [S _].
  vm_compute in S. discriminate S.
Qed.

(** C6.  A sign-up whose email is already in the subscribers table: the
    INSERT fails, on the UNIQUE constraint when the driver itself did
    not fail first; the handler answers 500 and no table has changed. *)
Theorem duplicate_email_rejected (env : Env) (w : World) (r : Request) (sub : Subscriber.t) :
  Method r = MethodPost ->
  decode_subscriber env (Body r) = Ok sub ->
  Store.has_email (Subscriber.Email sub) (db w) = true ->
  let insert := sql env (Store.InsertSubscriber (Subscriber.Email sub) (Subscriber.Name sub)) in
  (exists e, value insert w = Err e /\
             (sql_fault env (clock w) = None ->
              e = "UNIQUE constraint failed: subscribers.email")) /\
  Status (value (handleSubscribe env r) w) = 500 /\
  db (exec (handleSubscribe env r) w) = db w.
Proof.
  intros HM HD HE. cbv zeta.
  set (q := Store.InsertSubscriber (Subscriber.Email sub) (Subscriber.Name sub)).
  assert (S : exists e, sql env q w = (Err e, issued q w) /\
                        (sql_fault env (clock w) = None ->
                         e = "UNIQUE constraint failed: subscribers.email")).
  { destruct (sql_fault env (clock w)) as [e|] eqn:F.
    - exists e. split; [apply (sql_faulty env q w e F) | discriminate].
    - exists "UNIQUE constraint failed: subscribers.email". split; [ | reflexivity ].
      apply (sql_rejected env q w); [exact F | ]. simpl. rewrite HE. reflexivity. }
  destruct S as (e & S & He).
  split; [exists e; split; [exact (value_of _ _ _ _ S) | exact He] | ].
  unfold handleSubscribe. rewrite (method_post r HM), HD. simpl.
  rewrite value_bind, exec_bind.
  assert (V : value (sql env (Store.InsertSubscriber (Subscriber.Email sub)
                                                      (Subscriber.Name sub))) w = Err e)
    by exact (value_of _ _ _ _ S).
  assert (X : exec (sql env (Store.InsertSubscriber (Subscriber.Email sub)
                                                     (Subscriber.Name sub))) w = issued q w)
    by exact (exec_of _ _ _ _ S).
  cbn [Store.answer] in V, X. rewrite V, X.
  split; reflexivity.
Qed.

Lemma duplicate_email_rejected_witness :
  Status (value (handleSubscribe Demo.env (Demo.post "/api/subscribe" Demo.subscribe_body))
                Demo.one_subscriber) = 500 /\
  db (exec (handleSubscribe Demo.env (Demo.post "/api/subscribe" Demo.subscribe_body))
           Demo.one_subscriber) = db Demo.one_subscriber.
Proof.
  apply (duplicate_email_rejected Demo.env Demo.one_subscriber
           (Demo.post "/api/subscribe" Demo.subscribe_body)
           (Subscriber.mk 0 "ann@x.com" "Ann" "") eq_refl eq_refl eq_refl).
Defined.

(** C7, as the specification states it, fails: the sign-up handler
    answers a rejected duplicate with the text "Error subscribing", in
    which the store's "UNIQUE constraint failed: subscribers.email" does
    not occur; the publication handler answers a failed INSERT with
    "Error publishing article", whatever the driver reported. *)
Lemma store_error_not_exposed :
  ~ subscribe_exposes_store_error /\ ~ publish_exposes_store_error.
Proof.
  split; intros H.
  - destruct (H Demo.env Demo.one_subscriber
                (Demo.post "/api/subscribe" Demo.subscribe_body)
                (Subscriber.mk 0 "ann@x.com" "Ann" "")
                "UNIQUE constraint failed: subscribers.email"
                eq_refl eq_refl eq_refl) as [_ C].
    vm_compute in C. discriminate C.
  - destruct (H (Demo.with_sql_fault 0 "database is locked" Demo.env) Demo.one_subscriber
                (Demo.post "/api/publish" Demo.publish_body)
                (Article.mk 0 "Hi" "Body" "")
                "database is locked"
                eq_refl eq_refl eq_refl) as [_ C].
    vm_compute in C. discriminate C.
Qed.

(** C7, amended.  When the INSERT of a sign-up or of a publication
    fails, the handler answers 500 with a fixed text of its own, "Error
    subscribing" or "Error publishing article", the same for every store
    error; no table changes and no dispatch is spawned. *)
Theorem store_error_hidden (env : Env) (w : World) (r : Request) :
  Method r = MethodPost ->
  (forall sub e,
     decode_subscriber env (Body r) = Ok sub ->
     value (sql env (Store.InsertSubscriber (Subscriber.Email sub) (Subscriber.Name sub))) w
       = Err e ->
     value (handleSubscribe env r) w
       = http_Error "Error subscribing" StatusInternalServerError /\
     db (exec (handleSubscribe env r) w) = db w /\
     tasks (exec (handleSubscribe env r) w) = tasks w) /\
  (forall article e,
     decode_article env (Body r) = Ok article ->
     value (sql env (Store.InsertArticle (Article.Title article) (Article.Content article))) w
       = Err e ->
     value (handlePublish env r) w
       = http_Error "Error publishing article" StatusInternalServerError /\
     db (exec (handlePublish env r) w) = db w /\
     tasks (exec (handlePublish env r) w) = tasks w).
Proof.
  intros HM. split.
  - intros sub e HD HE.
    pose proof (sql_error_keeps_db env _ w e HE) as X.
    unfold handleSubscribe. rewrite (method_post r HM), HD. simpl.
    rewrite value_bind, exec_bind.
    cbn [Store.answer] in HE, X. rewrite HE, X.
    repeat split; reflexivity.
  - intros article e HD HE.
    pose proof (sql_error_keeps_db env _ w e HE) as X.
    unfold handlePublish. rewrite (method_post r HM), HD. simpl.
    rewrite value_bind, exec_bind.
    cbn [Store.answer] in HE, X. rewrite HE, X.
    repeat split; reflexivity.
Qed.

Lemma store_error_hidden_witness :
  value (handleSubscribe Demo.env (Demo.post "/api/subscribe" Demo.subscribe_body))
        Demo.one_subscriber
  = http_Error "Error subscribing" 500.
Proof.
  exact (proj1 (proj1 (store_error_hidden Demo.env Demo.one_subscriber
                         (Demo.post "/api/subscribe" Demo.subscribe_body) eq_refl)
                      (Subscriber.mk 0 "ann@x.com" "Ann" "")
                      "UNIQUE constraint failed: subscribers.email" eq_refl eq_refl)).
Defined.



(** C9.  The look-up fails open.  One subscriber who already has a
    sent-record for the article; in a dispatch the article and the
    subscribers are read, the COUNT query errs, the mail goes out and the
    INSERT is accepted.  hasReceivedArticle returns false on the error,
    so the subscriber is mailed again and a further sent-record is
    written: the pair ends with more than one. *)
Theorem existence_check_fails_open
    (env : Env) (w : World) (aid : Z) (a : Article.t) (s : Subscriber.t) (e : string) :
  sql_fault env (clock w) = None ->
  sql_fault env (1 + clock w) = None ->
  sql_fault env (2 + clock w) = Some e ->
  sql_fault env (5 + clock w) = None ->
  (forall sub art w', value (sendEmail env sub art) w' = true) ->
  find (fun x => Article.ID x =? aid) (Store.rows (Store.articles (db w))) = Some a ->
  Store.rows (Store.subscribers (db w)) = [s] ->
  0 < Store.count_sent (Subscriber.ID s) aid (db w) ->
  let w1 := exec (sendNewsletterForArticle env aid) w in
  hasReceivedArticle env (Subscriber.ID s) aid (loop_entry aid w)
  = (false, mkWorld (db w) (3 + clock w)
              (trace (loop_entry aid w)
               ++ [Sql (Store.CountSentEmails (Subscriber.ID s) aid);
                   Log ("Error checking sent email: " ++ e)])
              (tasks w)) /\
  (exists m, delivered (since w w1) = [m] /\ To m = Subscriber.Email s) /\
  inserts (since w w1) = [(Subscriber.ID s, aid)] /\
  Store.count_sent (Subscriber.ID s) aid (db w1)
  = Store.count_sent (Subscriber.ID s) aid (db w) + 1 /\
  1 < Store.count_sent (Subscriber.ID s) aid (db w1).
Proof.
  intros F0 F1 F2 F5 Hmail Ha Hs Hc. cbv zeta.
  set (s' := Store.id_email_name s).
  set (w0 := loop_entry aid w).
  pose proof (hasReceivedArticle_failed env (Subscriber.ID s) aid w0 e F2) as Hfail.
  split; [exact Hfail | ].
  assert (E : exec (sendNewsletterForArticle env aid) w = exec (forSubscriber env a aid s') w0).
  { rewrite (dispatch_enters_loop env aid a w F0 F1 Ha), Hs.
    simpl map. simpl forEach. rewrite exec_bind. reflexivity. }
  assert (FK : (foreign_keys env
                && negb (Store.has_subscriber (Subscriber.ID s') (db w0)
                         && Store.has_article aid (db w0)))%bool = false).
  { apply (references_hold env aid a s (db w) Ha). rewrite Hs. left. reflexivity. }
  destruct (forSubscriber_records env a aid s' w0
              (value_of _ _ _ _ Hfail) (Hmail _ _ _) F5 FK)
    as (D1 & _ & _ & m & d & T1 & M1 & Hm & I1).
  rewrite E.
  change (db w0) with (db w) in D1.
  change (Subscriber.ID s') with (Subscriber.ID s) in *.
  assert (S1 : since w (exec (forSubscriber env a aid s') w0)
               = [Log "sending blog post"; Sql (Store.SelectArticle aid);
                  Sql Store.SelectSubscribers] ++ d).
  { apply since_app. rewrite T1. unfold w0, loop_entry; simpl.
    rewrite <- app_assoc. reflexivity. }
  rewrite S1, D1, count_sent_recorded. simpl. rewrite M1, I1.
  split; [exists m; split; [reflexivity | exact Hm] | ].
  repeat split; try reflexivity. lia.
Qed.

Lemma existence_check_fails_open_witness :
  let env := Demo.with_sql_fault 2 "database is locked" Demo.env in
  let w1 := exec (sendNewsletterForArticle env 1) Demo.already_sent in
  Store.count_sent 1 1 (db Demo.already_sent) = 1 /\
  Store.count_sent 1 1 (db w1) = 1 + 1.
Proof.
  cbv zeta. split; [reflexivity | ].
  exact (proj1 (proj2 (proj2 (proj2
           (existence_check_fails_open
              (Demo.with_sql_fault 2 "database is locked" Demo.env) Demo.already_sent
              1 Demo.hi Demo.ann "database is locked"
              eq_refl eq_refl eq_refl eq_refl (fun _ _ _ => eq_refl)
              eq_refl eq_refl eq_refl))))).
Defined.

(** C10.  A lost sent-record.  The first subscriber of the table is
    unsent and gets the mail, and the INSERT of the sent-record fails.
    markEmailSent logs the error and returns; the loop goes on with the
    rows that follow; at the end of the run the pair still has no
    sent-record.  A further dispatch of the same article, its article
    read, its subscribers read and its look-up answered, mails that
    subscriber again. *)
Theorem lost_record_resends
    (env : Env) (w : World) (aid : Z) (a : Article.t)
    (s : Subscriber.t) (rest : list Subscriber.t) (e : string) :
  sql_fault env (clock w) = None ->
  sql_fault env (1 + clock w) = None ->
  sql_fault env (2 + clock w) = None ->
  sql_fault env (5 + clock w) = Some e ->
  (forall sub art w', value (sendEmail env sub art) w' = true) ->
  find (fun x => Article.ID x =? aid) (Store.rows (Store.articles (db w))) = Some a ->
  Store.rows (Store.subscribers (db w)) = s :: rest ->
  ~ In (Subscriber.ID s) (map Subscriber.ID rest) ->
  Store.count_sent (Subscriber.ID s) aid (db w) = 0 ->
  let body := forSubscriber env a aid in
  let ws := exec (body (Store.id_email_name s)) (loop_entry aid w) in
  let w1 := exec (sendNewsletterForArticle env aid) w in
  sql_fault env (clock w1) = None ->
  sql_fault env (1 + clock w1) = None ->
  sql_fault env (2 + clock w1) = None ->
  let w2 := exec (sendNewsletterForArticle env aid) w1 in
  db ws = db w /\
  (exists m d, trace ws = trace (loop_entry aid w) ++ d
                          ++ [Sql (Store.InsertSentEmail (Subscriber.ID s) aid);
                              Log ("Error marking email as sent: " ++ e)] /\
               delivered d = [m] /\ To m = Subscriber.Email s) /\
  w1 = exec (forEach (map Store.id_email_name rest) body) ws /\
  Store.count_sent (Subscriber.ID s) aid (db w1) = 0 /\
  (exists m ms, delivered (since w1 w2) = m :: ms /\ To m = Subscriber.Email s).
Proof.
  intros F0 F1 F2 F5 Hmail Ha Hs Hn Hc. cbv zeta. intros G0 G1 G2.
  set (s' := Store.id_email_name s) in *.
  set (rest' := map Store.id_email_name rest) in *.
  set (w0 := loop_entry aid w) in *.
  assert (E : forall v, sql_fault env (clock v) = None -> sql_fault env (S (clock v)) = None ->
                Store.subscribers (db v) = Store.subscribers (db w) ->
                Store.articles (db v) = Store.articles (db w) ->
                exec (sendNewsletterForArticle env aid) v
                = exec (forEach rest' (forSubscriber env a aid))
                       (exec (forSubscriber env a aid s') (loop_entry aid v))).
  { intros v V0 V1 VS VA.
    rewrite (dispatch_enters_loop env aid a v V0 V1); [ | rewrite VA; exact Ha ].
    rewrite VS, Hs. simpl map. simpl forEach. rewrite exec_bind. reflexivity. }
  assert (IDs : map Subscriber.ID rest' = map Subscriber.ID rest).
  { unfold rest'. rewrite map_map. reflexivity. }
  (* the first run *)
  assert (R : value (hasReceivedArticle env (Subscriber.ID s') aid) w0 = false).
  { rewrite (value_of _ _ _ _ (hasReceivedArticle_answered env _ aid w0 F2)).
    change (db w0) with (db w). change (Subscriber.ID s') with (Subscriber.ID s).
    rewrite Hc. reflexivity. }
  destruct (forSubscriber_loses_record env a aid s' w0 e R (Hmail _ _ _) F5)
    as (Ds & _ & m & d & Ts & Ms & Hm).
  change (db w0) with (db w) in Ds.
  change (Subscriber.ID s') with (Subscriber.ID s) in *.
  rewrite (E w F0 F1 eq_refl eq_refl) in *.
  change (loop_entry aid w) with w0 in G0, G1, G2 |- *.
  set (ws := exec (forSubscriber env a aid s') w0) in *.
  destruct (forEach_db env a aid rest' ws) as (S1 & A1 & C1).
  set (w1 := exec (forEach rest' (forSubscriber env a aid)) ws) in *.
  assert (Hc1 : Store.count_sent (Subscriber.ID s) aid (db w1) = 0).
  { rewrite C1; [rewrite Ds; exact Hc | rewrite IDs; exact Hn]. }
  split; [exact Ds | ].
  split; [exists m, d; auto | ].
  split; [reflexivity | ].
  split; [exact Hc1 | ].
  (* the second run *)
  rewrite (E w1 G0 G1); [ | rewrite S1, Ds; reflexivity | rewrite A1, Ds; reflexivity ].
  set (v0 := loop_entry aid w1).
  assert (R' : value (hasReceivedArticle env (Subscriber.ID s') aid) v0 = false).
  { rewrite (value_of _ _ _ _ (hasReceivedArticle_answered env _ aid v0 G2)).
    change (db v0) with (db w1). change (Subscriber.ID s') with (Subscriber.ID s).
    rewrite Hc1. reflexivity. }
  destruct (forSubscriber_unsent_delivered env a aid s' v0 R' (Hmail _ _ _))
    as (v2 & m' & d' & E' & _ & _ & _ & T' & M' & Hm').
  destruct (markEmailSent_footprint env (Subscriber.ID s') aid v2)
    as (_ & _ & d3 & T3 & _ & _ & _ & M3 & _).
  rewrite <- E' in T3.
  destruct (forEach_footprint env a aid rest' (exec (forSubscriber env a aid s') v0))
    as (_ & dr & Tr & _).
  exists m', (delivered dr). split; [ | exact Hm' ].
  rewrite (since_app w1 _
             ([Log "sending blog post"; Sql (Store.SelectArticle aid);
               Sql Store.SelectSubscribers]
              ++ d' ++ (Sql (Store.InsertSentEmail (Subscriber.ID s') aid) :: d3) ++ dr)).
  - rewrite !delivered_app. simpl. rewrite M', M3. reflexivity.
  - rewrite Tr, T3, T'. unfold v0, loop_entry; simpl.
    rewrite <- !app_assoc. reflexivity.
Qed.

Lemma lost_record_resends_witness :
  let env := Demo.with_sql_fault 5 "database is locked" Demo.env in
  let w1 := exec (sendNewsletterForArticle env 1) Demo.three_subscribers in
  let w2 := exec (sendNewsletterForArticle env 1) w1 in
  Store.count_sent 1 1 (db w1) = 0 /\
  map To (delivered (since Demo.three_subscribers w1)) = ["ann@x.com"; "bob@x.com"; "cyd@x.com"] /\
  map To (delivered (since w1 w2)) = ["ann@x.com"].
Proof.
  cbv zeta. split; [ | split; reflexivity ].
  assert (N : ~ In (Subscriber.ID Demo.ann) (map Subscriber.ID [Demo.bob; Demo.cyd])).
  { simpl. intros [H | [H | []]]; discriminate H. }
  exact (proj1 (proj2 (proj2 (proj2
           (lost_record_resends
              (Demo.with_sql_fault 5 "database is locked" Demo.env) Demo.three_subscribers
              1 Demo.hi Demo.ann [Demo.bob; Demo.cyd] "database is locked"
              eq_refl eq_refl eq_refl eq_refl (fun _ _ _ => eq_refl)
              eq_refl eq_refl N eq_refl eq_refl eq_refl eq_refl))))).
Defined.

(** * Further properties of the program *)

(** ** Every write is an INSERT *)

Lemma grows_trans d1 d2 d3 : grows d1 d2 -> grows d2 d3 -> grows d1 d3.
Proof.
  intros G12 G23. induction G12 as [d | d1 d2 d2' I _ IH].
  - exact G23.
  - apply (grows_step d1 d2 d3 I). apply IH. exact G23.
Qed.

Lemma grows_one d d' : inserted d d' -> grows d d'.
Proof. intros I. exact (grows_step d d' d' I (grows_refl d')). Qed.

Lemma eval_grows fk ts q d a d' :
  Store.eval fk ts q d = Ok (a, d') -> grows d d'.
Proof.
  destruct q; simpl; intros H.
  - destruct (Store.has_email email d) eqn:E; [discriminate H | ].
    injection H as _ <-. apply grows_one. constructor. exact E.
  - injection H as _ <-. apply grows_one. constructor.
  - destruct (fk && negb (Store.has_subscriber subscriberID d && Store.has_article articleID d))%bool;
      [discriminate H | ].
    injection H as _ <-. apply grows_one. constructor.
  - destruct (find _ _); [ | discriminate H]. injection H as _ <-. constructor.
  - injection H as _ <-. constructor.
  - injection H as _ <-. constructor.
  - injection H as _ <-. constructor.
  - injection H as _ <-. constructor.
  - injection H as _ <-. constructor.
Qed.

Lemma growing_ret {A} (a : A) : growing (ret a).
Proof. intros w. constructor. Qed.

Lemma growing_bind {A B} (m : M A) (k : A -> M B) :
  growing m -> (forall a, growing (k a)) -> growing (bind m k).
Proof.
  intros Gm Gk w. rewrite exec_bind.
  exact (grows_trans _ _ _ (Gm w) (Gk (value m w) (exec m w))).
Qed.

Lemma growing_emit e : growing (emit e).
Proof. intros w. constructor. Qed.

Lemma growing_log line : growing (log line).
Proof. intros w. constructor. Qed.

Lemma growing_spawn aid : growing (spawn aid).
Proof. intros w. constructor. Qed.

Lemma growing_forEach {A} (l : list A) (body : A -> M unit) :
  (forall x, growing (body x)) -> growing (forEach l body).
Proof.
  intros Gb. induction l as [|x l IH]; simpl.
  - apply growing_ret.
  - apply growing_bind; [apply Gb | intros _; exact IH].
Qed.

Section Growth.

Variable env : Env.

Lemma growing_sql q : growing (sql env q).
Proof.
  intros w. unfold exec.
  destruct (sql_fault env (clock w)) as [e|] eqn:F.
  - rewrite (sql_faulty env q w e F). constructor.
  - destruct (Store.eval (foreign_keys env) (current_timestamp env (clock w)) q (db w))
      as [[a d]|e] eqn:E.
    + rewrite (sql_accepted env q w a d F E). simpl. exact (eval_grows _ _ _ _ _ _ E).
    + rewrite (sql_rejected env q w e F E). constructor.
Qed.

Lemma growing_getSubscribers : growing (getSubscribers env).
Proof.
  intros w. rewrite (exec_of _ _ _ _ (getSubscribers_run env w)). constructor.
Qed.

Lemma growing_sendEmail sub article : growing (sendEmail env sub article).
Proof.
  intros w. destruct (sendEmail_footprint env sub article w) as (D & _).
  rewrite D. constructor.
Qed.

Lemma growing_hasReceivedArticle sid aid : growing (hasReceivedArticle env sid aid).
Proof.
  intros w. destruct (hasReceivedArticle_footprint env sid aid w) as (D & _).
  rewrite D. constructor.
Qed.

Lemma growing_markEmailSent sid aid : growing (markEmailSent env sid aid).
Proof.
  unfold markEmailSent. apply growing_bind; [apply growing_sql | ].
  intros [id|e]; [apply growing_ret | apply growing_log].
Qed.

Lemma growing_forSubscriber a aid s : growing (forSubscriber env a aid s).
Proof.
  unfold forSubscriber. apply growing_bind; [apply growing_hasReceivedArticle | ].
  intros [|]; simpl; [apply growing_ret | ].
  apply growing_bind; [apply growing_sendEmail | ].
  intros [|]; [apply growing_markEmailSent | apply growing_ret].
Qed.

Lemma growing_dispatch aid : growing (sendNewsletterForArticle env aid).
Proof.
  unfold sendNewsletterForArticle.
  apply growing_bind; [apply growing_log | intros _].
  apply growing_bind; [exact (growing_sql (Store.SelectArticle aid)) | ].
  intros [a|e]; [ | apply growing_log].
  apply growing_bind; [exact growing_getSubscribers | ].
  intros [subs|e]; [ | apply growing_log].
  apply growing_forEach. intros s. apply growing_forSubscriber.
Qed.

Lemma growing_handleSubscribe r : growing (handleSubscribe env r).
Proof.
  unfold handleSubscribe.
  destruct (negb _); [apply growing_ret | ].
  destruct (decode_subscriber env (Body r)); [ | apply growing_ret].
  apply growing_bind; [apply growing_sql | ].
  intros [id|e]; apply growing_ret.
Qed.

Lemma growing_handlePublish r : growing (handlePublish env r).
Proof.
  unfold handlePublish.
  destruct (negb _); [apply growing_ret | ].
  destruct (decode_article env (Body r)); [ | apply growing_ret].
  apply growing_bind; [apply growing_sql | ].
  intros [id|e]; [ | apply growing_ret].
  apply growing_bind; [apply growing_spawn | intros _; apply growing_ret].
Qed.

Lemma growing_handleSendNewsletter r : growing (handleSendNewsletter env r).
Proof.
  intros w. rewrite handleSendNewsletter_keeps_db. constructor.
Qed.

Lemma growing_handleGetAllData r : growing (handleGetAllData env r).
Proof.
  intros w. rewrite handleGetAllData_keeps_db. constructor.
Qed.

Lemma growing_serve r : growing (serve env r).
Proof.
  unfold serve.
  destruct (Path r =? "/api/subscribe")%string; [apply growing_handleSubscribe | ].
  destruct (Path r =? "/api/publish")%string; [apply growing_handlePublish | ].
  destruct (Path r =? "/api/send-newsletter")%string; [apply growing_handleSendNewsletter | ].
  destruct (Path r =? "/api/stats")%string; [apply growing_handleGetAllData | ].
  apply growing_ret.
Qed.

Lemma growing_run_task : growing (run_task env).
Proof.
  intros w. unfold run_task, exec. destruct (tasks w) as [|aid rest]; [constructor | ].
  apply (growing_dispatch aid (mkWorld (db w) (clock w) (trace w) rest)).
Qed.

Lemma growing_step st : growing (step env st).
Proof.
  destruct st as [r|]; unfold step.
  - apply growing_bind; [apply growing_serve | intros; apply growing_ret].
  - apply growing_bind; [apply growing_run_task | intros; apply growing_ret].
Qed.

Lemma growing_run steps : growing (run env steps).
Proof.
  induction steps as [|st steps IH]; simpl.
  - apply growing_ret.
  - apply growing_bind; [apply growing_step | intros o].
    apply growing_bind; [exact IH | intros; apply growing_ret].
Qed.

End Growth.

(** ** What growth preserves *)

Lemma max_rowid_bound {R} (id : R -> Z) (t : Store.Table R) (x : Z) :
  In x (map id (Store.rows t)) -> x <= Store.max_rowid id t.
Proof.
  unfold Store.max_rowid. induction (map id (Store.rows t)) as [|y l IH]; simpl.
  - intros [].
  - intros [-> | H]; [lia | ]. specialize (IH H). lia.
Qed.

Lemma StronglySorted_snoc (l : list Z) (x : Z) :
  StronglySorted Z.lt l -> Forall (fun y => y < x) l -> StronglySorted Z.lt (l ++ [x]).
Proof.
  induction l as [|y l IH]; simpl; intros S F.
  - repeat constructor.
  - apply StronglySorted_inv in S. destruct S as [S Hy].
    apply Forall_cons_iff in F. destruct F as [Hyx F].
    constructor; [exact (IH S F) | ].
    apply Forall_app. split; [exact Hy | constructor; [exact Hyx | constructor]].
Qed.

Lemma below_next_rowid {R} (id : R -> Z) (t : Store.Table R) :
  Forall (fun y => y < Store.next_rowid id t) (map id (Store.rows t)).
Proof.
  apply Forall_forall. intros y H.
  pose proof (max_rowid_bound id t y H). unfold Store.next_rowid. lia.
Qed.

Lemma ascending_append {R} (id : R -> Z) (r : R) (t : Store.Table R) :
  id r = Store.next_rowid id t ->
  ascending id t -> ascending id (Store.append_row id r t).
Proof.
  intros E A. unfold ascending, Store.append_row; simpl.
  rewrite map_app; simpl. apply StronglySorted_snoc; [exact A | ].
  rewrite E. apply below_next_rowid.
Qed.

Lemma has_email_absent email d :
  Store.has_email email d = false ->
  ~ In email (map Subscriber.Email (Store.rows (Store.subscribers d))).
Proof.
  unfold Store.has_email. intros H I.
  apply in_map_iff in I. destruct I as (s & <- & I).
  assert (T : existsb (fun s0 => (Subscriber.Email s0 =? Subscriber.Email s)%string)
                      (Store.rows (Store.subscribers d)) = true).
  { apply existsb_exists. exists s. split; [exact I | apply String.eqb_refl]. }
  congruence.
Qed.

Lemma NoDup_snoc {A} (l : list A) (x : A) : NoDup l -> ~ In x l -> NoDup (l ++ [x]).
Proof.
  intros N I. apply NoDup_app; [exact N | repeat constructor; intros [] | ].
  intros y Hy [<- | []]. exact (I Hy).
Qed.

Lemma inserted_well_keyed d d' : inserted d d' -> well_keyed d -> well_keyed d'.
Proof.
  intros I (A1 & A2 & A3). destruct I; unfold well_keyed, recorded; simpl;
    repeat split; try assumption; apply ascending_append; auto.
Qed.

Lemma inserted_unique_emails d d' : inserted d d' -> unique_emails d -> unique_emails d'.
Proof.
  intros I U. destruct I as [d email name ts E | | ]; unfold unique_emails in *; simpl;
    try exact U.
  rewrite map_app; simpl. apply NoDup_snoc; [exact U | exact (has_email_absent email d E)].
Qed.

Lemma inserted_appends d d' :
  inserted d d' ->
  exists l1 l2 l3,
    Store.rows (Store.subscribers d') = Store.rows (Store.subscribers d) ++ l1 /\
    Store.rows (Store.articles d') = Store.rows (Store.articles d) ++ l2 /\
    Store.rows (Store.sent_emails d') = Store.rows (Store.sent_emails d) ++ l3.
Proof.
  intros I. destruct I; simpl.
  - eexists; exists [], []. repeat split; first [reflexivity | symmetry; apply app_nil_r].
  - exists []; eexists; exists []. repeat split; first [reflexivity | symmetry; apply app_nil_r].
  - exists [], []; eexists. repeat split; first [reflexivity | symmetry; apply app_nil_r].
Qed.

Lemma grows_well_keyed d d' : grows d d' -> well_keyed d -> well_keyed d'.
Proof.
  intros G. induction G as [d | d1 d2 d3 I _ IH]; intros K; [exact K | ].
  apply IH. exact (inserted_well_keyed d1 d2 I K).
Qed.

Lemma grows_unique_emails d d' : grows d d' -> unique_emails d -> unique_emails d'.
Proof.
  intros G. induction G as [d | d1 d2 d3 I _ IH]; intros U; [exact U | ].
  apply IH. exact (inserted_unique_emails d1 d2 I U).
Qed.

Lemma grows_appends d d' :
  grows d d' ->
  exists l1 l2 l3,
    Store.rows (Store.subscribers d') = Store.rows (Store.subscribers d) ++ l1 /\
    Store.rows (Store.articles d') = Store.rows (Store.articles d) ++ l2 /\
    Store.rows (Store.sent_emails d') = Store.rows (Store.sent_emails d) ++ l3.
Proof.
  intros G. induction G as [d | d1 d2 d3 I _ (m1 & m2 & m3 & H1 & H2 & H3)].
  - exists [], [], []. rewrite !app_nil_r. repeat split; reflexivity.
  - destruct (inserted_appends d1 d2 I) as (l1 & l2 & l3 & E1 & E2 & E3).
    exists (l1 ++ m1), (l2 ++ m2), (l3 ++ m3).
    rewrite H1, H2, H3, E1, E2, E3, !app_assoc. repeat split; reflexivity.
Qed.

(** X1.  The server never removes or rewrites a stored row.  Whatever
    requests it serves and whatever dispatches it runs, each table ends
    as the table it started from with rows added at the end. *)
Theorem store_is_append_only (env : Env) (steps : list Step) (w : World) :
  exists l1 l2 l3,
    Store.rows (Store.subscribers (db (exec (run env steps) w)))
    = Store.rows (Store.subscribers (db w)) ++ l1 /\
    Store.rows (Store.articles (db (exec (run env steps) w)))
    = Store.rows (Store.articles (db w)) ++ l2 /\
    Store.rows (Store.sent_emails (db (exec (run env steps) w)))
    = Store.rows (Store.sent_emails (db w)) ++ l3.
Proof. apply grows_appends. apply growing_run. Qed.

(** X2.  Rowids stay strictly increasing along each of the three tables
    over any run of the server: every INSERT takes a rowid above all
    those in its table, so a primary key is never reused and the order
    of a table is the order of its inserts. *)
Theorem rowids_stay_ascending (env : Env) (steps : list Step) (w : World) :
  well_keyed (db w) -> well_keyed (db (exec (run env steps) w)).
Proof. apply grows_well_keyed. apply growing_run. Qed.

(** X3.  No two subscribers ever share an email: if the emails of the
    table are distinct, they are distinct after any run of the server. *)
Theorem emails_stay_unique (env : Env) (steps : list Step) (w : World) :
  unique_emails (db w) -> unique_emails (db (exec (run env steps) w)).
Proof. apply grows_unique_emails. apply growing_run. Qed.

Lemma rowids_stay_ascending_witness :
  well_keyed
    (db (exec (run Demo.env
                 [Handle (Demo.post "/api/publish" Demo.publish_body); RunTask;
                  Handle (Demo.post "/api/subscribe" Demo.subscribe_body)])
              Demo.three_subscribers)).
Proof.
  apply rowids_stay_ascending.
  unfold well_keyed, ascending; simpl.
  repeat split; repeat constructor; lia.
Defined.

Lemma emails_stay_unique_witness :
  unique_emails
    (db (exec (run Demo.env
                 [Handle (Demo.post "/api/subscribe" Demo.subscribe_body);
                  Handle (Demo.post "/api/publish" Demo.publish_body); RunTask])
              Demo.three_subscribers)).
Proof.
  apply emails_stay_unique.
  unfold unique_emails; simpl.
  repeat constructor; simpl; intuition discriminate.
Defined.

(** ** The handlers, case by case *)

Section Handlers.

Variable env : Env.

Lemma not_post r : Method r <> MethodPost -> String.eqb (Method r) MethodPost = false.
Proof. intros N. apply String.eqb_neq. exact N. Qed.

(** A sign-up the store accepts. *)
Lemma handleSubscribe_accepted r w sub :
  Method r = MethodPost ->
  decode_subscriber env (Body r) = Ok sub ->
  sql_fault env (clock w) = None ->
  Store.has_email (Subscriber.Email sub) (db w) = false ->
  handleSubscribe env r w
  = (write_ok "Subscribed successfully",
     mkWorld
       (Store.mkDB
          (Store.append_row Subscriber.ID
             (Subscriber.mk (Store.next_rowid Subscriber.ID (Store.subscribers (db w)))
                            (Subscriber.Email sub) (Subscriber.Name sub)
                            (current_timestamp env (clock w)))
             (Store.subscribers (db w)))
          (Store.articles (db w)) (Store.sent_emails (db w)))
       (S (clock w))
       (trace w ++ [Sql (Store.InsertSubscriber (Subscriber.Email sub) (Subscriber.Name sub))])
       (tasks w)).
Proof.
  intros HM HD F HE. unfold handleSubscribe. rewrite (method_post r HM), HD. simpl.
  unfold sql, bind, tick, emit, ret; simpl. rewrite F; simpl. rewrite HE. reflexivity.
Qed.

(** A sign-up whose email is taken. *)
Lemma handleSubscribe_duplicate r w sub :
  Method r = MethodPost ->
  decode_subscriber env (Body r) = Ok sub ->
  Store.has_email (Subscriber.Email sub) (db w) = true ->
  handleSubscribe env r w
  = (http_Error "Error subscribing" StatusInternalServerError,
     issued (Store.InsertSubscriber (Subscriber.Email sub) (Subscriber.Name sub)) w).
Proof.
  intros HM HD HE. unfold handleSubscribe. rewrite (method_post r HM), HD. simpl.
  unfold sql, bind, tick, emit, ret, issued; simpl.
  destruct (sql_fault env (clock w)); simpl; [reflexivity | ].
  rewrite HE. reflexivity.
Qed.

(** A publication the store accepts. *)
Lemma handlePublish_accepted r w article :
  Method r = MethodPost ->
  decode_article env (Body r) = Ok article ->
  sql_fault env (clock w) = None ->
  let id := Store.next_rowid Article.ID (Store.articles (db w)) in
  handlePublish env r w
  = (write_ok "Article published successfully",
     mkWorld
       (Store.mkDB (Store.subscribers (db w))
          (Store.append_row Article.ID
             (Article.mk id (Article.Title article) (Article.Content article)
                         (current_timestamp env (clock w)))
             (Store.articles (db w)))
          (Store.sent_emails (db w)))
       (S (clock w))
       (trace w ++ [Sql (Store.InsertArticle (Article.Title article) (Article.Content article));
                    Go id])
       (tasks w ++ [id])).
Proof.
  intros HM HD F. cbv zeta. unfold handlePublish. rewrite (method_post r HM), HD. simpl.
  unfold sql, bind, tick, emit, spawn, ret; simpl. rewrite F; simpl.
  rewrite <- app_assoc. reflexivity.
Qed.

(** The row added last under a fresh rowid is the one its rowid finds. *)
Lemma find_appended (a : Article.t) (t : Store.Table Article.t) :
  Article.ID a = Store.next_rowid Article.ID t ->
  find (fun x => Article.ID x =? Article.ID a) (Store.rows (Store.append_row Article.ID a t))
  = Some a.
Proof.
  intros E. unfold Store.append_row; simpl.
  pose proof (below_next_rowid Article.ID t) as B. rewrite <- E in B.
  induction (Store.rows t) as [|x l IH]; simpl.
  - rewrite Z.eqb_refl. reflexivity.
  - simpl in B. apply Forall_cons_iff in B. destruct B as [Hx B].
    destruct (Z.eqb_spec (Article.ID x) (Article.ID a)) as [C|_]; [lia | ].
    exact (IH B).
Qed.

End Handlers.

(** X4.  A request to /api/subscribe, /api/publish or
    /api/send-newsletter whose method is not POST is answered 405
    "Method not allowed" before its body is read: the world is returned
    as it was, whatever the body holds. *)
Theorem method_not_allowed (env : Env) (r : Request) (w : World) :
  Method r <> MethodPost ->
  Path r = "/api/subscribe" \/ Path r = "/api/publish" \/ Path r = "/api/send-newsletter" ->
  serve env r w = (http_Error "Method not allowed" 405, w).
Proof.
  intros N [P | [P | P]]; unfold serve; rewrite P; simpl.
  - unfold handleSubscribe. rewrite (not_post r N). reflexivity.
  - unfold handlePublish. rewrite (not_post r N). reflexivity.
  - unfold handleSendNewsletter. rewrite (not_post r N). reflexivity.
Qed.

Lemma method_not_allowed_witness :
  serve Demo.env (mkRequest "GET" "/api/publish" Demo.publish_body) Demo.one_subscriber
  = (http_Error "Method not allowed" 405, Demo.one_subscriber).
Proof.
  apply method_not_allowed; [discriminate | right; left; reflexivity].
Defined.

(** X5.  A sign-up with a new email, the driver not failing: the reply
    is 200 "Subscribed successfully"; the subscribers table gets one row
    at its end, with the decoded email and name and a rowid above every
    rowid of the table; the other tables are untouched and no dispatch
    is spawned. *)
Theorem subscribe_accepts_new_email (env : Env) (r : Request) (w : World) (sub : Subscriber.t) :
  Method r = MethodPost ->
  decode_subscriber env (Body r) = Ok sub ->
  sql_fault env (clock w) = None ->
  Store.has_email (Subscriber.Email sub) (db w) = false ->
  let w' := exec (handleSubscribe env r) w in
  value (handleSubscribe env r) w = write_ok "Subscribed successfully" /\
  (exists id ts,
     Store.rows (Store.subscribers (db w'))
     = Store.rows (Store.subscribers (db w))
       ++ [Subscriber.mk id (Subscriber.Email sub) (Subscriber.Name sub) ts] /\
     Forall (fun s => Subscriber.ID s < id) (Store.rows (Store.subscribers (db w)))) /\
  Store.has_email (Subscriber.Email sub) (db w') = true /\
  Store.articles (db w') = Store.articles (db w) /\
  Store.sent_emails (db w') = Store.sent_emails (db w) /\
  tasks w' = tasks w.
Proof.
  intros HM HD F HE. cbv zeta.
  pose proof (handleSubscribe_accepted env r w sub HM HD F HE) as E.
  rewrite (value_of _ _ _ _ E), (exec_of _ _ _ _ E). simpl.
  split; [reflexivity | ].
  split.
  { eexists; eexists. split; [reflexivity | ].
    pose proof (below_next_rowid Subscriber.ID (Store.subscribers (db w))) as B.
    rewrite Forall_map in B. exact B. }
  split; [ | repeat split; reflexivity ].
  unfold Store.has_email; simpl. rewrite existsb_app; simpl.
  rewrite String.eqb_refl. apply orb_true_iff. right. reflexivity.
Qed.

Lemma subscribe_accepts_new_email_witness :
  Store.rows (Store.subscribers
                (db (exec (handleSubscribe Demo.env
                             (Demo.post "/api/subscribe" Demo.subscribe_body))
                          (mkWorld (Store.mkDB (Store.mkTable [Demo.bob; Demo.cyd] 3)
                                               Store.empty_table Store.empty_table) 0 [] []))))
  = [Demo.bob; Demo.cyd; Subscriber.mk 4 "ann@x.com" "Ann" "2024-05-01 10:00:00"] /\
  value (handleSubscribe Demo.env (Demo.post "/api/subscribe" Demo.subscribe_body))
        (mkWorld (Store.mkDB (Store.mkTable [Demo.bob; Demo.cyd] 3)
                             Store.empty_table Store.empty_table) 0 [] [])
  = write_ok "Subscribed successfully".
Proof.
  split; [reflexivity | ].
  exact (proj1 (subscribe_accepts_new_email Demo.env
                  (Demo.post "/api/subscribe" Demo.subscribe_body)
                  (mkWorld (Store.mkDB (Store.mkTable [Demo.bob; Demo.cyd] 3)
                                       Store.empty_table Store.empty_table) 0 [] [])
                  (Subscriber.mk 0 "ann@x.com" "Ann" "")
                  eq_refl eq_refl eq_refl eq_refl)).
Defined.

(** X6.  The same sign-up sent twice: the first is answered 200 and
    adds its row, the second is answered 500 "Error subscribing" and
    leaves the store as the first left it, so the email is in the table
    once. *)
Theorem subscribe_twice (env : Env) (r : Request) (w : World) (sub : Subscriber.t) :
  Method r = MethodPost ->
  decode_subscriber env (Body r) = Ok sub ->
  sql_fault env (clock w) = None ->
  Store.has_email (Subscriber.Email sub) (db w) = false ->
  let w1 := exec (handleSubscribe env r) w in
  let w2 := exec (handleSubscribe env r) w1 in
  Status (value (handleSubscribe env r) w) = 200 /\
  value (handleSubscribe env r) w1 = http_Error "Error subscribing" 500 /\
  db w2 = db w1 /\
  List.length (filter (fun s => String.eqb (Subscriber.Email s) (Subscriber.Email sub))
                      (Store.rows (Store.subscribers (db w2)))) = 1%nat.
Proof.
  intros HM HD F HE. cbv zeta.
  pose proof (handleSubscribe_accepted env r w sub HM HD F HE) as E1.
  rewrite (value_of _ _ _ _ E1), (exec_of _ _ _ _ E1).
  set (w1 := mkWorld _ _ _ _).
  assert (H1 : Store.has_email (Subscriber.Email sub) (db w1) = true).
  { unfold Store.has_email, w1; simpl. rewrite existsb_app; simpl.
    rewrite String.eqb_refl. apply orb_true_iff. right. reflexivity. }
  pose proof (handleSubscribe_duplicate env r w1 sub HM HD H1) as E2.
  rewrite (value_of _ _ _ _ E2), (exec_of _ _ _ _ E2).
  repeat (split; [reflexivity | ]).
  unfold issued, w1; simpl. rewrite filter_app, length_app; simpl.
  rewrite String.eqb_refl; simpl.
  assert (Z0 : filter (fun s => (Subscriber.Email s =? Subscriber.Email sub)%string)
                      (Store.rows (Store.subscribers (db w))) = []).
  { unfold Store.has_email in HE.
    induction (Store.rows (Store.subscribers (db w))) as [|x l IH]; simpl in *; [reflexivity | ].
    apply orb_false_iff in HE. destruct HE as [Hx Hl]. rewrite Hx. exact (IH Hl). }
  rewrite Z0. reflexivity.
Qed.

Lemma subscribe_twice_witness :
  let r := Demo.post "/api/subscribe" Demo.subscribe_body in
  let w1 := exec (handleSubscribe Demo.env r) Demo.start in
  value (handleSubscribe Demo.env r) w1 = http_Error "Error subscribing" 500.
Proof.
  exact (proj1 (proj2 (subscribe_twice Demo.env
                         (Demo.post "/api/subscribe" Demo.subscribe_body) Demo.start
                         (Subscriber.mk 0 "ann@x.com" "Ann" "")
                         eq_refl eq_refl eq_refl eq_refl))).
Defined.

(** X7.  A publication the store accepts is answered 200, adds the
    article at the end of its table under a rowid above all others, and
    spawns one dispatch, for that rowid.  Looking the article up by that
    rowid, as the spawned dispatch does, returns the title and content
    that were published. *)
Theorem publish_then_lookup (env : Env) (r : Request) (w : World) (article : Article.t) :
  Method r = MethodPost ->
  decode_article env (Body r) = Ok article ->
  sql_fault env (clock w) = None ->
  sql_fault env (S (clock w)) = None ->
  let id := Store.next_rowid Article.ID (Store.articles (db w)) in
  let stored := Article.mk id (Article.Title article) (Article.Content article)
                          (current_timestamp env (clock w)) in
  let w' := exec (handlePublish env r) w in
  value (handlePublish env r) w = write_ok "Article published successfully" /\
  Store.rows (Store.articles (db w')) = Store.rows (Store.articles (db w)) ++ [stored] /\
  Forall (fun a => Article.ID a < id) (Store.rows (Store.articles (db w))) /\
  tasks w' = tasks w ++ [id] /\
  Store.subscribers (db w') = Store.subscribers (db w) /\
  Store.sent_emails (db w') = Store.sent_emails (db w) /\
  value (getArticle env id) w' = Ok stored.
Proof.
  intros HM HD F0 F1. cbv zeta.
  pose proof (handlePublish_accepted env r w article HM HD F0) as E. cbv zeta in E.
  rewrite (value_of _ _ _ _ E), (exec_of _ _ _ _ E). simpl.
  split; [reflexivity | ]. split; [reflexivity | ].
  split.
  { pose proof (below_next_rowid Article.ID (Store.articles (db w))) as B.
    rewrite Forall_map in B. exact B. }
  repeat (split; [reflexivity | ]).
  set (stored := Article.mk _ _ _ _).
  set (w' := mkWorld _ _ _ _).
  apply (value_of _ _ _ _ (getArticle_found env _ stored w' F1
                             (find_appended stored (Store.articles (db w)) eq_refl))).
Qed.

Lemma publish_then_lookup_witness :
  let w' := exec (handlePublish Demo.env (Demo.post "/api/publish" Demo.publish_body))
                 Demo.one_subscriber in
  tasks w' = [2] /\
  value (getArticle Demo.env 2) w' = Ok (Article.mk 2 "Hi" "Body" "2024-05-01 10:00:00").
Proof.
  destruct (publish_then_lookup Demo.env (Demo.post "/api/publish" Demo.publish_body)
              Demo.one_subscriber (Article.mk 0 "Hi" "Body" "")
              eq_refl eq_refl eq_refl eq_refl)
    as (_ & _ & _ & H1 & _ & _ & H2).
  split; [exact H1 | exact H2].
Defined.

(** X8.  The statistics handler and a failing read.  When db.Query of
    one of the three reads returns an error, the reply is 500 with that
    error's text.  When the driver instead fails while the subscriber
    rows are stepped, rows.Next ends the loop and the error is never
    consulted: the reply is 200, the subscribers list holds only the
    rows read before the failure and subscriber_count is their number,
    not the number stored.  In no case is the store touched. *)
Theorem stats_read_failures (env : Env) (r : Request) (w : World) (e : string) :
  let resp := value (handleGetAllData env r) w in
  let j := json_of resp in
  let stored := Store.rows (Store.subscribers (db w)) in
  ((sql_fault env (clock w) = Some e /\ rows_before_fault env (clock w) = None) \/
   (sql_fault env (clock w) = None /\
    sql_fault env (S (clock w)) = Some e /\ rows_before_fault env (S (clock w)) = None) \/
   (sql_fault env (clock w) = None /\ sql_fault env (S (clock w)) = None /\
    sql_fault env (S (S (clock w))) = Some e /\
    rows_before_fault env (S (S (clock w))) = None) ->
   resp = http_Error e 500) /\
  (forall k,
     sql_fault env (clock w) = Some e -> rows_before_fault env (clock w) = Some k ->
     sql_fault env (S (clock w)) = None -> sql_fault env (S (S (clock w))) = None ->
     Status resp = 200 /\
     json_get "subscriber_count" j = Some (JInt (len (firstn k stored))) /\
     option_map (fun v => map read_Subscriber (json_items v)) (json_get "subscribers" j)
     = Some (map Some (firstn k stored)) /\
     json_get "article_count" j = Some (JInt (len (Store.rows (Store.articles (db w)))))) /\
  db (exec (handleGetAllData env r) w) = db w.
Proof.
  cbv zeta. split; [ | split; [ | apply handleGetAllData_keeps_db ] ].
  - intros H. unfold handleGetAllData. rewrite value_bind.
    unfold value, exec. rewrite (getAllData_run env w). cbv zeta. unfold read_outcome.
    destruct H as [(F0 & B0) | [(F0 & F1 & B1) | (F0 & F1 & F2 & B2)]].
    + rewrite F0, B0. reflexivity.
    + rewrite F0, F1, B1. reflexivity.
    + rewrite F0, F1, F2, B2. reflexivity.
  - intros k F0 B0 F1 F2. unfold handleGetAllData. rewrite value_bind.
    unfold value, exec. rewrite (getAllData_run env w). cbv zeta. unfold read_outcome.
    rewrite F0, B0, F1, F2. unfold json_of; simpl.
    assert (L : forall A (enc : A -> JSON) (l : list A),
                json_items (json_slice enc l) = map enc l)
      by (intros A enc [|x l]; reflexivity).
    rewrite L, map_map.
    repeat (split; [reflexivity | ]).
    split; [ | reflexivity].
    f_equal. apply map_ext. intros []. reflexivity.
Qed.

Lemma stats_read_failures_witness :
  value (handleGetAllData (Demo.with_sql_fault 1 "database is locked" Demo.env)
           (mkRequest "GET" "/api/stats" "")) Demo.three_subscribers
  = http_Error "database is locked" 500 /\
  json_get "subscriber_count"
    (json_of (value (handleGetAllData
                       (Outage.fault_while_stepping 0 "database is locked" 2 Demo.env)
                       (mkRequest "GET" "/api/stats" "")) Demo.three_subscribers))
  = Some (JInt 2).
Proof.
  split.
  - apply (proj1 (stats_read_failures (Demo.with_sql_fault 1 "database is locked" Demo.env)
                    (mkRequest "GET" "/api/stats" "") Demo.three_subscribers
                    "database is locked")).
    right; left. repeat split; reflexivity.
  - exact (proj1 (proj2 (proj1 (proj2
             (stats_read_failures
                (Outage.fault_while_stepping 0 "database is locked" 2 Demo.env)
                (mkRequest "GET" "/api/stats" "") Demo.three_subscribers
                "database is locked"))
             2%nat eq_refl eq_refl eq_refl eq_refl))).
Defined.

(** ** Dispatch over any number of subscribers *)

Section Coverage.

Variable env : Env.

Lemma count_sent_nonneg sid aid d : 0 <= Store.count_sent sid aid d.
Proof. unfold Store.count_sent, len. lia. Qed.

Lemma count_sent_recorded_other_article id sid sid' aid aid' ts d :
  aid' <> aid ->
  Store.count_sent sid aid (recorded id sid' aid' ts d) = Store.count_sent sid aid d.
Proof.
  intros N. unfold Store.count_sent, recorded, len; simpl.
  rewrite filter_app, length_app; simpl.
  unfold Store.sent_to at 2; simpl.
  destruct (Z.eqb_spec aid' aid) as [E|_]; [contradiction | ].
  rewrite andb_false_r. simpl. lia.
Qed.

(** Dispatch either stops before its loop, having written and sent
    nothing, or is its loop over rows of the subscribers table: all of
    them, or the first of them when the driver failed while they were
    stepped. *)
Lemma dispatch_cases aid w :
  (db (exec (sendNewsletterForArticle env aid) w) = db w /\
   tasks (exec (sendNewsletterForArticle env aid) w) = tasks w /\
   exists d, trace (exec (sendNewsletterForArticle env aid) w) = trace w ++ d /\
             checks d = [] /\ inserts d = [] /\ attempts d = 0%nat /\ delivered d = []) \/
  (exists a k,
     find (fun x => Article.ID x =? aid) (Store.rows (Store.articles (db w))) = Some a /\
     exec (sendNewsletterForArticle env aid) w
     = exec (forEach (firstn k (map Store.id_email_name
                                    (Store.rows (Store.subscribers (db w)))))
                     (forSubscriber env a aid))
            (loop_entry aid w)).
Proof.
  destruct (sql_fault env (clock w)) as [e|] eqn:F0.
  { left. unfold sendNewsletterForArticle, getArticle.
    unfold exec, sql, bind, tick, emit, log, ret; simpl. rewrite F0; simpl.
    repeat (split; [reflexivity | ]).
    eexists. rewrite <- !app_assoc. split; [reflexivity | ]. repeat split; reflexivity. }
  destruct (find (fun x => Article.ID x =? aid) (Store.rows (Store.articles (db w))))
    as [a|] eqn:Fa.
  2:{ left. unfold sendNewsletterForArticle, getArticle.
      unfold exec, sql, bind, tick, emit, log, ret; simpl. rewrite F0; simpl. rewrite Fa; simpl.
      repeat (split; [reflexivity | ]).
      eexists. rewrite <- !app_assoc. split; [reflexivity | ]. repeat split; reflexivity. }
  rewrite (dispatch_reads env aid a w F0 Fa). unfold read_outcome.
  destruct (sql_fault env (S (clock w))) as [e|] eqn:F1.
  - destruct (rows_before_fault env (S (clock w))) as [k|].
    + right. exists a, k. split; reflexivity.
    + left. simpl. repeat (split; [reflexivity | ]).
      eexists. split; [reflexivity | ]. repeat split; reflexivity.
  - right. exists a, (List.length (map Store.id_email_name
                                       (Store.rows (Store.subscribers (db w))))).
    rewrite firstn_all. split; reflexivity.
Qed.

(** One turn keeps "at most one sent-record per subscriber" when its
    look-up is answered. *)
Lemma forSubscriber_at_most_once a aid s w :
  sql_fault env (clock w) = None ->
  (forall sid, Store.count_sent sid aid (db w) <= 1) ->
  forall sid, Store.count_sent sid aid (db (exec (forSubscriber env a aid s) w)) <= 1.
Proof.
  intros F H sid.
  destruct (Z.ltb_spec 0 (Store.count_sent (Subscriber.ID s) aid (db w))) as [P | P].
  - rewrite (forSubscriber_skips env a aid s w F P). apply H.
  - pose proof (count_sent_nonneg (Subscriber.ID s) aid (db w)) as N.
    destruct (forSubscriber_db env a aid s w) as [E | (id & ts & E)]; rewrite E; [apply H | ].
    destruct (Z.eq_dec (Subscriber.ID s) sid) as [<- | D].
    + rewrite count_sent_recorded. lia.
    + rewrite (count_sent_recorded_other id sid (Subscriber.ID s) aid aid ts (db w) D). apply H.
Qed.

Lemma forEach_at_most_once a aid subs w :
  (forall n, sql_fault env n = None) ->
  (forall sid, Store.count_sent sid aid (db w) <= 1) ->
  forall sid,
    Store.count_sent sid aid (db (exec (forEach subs (forSubscriber env a aid)) w)) <= 1.
Proof.
  intros F. revert w. induction subs as [|s subs IH]; intros w H.
  - exact H.
  - simpl forEach. intros sid. rewrite exec_bind. apply IH.
    apply forSubscriber_at_most_once; [apply F | exact H].
Qed.

(** Sent-records are never lost in a turn. *)
Lemma forSubscriber_count_mono a aid s w sid :
  Store.count_sent sid aid (db w)
  <= Store.count_sent sid aid (db (exec (forSubscriber env a aid s) w)).
Proof.
  destruct (forSubscriber_db env a aid s w) as [E | (id & ts & E)]; rewrite E; [lia | ].
  destruct (Z.eq_dec (Subscriber.ID s) sid) as [<- | D].
  - rewrite count_sent_recorded. lia.
  - rewrite (count_sent_recorded_other id sid (Subscriber.ID s) aid aid ts (db w) D). lia.
Qed.

Lemma forEach_count_mono a aid subs w sid :
  Store.count_sent sid aid (db w)
  <= Store.count_sent sid aid (db (exec (forEach subs (forSubscriber env a aid)) w)).
Proof.
  revert w. induction subs as [|s subs IH]; intros w.
  - simpl. apply Z.le_refl.
  - simpl forEach. rewrite exec_bind.
    pose proof (forSubscriber_count_mono a aid s w sid).
    pose proof (IH (exec (forSubscriber env a aid s) w)). lia.
Qed.

(** With the store answering and the mail going out, a turn leaves its
    subscriber with a sent-record. *)
Lemma forSubscriber_covers a aid s w :
  sql_fault env (clock w) = None ->
  sql_fault env (3 + clock w) = None ->
  (forall sub art w', value (sendEmail env sub art) w' = true) ->
  Store.has_subscriber (Subscriber.ID s) (db w) = true ->
  Store.has_article aid (db w) = true ->
  1 <= Store.count_sent (Subscriber.ID s) aid (db (exec (forSubscriber env a aid s) w)).
Proof.
  intros F0 F3 Hmail HS HA.
  destruct (Z.ltb_spec 0 (Store.count_sent (Subscriber.ID s) aid (db w))) as [P | P].
  - rewrite (forSubscriber_skips env a aid s w F0 P). simpl. lia.
  - pose proof (count_sent_nonneg (Subscriber.ID s) aid (db w)) as N.
    assert (R : value (hasReceivedArticle env (Subscriber.ID s) aid) w = false).
    { rewrite (value_of _ _ _ _ (hasReceivedArticle_answered env _ aid w F0)).
      apply Z.ltb_ge. exact P. }
    assert (FK : (foreign_keys env
                  && negb (Store.has_subscriber (Subscriber.ID s) (db w)
                           && Store.has_article aid (db w)))%bool = false).
    { rewrite HS, HA. apply andb_false_r. }
    destruct (forSubscriber_records env a aid s w R (Hmail _ _ _) F3 FK) as (D & _).
    rewrite D, count_sent_recorded. lia.
Qed.

Lemma forEach_covers a aid subs w :
  (forall n, sql_fault env n = None) ->
  (forall sub art w', value (sendEmail env sub art) w' = true) ->
  (forall s, In s subs -> Store.has_subscriber (Subscriber.ID s) (db w) = true) ->
  Store.has_article aid (db w) = true ->
  forall s, In s subs ->
    1 <= Store.count_sent (Subscriber.ID s) aid
           (db (exec (forEach subs (forSubscriber env a aid)) w)).
Proof.
  intros F Hmail. revert w. induction subs as [|x subs IH]; intros w HS HA s I.
  - destruct I.
  - simpl forEach. rewrite exec_bind.
    set (w1 := exec (forSubscriber env a aid x) w).
    assert (K : Store.subscribers (db w1) = Store.subscribers (db w) /\
                Store.articles (db w1) = Store.articles (db w)).
    { unfold w1. destruct (forSubscriber_db env a aid x w) as [E | (id & ts & E)];
        rewrite E; split; reflexivity. }
    destruct K as (KS & KA).
    destruct I as [<- | I].
    + pose proof (forEach_count_mono a aid subs w1 (Subscriber.ID x)) as M.
      pose proof (forSubscriber_covers a aid x w (F _) (F _) Hmail
                    (HS x (or_introl eq_refl)) HA) as C.
      fold w1 in C. lia.
    + apply IH; [ | | exact I].
      * intros y Hy. unfold Store.has_subscriber. rewrite KS.
        exact (HS y (or_intror Hy)).
      * unfold Store.has_article. rewrite KA. exact HA.
Qed.

(** A loop whose subscribers all have a sent-record only looks up. *)
Lemma forEach_all_skipped a aid subs w :
  (forall n, sql_fault env n = None) ->
  (forall s, In s subs -> 0 < Store.count_sent (Subscriber.ID s) aid (db w)) ->
  db (exec (forEach subs (forSubscriber env a aid)) w) = db w /\
  exists d, trace (exec (forEach subs (forSubscriber env a aid)) w) = trace w ++ d /\
            inserts d = [] /\ attempts d = 0%nat /\ delivered d = [] /\ dials d = 0%nat.
Proof.
  intros F. revert w. induction subs as [|s subs IH]; intros w H.
  - simpl. split; [reflexivity | ]. exists []. rewrite app_nil_r. repeat split; reflexivity.
  - simpl forEach. rewrite exec_bind.
    rewrite (forSubscriber_skips env a aid s w (F _) (H s (or_introl eq_refl))).
    destruct (IH (issued (Store.CountSentEmails (Subscriber.ID s) aid) w))
      as (D & d & T & I & A & M & L).
    { intros y Hy. exact (H y (or_intror Hy)). }
    split; [rewrite D; reflexivity | ].
    exists (Sql (Store.CountSentEmails (Subscriber.ID s) aid) :: d).
    split; [rewrite T; unfold issued; simpl; rewrite <- app_assoc; reflexivity | ].
    simpl. auto.
Qed.

Lemma in_table_has_subscriber s d :
  In s (map Store.id_email_name (Store.rows (Store.subscribers d))) ->
  Store.has_subscriber (Subscriber.ID s) d = true.
Proof.
  intros I. apply in_map_iff in I. destruct I as (x & <- & I).
  unfold Store.has_subscriber. apply existsb_exists.
  exists x. split; [exact I | apply Z.eqb_refl].
Qed.

End Coverage.

Lemma forEach_other_article env a aid subs w sid aid' :
  aid <> aid' ->
  Store.count_sent sid aid' (db (exec (forEach subs (forSubscriber env a aid)) w))
  = Store.count_sent sid aid' (db w).
Proof.
  intros N. revert w. induction subs as [|s subs IH]; intros w.
  - reflexivity.
  - simpl forEach. rewrite exec_bind, IH.
    destruct (forSubscriber_db env a aid s w) as [E | (id & ts & E)]; rewrite E; [reflexivity | ].
    apply count_sent_recorded_other_article. exact N.
Qed.

(** X9.  At most once, sequentially.  When the store answers every
    statement, a dispatch keeps the property that no subscriber has more
    than one sent-record for the article -- whether the mails go out or
    not, and whether the article exists or not. *)
Theorem dispatch_at_most_once (env : Env) (aid : Z) (w : World) :
  (forall n, sql_fault env n = None) ->
  (forall sid, Store.count_sent sid aid (db w) <= 1) ->
  forall sid, Store.count_sent sid aid (db (exec (sendNewsletterForArticle env aid) w)) <= 1.
Proof.
  intros F H sid.
  destruct (dispatch_cases env aid w) as [(D & _) | (a & k & _ & E)].
  - rewrite D. apply H.
  - rewrite E. apply forEach_at_most_once; [exact F | exact H].
Qed.

Lemma dispatch_at_most_once_witness :
  Store.count_sent 1 1
    (db (exec (sendNewsletterForArticle (Demo.with_relay_down 8 Demo.env) 1)
              Demo.three_subscribers)) <= 1.
Proof.
  apply (dispatch_at_most_once (Demo.with_relay_down 8 Demo.env) 1 Demo.three_subscribers).
  - intros n. reflexivity.
  - intros sid. vm_compute. discriminate.
Defined.

(** X10.  With the store answering every statement and every mail going
    out, a dispatch of a stored article leaves every subscriber of the
    table with a sent-record for it. *)
Theorem dispatch_reaches_everyone (env : Env) (aid : Z) (a : Article.t) (w : World) :
  (forall n, sql_fault env n = None) ->
  (forall sub art w', value (sendEmail env sub art) w' = true) ->
  find (fun x => Article.ID x =? aid) (Store.rows (Store.articles (db w))) = Some a ->
  forall s, In s (Store.rows (Store.subscribers (db w))) ->
    1 <= Store.count_sent (Subscriber.ID s) aid
           (db (exec (sendNewsletterForArticle env aid) w)).
Proof.
  intros F Hmail Ha s I.
  rewrite (dispatch_enters_loop env aid a w (F _) (F _) Ha).
  change (Subscriber.ID s) with (Subscriber.ID (Store.id_email_name s)).
  apply forEach_covers; try assumption.
  - intros y Hy. exact (in_table_has_subscriber y (db w) Hy).
  - exact (find_has_article aid (db w) a Ha).
  - apply in_map. exact I.
Qed.

Lemma dispatch_reaches_everyone_witness :
  1 <= Store.count_sent (Subscriber.ID Demo.cyd) 1
         (db (exec (sendNewsletterForArticle Demo.env 1) Demo.three_subscribers)).
Proof.
  apply (dispatch_reaches_everyone Demo.env 1 Demo.hi Demo.three_subscribers
           (fun _ => eq_refl) (fun _ _ _ => eq_refl) eq_refl).
  simpl. right; right; left. reflexivity.
Defined.

(** X11.  Dispatching again is silent, for any number of subscribers.
    With the store answering and the mails going out, a second dispatch
    of the same article finds a sent-record for everyone: it calls
    sendEmail for nobody, reaches the relay for nothing, issues no
    INSERT and leaves the store as the first dispatch left it. *)
Theorem dispatch_repeat_is_silent (env : Env) (aid : Z) (a : Article.t) (w : World) :
  (forall n, sql_fault env n = None) ->
  (forall sub art w', value (sendEmail env sub art) w' = true) ->
  find (fun x => Article.ID x =? aid) (Store.rows (Store.articles (db w))) = Some a ->
  let w1 := exec (sendNewsletterForArticle env aid) w in
  let w2 := exec (sendNewsletterForArticle env aid) w1 in
  db w2 = db w1 /\
  attempts (since w1 w2) = 0%nat /\
  dials (since w1 w2) = 0%nat /\
  delivered (since w1 w2) = [] /\
  inserts (since w1 w2) = [].
Proof.
  intros F Hmail Ha. cbv zeta.
  set (subs := map Store.id_email_name (Store.rows (Store.subscribers (db w)))).
  assert (E1 : exec (sendNewsletterForArticle env aid) w
               = exec (forEach subs (forSubscriber env a aid)) (loop_entry aid w))
    by exact (dispatch_enters_loop env aid a w (F _) (F _) Ha).
  rewrite E1.
  set (w1 := exec (forEach subs (forSubscriber env a aid)) (loop_entry aid w)).
  destruct (forEach_db env a aid subs (loop_entry aid w)) as (KS & KA & _).
  fold w1 in KS, KA. change (db (loop_entry aid w)) with (db w) in KS, KA.
  assert (C : forall s, In s subs -> 0 < Store.count_sent (Subscriber.ID s) aid (db w1)).
  { intros s I.
    pose proof (forEach_covers env a aid subs (loop_entry aid w) F Hmail
                  (fun y Hy => in_table_has_subscriber y (db w) Hy)
                  (find_has_article aid (db w) a Ha) s I) as H.
    fold w1 in H. lia. }
  assert (E2 : exec (sendNewsletterForArticle env aid) w1
               = exec (forEach subs (forSubscriber env a aid)) (loop_entry aid w1)).
  { rewrite (dispatch_enters_loop env aid a w1 (F _) (F _)); [ | rewrite KA; exact Ha].
    rewrite KS. reflexivity. }
  rewrite E2.
  destruct (forEach_all_skipped env a aid subs (loop_entry aid w1) F C)
    as (D & d & T & I & A & M & L).
  split; [exact D | ].
  rewrite (since_app w1 _
             ([Log "sending blog post"; Sql (Store.SelectArticle aid);
               Sql Store.SelectSubscribers] ++ d)).
  - simpl. auto.
  - rewrite T. unfold loop_entry; simpl. rewrite <- app_assoc. reflexivity.
Qed.

Lemma dispatch_repeat_is_silent_witness :
  let w1 := exec (sendNewsletterForArticle Demo.env 1) Demo.three_subscribers in
  let w2 := exec (sendNewsletterForArticle Demo.env 1) w1 in
  List.length (Store.rows (Store.sent_emails (db w1))) = 3%nat /\
  db w2 = db w1.
Proof.
  cbv zeta. split; [reflexivity | ].
  exact (proj1 (dispatch_repeat_is_silent Demo.env 1 Demo.hi Demo.three_subscribers
                  (fun _ => eq_refl) (fun _ _ _ => eq_refl) eq_refl)).
Defined.

(** X12.  Dispatch and a failing query for the subscribers, the article
    having been found.  When db.Query returns an error, dispatch logs
    "Error getting subscribers" with it and returns: nobody is looked up
    or mailed, nothing is written.  When the driver instead fails while
    the rows are stepped, rows.Next ends the loop of getSubscribers and
    the error is never consulted: nothing is logged, and dispatch runs
    its loop over the rows read before the failure only, so that the
    subscribers after them are not looked up in this run. *)
Theorem dispatch_subscriber_query_fails
    (env : Env) (aid : Z) (a : Article.t) (w : World) (e : string) :
  sql_fault env (clock w) = None ->
  find (fun x => Article.ID x =? aid) (Store.rows (Store.articles (db w))) = Some a ->
  sql_fault env (S (clock w)) = Some e ->
  let w' := exec (sendNewsletterForArticle env aid) w in
  let table := map Store.id_email_name (Store.rows (Store.subscribers (db w))) in
  (rows_before_fault env (S (clock w)) = None ->
   w' = mkWorld (db w) (S (S (clock w)))
          (trace w ++ [Log "sending blog post"; Sql (Store.SelectArticle aid);
                       Sql Store.SelectSubscribers;
                       Log ("Error getting subscribers: " ++ e)])
          (tasks w)) /\
  (forall k,
     rows_before_fault env (S (clock w)) = Some k ->
     w' = exec (forEach (firstn k table) (forSubscriber env a aid)) (loop_entry aid w) /\
     checks (since w w') = map (fun s => (Subscriber.ID s, aid)) (firstn k table)).
Proof.
  intros F0 Ha F1. cbv zeta.
  rewrite (dispatch_reads env aid a w F0 Ha). unfold read_outcome. rewrite F1.
  split.
  - intros B. rewrite B. reflexivity.
  - intros k B. rewrite B. split; [reflexivity | ].
    destruct (forEach_footprint env a aid
                (firstn k (map Store.id_email_name (Store.rows (Store.subscribers (db w)))))
                (loop_entry aid w)) as (_ & d & T & C & _).
    rewrite (since_app w _
               ([Log "sending blog post"; Sql (Store.SelectArticle aid);
                 Sql Store.SelectSubscribers] ++ d)).
    + simpl. exact C.
    + rewrite T. unfold loop_entry; simpl. rewrite <- app_assoc. reflexivity.
Qed.

Lemma dispatch_subscriber_query_fails_witness :
  db (exec (sendNewsletterForArticle (Demo.with_sql_fault 1 "database is locked" Demo.env) 1)
           Demo.three_subscribers)
  = db Demo.three_subscribers /\
  checks (since Demo.three_subscribers
            (exec (sendNewsletterForArticle
                     (Outage.fault_while_stepping 1 "database is locked" 2 Demo.env) 1)
                  Demo.three_subscribers))
  = [(1, 1); (2, 1)].
Proof.
  split.
  - rewrite (proj1 (dispatch_subscriber_query_fails
                      (Demo.with_sql_fault 1 "database is locked" Demo.env) 1 Demo.hi
                      Demo.three_subscribers "database is locked" eq_refl eq_refl eq_refl)
                   eq_refl).
    reflexivity.
  - exact (proj2 (proj2 (dispatch_subscriber_query_fails
                           (Outage.fault_while_stepping 1 "database is locked" 2 Demo.env)
                           1 Demo.hi Demo.three_subscribers "database is locked"
                           eq_refl eq_refl eq_refl)
                        2%nat eq_refl)).
Defined.

(** X13.  What a dispatch never does: it writes to neither the
    subscribers nor the articles table, spawns nothing, and adds no
    sent-record for any article but its own. *)
Theorem dispatch_frame (env : Env) (aid : Z) (w : World) :
  let w' := exec (sendNewsletterForArticle env aid) w in
  Store.subscribers (db w') = Store.subscribers (db w) /\
  Store.articles (db w') = Store.articles (db w) /\
  tasks w' = tasks w /\
  forall sid aid', aid <> aid' ->
    Store.count_sent sid aid' (db w') = Store.count_sent sid aid' (db w).
Proof.
  cbv zeta. destruct (dispatch_cases env aid w) as [(D & K & _) | (a & k & _ & E)].
  - rewrite D, K. repeat split; reflexivity.
  - rewrite E.
    destruct (forEach_db env a aid
                (firstn k (map Store.id_email_name (Store.rows (Store.subscribers (db w)))))
                (loop_entry aid w)) as (KS & KA & _).
    destruct (forEach_footprint env a aid
                (firstn k (map Store.id_email_name (Store.rows (Store.subscribers (db w)))))
                (loop_entry aid w)) as (KT & _).
    split; [exact KS | ]. split; [exact KA | ]. split; [exact KT | ].
    intros sid aid' N. exact (forEach_other_article env a aid _ (loop_entry aid w) sid aid' N).
Qed.

Lemma dispatch_frame_witness :
  Store.count_sent 1 2 (db (exec (sendNewsletterForArticle Demo.env 1) Demo.three_subscribers))
  = Store.count_sent 1 2 (db Demo.three_subscribers).
Proof.
  apply (dispatch_frame Demo.env 1 Demo.three_subscribers). discriminate.
Defined.

(** ** The mail client, case by case *)

Lemma prefix_refl (e : string) : String.prefix e e = true.
Proof.
  induction e as [|c e IH]; simpl; [reflexivity | ].
  destruct (Ascii.ascii_dec c c) as [_|N]; [exact IH | contradiction].
Qed.

Lemma contains_suffix (pre e : string) : contains e (pre ++ e) = true.
Proof.
  induction pre as [|c pre IH].
  - change (EmptyString ++ e)%string with e.
    destruct e; unfold contains; fold contains; rewrite prefix_refl; reflexivity.
  - change (String c pre ++ e)%string with (String c (pre ++ e)).
    unfold contains; fold contains. rewrite IH. apply orb_true_r.
Qed.

Lemma since_two (w : World) (e1 e2 : Event) :
  skipn (List.length (trace w)) ((trace w ++ [e1]) ++ [e2]) = [e1; e2].
Proof. rewrite <- app_assoc, skipn_app, skipn_all, Nat.sub_diag. reflexivity. Qed.

Lemma since_three (w : World) (e1 e2 e3 : Event) :
  skipn (List.length (trace w)) (((trace w ++ [e1]) ++ [e2]) ++ [e3]) = [e1; e2; e3].
Proof. rewrite <- !app_assoc, skipn_app, skipn_all, Nat.sub_diag. reflexivity. Qed.

(** sendEmail, outcome by outcome. *)
Lemma sendEmail_run (env : Env) (sub : Subscriber.t) (article : Article.t) (w : World) :
  sendEmail env sub article w
  = let read := ReadFile "email_template.html" in
    let stopped line :=
      (false, mkWorld (db w) (S (clock w)) ((trace w ++ [read]) ++ [Log line]) (tasks w)) in
    match read_file env (clock w) "email_template.html" with
    | Err e => stopped ("Error reading email template file: " ++ e)%string
    | Ok tpl =>
        match template_parse env tpl with
        | Err e => stopped ("Error parsing email template: " ++ e)%string
        | Ok t =>
            match template_execute env t (Subscriber.Name sub)
                    (Article.Title article) (Article.Content article) with
            | Err e => stopped ("Error executing template: " ++ e)%string
            | Ok body =>
                let m := message_for env sub article body in
                match dial_and_send env (S (clock w)) (dialer_of env) m with
                | Some e =>
                    (false,
                     mkWorld (db w) (S (S (clock w)))
                       (((trace w ++ [read]) ++ [Smtp m false])
                        ++ [Log ("Error sending email to " ++ Subscriber.Email sub
                                 ++ ": " ++ e)])
                       (tasks w))
                | None =>
                    (true,
                     mkWorld (db w) (S (S (clock w)))
                       ((trace w ++ [read]) ++ [Smtp m true]) (tasks w))
                end
            end
        end
    end.
Proof.
  unfold sendEmail, message_for, dialer_of, bind, tick, emit, log, ret.
  cbn [clock db trace tasks].
  destruct (read_file env (clock w) "email_template.html") as [tpl|e]; [ | reflexivity].
  destruct (template_parse env tpl) as [t|e]; [ | reflexivity].
  destruct (template_execute env t _ _ _) as [body|e]; [ | reflexivity].
  cbn [clock db trace tasks].
  destruct (dial_and_send env _ _ _) as [e|]; reflexivity.
Qed.

Ltac run_mail :=
  unfold value, exec, since; rewrite sendEmail_run; unfold rendered; cbv zeta.

(** X14.  sendEmail returns true exactly when the template is read,
    parsed and executed and the relay accepts the message.  The message
    then goes to the subscriber's address, from EMAIL_FROM, under the
    subject "New Blog Post: " followed by the title, through port 587;
    the template was read once and the relay reached once. *)
Theorem sendEmail_delivers (env : Env) (sub : Subscriber.t) (article : Article.t) (w : World) :
  (value (sendEmail env sub article) w = true <->
   exists body,
     rendered env (clock w) sub article = Ok body /\
     dial_and_send env (S (clock w)) (dialer_of env) (message_for env sub article body) = None) /\
  (value (sendEmail env sub article) w = true ->
   exists body,
     rendered env (clock w) sub article = Ok body /\
     since w (exec (sendEmail env sub article) w)
     = [ReadFile "email_template.html"; Smtp (message_for env sub article body) true] /\
     Port (dialer_of env) = 587).
Proof.
  run_mail.
  destruct (read_file env (clock w) "email_template.html") as [tpl|e]; cbn [fst snd trace].
  2:{ split; [split; [discriminate | intros (b & H & _); discriminate H] | discriminate]. }
  destruct (template_parse env tpl) as [t|e]; cbn [fst snd trace].
  2:{ split; [split; [discriminate | intros (b & H & _); discriminate H] | discriminate]. }
  destruct (template_execute env t _ _ _) as [body|e]; cbn [fst snd trace].
  2:{ split; [split; [discriminate | intros (b & H & _); discriminate H] | discriminate]. }
  destruct (dial_and_send env (S (clock w)) (dialer_of env) (message_for env sub article body))
    as [e|] eqn:D; cbn [fst snd trace].
  - split; [split; [discriminate | ] | discriminate].
    intros (b & H & H'). injection H as <-. congruence.
  - split.
    + split; [intros _; exists body; split; [reflexivity | exact D] | reflexivity].
    + intros _. exists body. split; [reflexivity | ]. split; [ | reflexivity ].
      apply (since_two w).
Qed.

(** X15.  When the template cannot be read, parsed or executed,
    sendEmail logs the error and returns false without reaching the
    relay; when the relay refuses the message it was reached once and
    the refusal is logged with the address.  A call that returns false
    delivered nothing, and no call touches the store. *)
Theorem sendEmail_failure (env : Env) (sub : Subscriber.t) (article : Article.t) (w : World) :
  let w' := exec (sendEmail env sub article) w in
  (forall e, rendered env (clock w) sub article = Err e ->
             value (sendEmail env sub article) w = false /\
             exists line, since w w' = [ReadFile "email_template.html"; Log line] /\
                          contains e line = true) /\
  (forall body e,
     rendered env (clock w) sub article = Ok body ->
     dial_and_send env (S (clock w)) (dialer_of env) (message_for env sub article body) = Some e ->
     value (sendEmail env sub article) w = false /\
     since w w'
     = [ReadFile "email_template.html"; Smtp (message_for env sub article body) false;
        Log ("Error sending email to " ++ Subscriber.Email sub ++ ": " ++ e)]) /\
  (value (sendEmail env sub article) w = false -> delivered (since w w') = []) /\
  db w' = db w.
Proof.
  cbv zeta.
  destruct (sendEmail_footprint env sub article w)
    as (D & _ & d & T & _ & _ & _ & _ & _ & Hfalse).
  split; [ | split; [ | split; [ | exact D ] ] ].
  - intros e. run_mail.
    destruct (read_file env (clock w) "email_template.html") as [tpl|e1]; cbn [fst snd trace].
    2:{ intros H; injection H as ->. split; [reflexivity | ].
        eexists. split; [apply (since_two w) | apply contains_suffix]. }
    destruct (template_parse env tpl) as [t|e1]; cbn [fst snd trace].
    2:{ intros H; injection H as ->. split; [reflexivity | ].
        eexists. split; [apply (since_two w) | apply contains_suffix]. }
    destruct (template_execute env t _ _ _) as [body|e1]; cbn [fst snd trace];
      [discriminate | ].
    intros H; injection H as ->. split; [reflexivity | ].
    eexists. split; [apply (since_two w) | apply contains_suffix].
  - intros body e. run_mail.
    destruct (read_file env (clock w) "email_template.html") as [tpl|e1]; cbn [fst snd trace];
      [ | discriminate].
    destruct (template_parse env tpl) as [t|e1]; cbn [fst snd trace]; [ | discriminate].
    destruct (template_execute env t _ _ _) as [body'|e1]; cbn [fst snd trace];
      [ | discriminate].
    intros H; injection H as ->.
    intros ->. cbn [fst snd trace]. split; [reflexivity | ].
    apply since_three.
  - intros V. rewrite (since_app w _ _ T). simpl. exact (Hfalse V).
Qed.

Lemma sendEmail_failure_witness :
  value (sendEmail (Outage.template_missing Demo.env) Demo.ann Demo.hi) Demo.one_subscriber
  = false /\
  dials (since Demo.one_subscriber
           (exec (sendEmail (Outage.template_missing Demo.env) Demo.ann Demo.hi)
                 Demo.one_subscriber)) = 0%nat.
Proof.
  split; [ | reflexivity ].
  exact (proj1 (proj1 (sendEmail_failure (Outage.template_missing Demo.env)
                         Demo.ann Demo.hi Demo.one_subscriber)
                      "open email_template.html: no such file or directory" eq_refl)).
Defined.

(** ** Recording and looking up *)

(** X16.  A sent-record that was written is found: after markEmailSent
    whose INSERT the store accepts, hasReceivedArticle answers true for
    the pair.  When the store rejects the INSERT for a missing reference
    (foreign keys enforced), the look-up answers as it would have
    before. *)
Theorem mark_then_check (env : Env) (sid aid : Z) (w : World) :
  sql_fault env (clock w) = None ->
  sql_fault env (S (clock w)) = None ->
  let fk_violated :=
    (foreign_keys env
     && negb (Store.has_subscriber sid (db w) && Store.has_article aid (db w)))%bool in
  let w' := exec (markEmailSent env sid aid) w in
  (fk_violated = false -> value (hasReceivedArticle env sid aid) w' = true) /\
  (fk_violated = true ->
   value (hasReceivedArticle env sid aid) w' = (0 <? Store.count_sent sid aid (db w))).
Proof.
  intros F0 F1. cbv zeta.
  destruct (markEmailSent_footprint env sid aid w) as (_ & L & _).
  split; intros FK.
  - rewrite (value_of _ _ _ _ (hasReceivedArticle_answered env sid aid _
                                 ltac:(rewrite L; exact F1))).
    rewrite (markEmailSent_recorded env sid aid w F0 FK).
    fold (recorded (Store.next_rowid SentEmail.ID (Store.sent_emails (db w))) sid aid
                   (current_timestamp env (clock w)) (db w)).
    rewrite count_sent_recorded.
    pose proof (count_sent_nonneg sid aid (db w)). apply Z.ltb_lt. lia.
  - rewrite (value_of _ _ _ _ (hasReceivedArticle_answered env sid aid _
                                 ltac:(rewrite L; exact F1))).
    assert (V : value (sql env (Store.InsertSentEmail sid aid)) w
                = Err "FOREIGN KEY constraint failed").
    { apply (value_of _ _ _ _ (sql_rejected env (Store.InsertSentEmail sid aid) w _ F0
                                 ltac:(simpl; rewrite FK; reflexivity))). }
    rewrite (markEmailSent_swallowed env sid aid w _ V). reflexivity.
Qed.

Lemma mark_then_check_witness :
  value (hasReceivedArticle Demo.env 1 1) (exec (markEmailSent Demo.env 1 1) Demo.one_subscriber)
  = true /\
  value (hasReceivedArticle (Demo.with_foreign_keys Demo.env) 9 1)
        (exec (markEmailSent (Demo.with_foreign_keys Demo.env) 9 1) Demo.one_subscriber)
  = false.
Proof.
  split.
  - exact (proj1 (mark_then_check Demo.env 1 1 Demo.one_subscriber eq_refl eq_refl) eq_refl).
  - exact (proj2 (mark_then_check (Demo.with_foreign_keys Demo.env) 9 1 Demo.one_subscriber
                    eq_refl eq_refl) eq_refl).
Defined.

(** ** References of the sent-records *)

Section References.

Variable env : Env.

Lemma grows_has_subscriber d d' id :
  grows d d' -> Store.has_subscriber id d = true -> Store.has_subscriber id d' = true.
Proof.
  intros G H. destruct (grows_appends d d' G) as (l1 & _ & _ & E & _).
  unfold Store.has_subscriber in *. rewrite E, existsb_app, H. reflexivity.
Qed.

Lemma grows_has_article d d' id :
  grows d d' -> Store.has_article id d = true -> Store.has_article id d' = true.
Proof.
  intros G H. destruct (grows_appends d d' G) as (_ & l2 & _ & _ & E & _).
  unfold Store.has_article in *. rewrite E, existsb_app, H. reflexivity.
Qed.

Lemma references_same_sent d d' :
  grows d d' -> Store.sent_emails d' = Store.sent_emails d ->
  references_stored d -> references_stored d'.
Proof.
  intros G E R r I. rewrite E in I. destruct (R r I) as (HS & HA).
  split; [exact (grows_has_subscriber d d' _ G HS) | exact (grows_has_article d d' _ G HA)].
Qed.

Lemma references_recorded id sid aid ts d :
  Store.has_subscriber sid d = true -> Store.has_article aid d = true ->
  references_stored d -> references_stored (recorded id sid aid ts d).
Proof.
  intros HS HA R r I. unfold recorded in I; simpl in I.
  apply in_app_or in I. destruct I as [I | [<- | []]].
  - exact (R r I).
  - simpl. split; [exact HS | exact HA].
Qed.

Lemma forEach_references a aid subs w :
  (forall s, In s subs -> Store.has_subscriber (Subscriber.ID s) (db w) = true) ->
  Store.has_article aid (db w) = true ->
  references_stored (db w) ->
  references_stored (db (exec (forEach subs (forSubscriber env a aid)) w)).
Proof.
  revert w. induction subs as [|s subs IH]; intros w HS HA R.
  - exact R.
  - simpl forEach. rewrite exec_bind.
    destruct (forSubscriber_db env a aid s w) as [E | (id & ts & E)].
    + apply IH; rewrite E; [ | exact HA | exact R].
      intros y Hy. exact (HS y (or_intror Hy)).
    + apply IH; rewrite E.
      * intros y Hy. exact (HS y (or_intror Hy)).
      * exact HA.
      * apply references_recorded; [exact (HS s (or_introl eq_refl)) | exact HA | exact R].
Qed.

Lemma dispatch_references aid w :
  references_stored (db w) ->
  references_stored (db (exec (sendNewsletterForArticle env aid) w)).
Proof.
  intros R. destruct (dispatch_cases env aid w) as [(D & _) | (a & k & Ha & E)].
  - rewrite D. exact R.
  - rewrite E. apply forEach_references.
    + intros s I. apply (in_table_has_subscriber s (db w)).
      rewrite <- (firstn_skipn k). apply in_or_app. left. exact I.
    + exact (find_has_article aid (db w) a Ha).
    + exact R.
Qed.

Lemma serve_keeps_sent_emails r w :
  Store.sent_emails (db (exec (serve env r) w)) = Store.sent_emails (db w).
Proof.
  unfold serve.
  destruct (Path r =? "/api/subscribe")%string.
  { unfold handleSubscribe.
    destruct (negb _); [reflexivity | ].
    destruct (decode_subscriber env (Body r)); [ | reflexivity].
    unfold exec, sql, bind, tick, emit, ret; simpl.
    destruct (sql_fault env (clock w)); simpl; [reflexivity | ].
    destruct (Store.has_email _ _); reflexivity. }
  destruct (Path r =? "/api/publish")%string.
  { unfold handlePublish.
    destruct (negb _); [reflexivity | ].
    destruct (decode_article env (Body r)); [ | reflexivity].
    unfold exec, sql, bind, tick, emit, spawn, ret; simpl.
    destruct (sql_fault env (clock w)); reflexivity. }
  destruct (Path r =? "/api/send-newsletter")%string;
    [rewrite handleSendNewsletter_keeps_db; reflexivity | ].
  destruct (Path r =? "/api/stats")%string;
    [rewrite handleGetAllData_keeps_db; reflexivity | reflexivity].
Qed.

Lemma step_references st w :
  references_stored (db w) -> references_stored (db (exec (step env st) w)).
Proof.
  intros R. destruct st as [r|]; unfold step; rewrite exec_bind.
  - change (exec (ret (Some (value (serve env r) w))) (exec (serve env r) w))
      with (exec (serve env r) w).
    exact (references_same_sent _ _ (growing_serve env r w) (serve_keeps_sent_emails r w) R).
  - change (exec (ret None) (exec (run_task env) w)) with (exec (run_task env) w).
    unfold run_task, exec. destruct (tasks w) as [|aid rest]; [exact R | ].
    exact (dispatch_references aid (mkWorld (db w) (clock w) (trace w) rest) R).
Qed.

End References.

(** X17.  Sent-records keep pointing at stored rows, foreign keys
    enforced or not: if every sent-record names a subscriber and an
    article of the store, this is still so after any requests served and
    any dispatches run.  Dispatch itself only records subscribers it
    read from the table, for an article it found. *)
Theorem references_stay_stored (env : Env) (steps : list Step) (w : World) :
  references_stored (db w) -> references_stored (db (exec (run env steps) w)).
Proof.
  revert w. induction steps as [|st steps IH]; intros w R.
  - exact R.
  - simpl run. rewrite exec_bind, exec_bind.
    set (w1 := exec (step env st) w).
    change (exec (ret (value (step env st) w :: value (run env steps) w1))
                 (exec (run env steps) w1))
      with (exec (run env steps) w1).
    apply IH. exact (step_references env st w R).
Qed.

Lemma references_stay_stored_witness :
  references_stored
    (db (exec (run Demo.env
                 [Handle (Demo.post "/api/publish" Demo.publish_body); RunTask;
                  Handle (Demo.post "/api/send-newsletter" Demo.send_body); RunTask])
              Demo.already_sent)).
Proof.
  apply references_stay_stored.
  intros r [<- | []]. split; reflexivity.
Defined.

(** ** A publication, end to end *)

Section Publication.

Variable env : Env.

Lemma sorted_nodup (l : list Z) : StronglySorted Z.lt l -> NoDup l.
Proof.
  induction l as [|x l IH]; intros S; [constructor | ].
  apply StronglySorted_inv in S. destruct S as [S H].
  constructor; [ | exact (IH S)].
  intros I. rewrite Forall_forall in H. specialize (H x I). lia.
Qed.

Lemma has_article_in id d :
  Store.has_article id d = true -> In id (map Article.ID (Store.rows (Store.articles d))).
Proof.
  unfold Store.has_article. intros H. apply existsb_exists in H.
  destruct H as (a & I & E). apply Z.eqb_eq in E. subst id. apply in_map. exact I.
Qed.

Lemma filter_none {A} (f : A -> bool) (l : list A) :
  (forall x, In x l -> f x = false) -> filter f l = [].
Proof.
  induction l as [|x l IH]; intros H; [reflexivity | ].
  simpl. rewrite (H x (or_introl eq_refl)). apply IH.
  intros y Hy. exact (H y (or_intror Hy)).
Qed.

(** An article rowid not yet given out has no sent-record. *)
Lemma count_sent_fresh d sid :
  references_stored d ->
  Store.count_sent sid (Store.next_rowid Article.ID (Store.articles d)) d = 0.
Proof.
  intros R. unfold Store.count_sent, len.
  rewrite filter_none; [reflexivity | ].
  intros r I. destruct (R r I) as (_ & HA).
  pose proof (max_rowid_bound Article.ID (Store.articles d) _ (has_article_in _ _ HA)) as B.
  unfold Store.sent_to, Store.next_rowid.
  destruct (Z.eqb_spec (SentEmail.ArticleID r)
                       (Store.max_rowid Article.ID (Store.articles d) + 1)) as [E|_];
    [lia | apply andb_false_r].
Qed.

(** A loop over distinct subscribers none of whom has a sent-record,
    the store answering and the mails going out: one message each, in
    the order of the slice, and one sent-record each. *)
Lemma forEach_delivers_all a aid subs w :
  (forall n, sql_fault env n = None) ->
  (forall sub art w', value (sendEmail env sub art) w' = true) ->
  NoDup (map Subscriber.ID subs) ->
  (forall s, In s subs -> Store.count_sent (Subscriber.ID s) aid (db w) = 0) ->
  (forall s, In s subs -> Store.has_subscriber (Subscriber.ID s) (db w) = true) ->
  Store.has_article aid (db w) = true ->
  exists d,
    trace (exec (forEach subs (forSubscriber env a aid)) w) = trace w ++ d /\
    map To (delivered d) = map Subscriber.Email subs /\
    inserts d = map (fun s => (Subscriber.ID s, aid)) subs /\
    forall s, In s subs ->
      Store.count_sent (Subscriber.ID s) aid
        (db (exec (forEach subs (forSubscriber env a aid)) w)) = 1.
Proof.
  intros F Hmail. revert w. induction subs as [|s subs IH]; intros w ND HC HS HA.
  - exists []. simpl. rewrite app_nil_r. repeat split. intros s [].
  - simpl forEach. rewrite exec_bind.
    simpl in ND. apply NoDup_cons_iff in ND. destruct ND as (Ns & ND).
    assert (R : value (hasReceivedArticle env (Subscriber.ID s) aid) w = false).
    { rewrite (value_of _ _ _ _ (hasReceivedArticle_answered env _ aid w (F _))).
      rewrite (HC s (or_introl eq_refl)). reflexivity. }
    assert (FK : (foreign_keys env
                  && negb (Store.has_subscriber (Subscriber.ID s) (db w)
                           && Store.has_article aid (db w)))%bool = false).
    { rewrite (HS s (or_introl eq_refl)), HA. apply andb_false_r. }
    destruct (forSubscriber_records env a aid s w R (Hmail _ _ _) (F _) FK)
      as (D1 & _ & _ & m & d1 & T1 & M1 & Hm & I1).
    set (w1 := exec (forSubscriber env a aid s) w) in *.
    destruct (IH w1 ND) as (d & T & M & I & C).
    { intros y Hy. rewrite D1, count_sent_recorded_other.
      - exact (HC y (or_intror Hy)).
      - intros E. apply Ns. rewrite E. apply in_map. exact Hy. }
    { intros y Hy. rewrite D1. exact (HS y (or_intror Hy)). }
    { rewrite D1. exact HA. }
    exists (d1 ++ d).
    split; [rewrite T, T1, <- app_assoc; reflexivity | ].
    split; [rewrite delivered_app, map_app, M1, M; simpl; rewrite Hm; reflexivity | ].
    split; [rewrite inserts_app, I1, I; reflexivity | ].
    intros y [<- | Hy]; [ | exact (C y Hy)].
    destruct (forEach_db env a aid subs w1) as (_ & _ & K).
    rewrite (K (Subscriber.ID s) Ns), D1, count_sent_recorded, (HC s (or_introl eq_refl)).
    reflexivity.
Qed.

End Publication.

(** X18.  Publishing mails every subscriber once.  A publication the
    store accepts, then the dispatch it spawned, the store answering and
    the mails going out, on a store whose rowids ascend and whose
    sent-records name stored rows: the messages delivered go to the
    subscribers' addresses, one each and in the order of the table, and
    every subscriber ends with exactly one sent-record for the new
    article. *)
Theorem publish_mails_every_subscriber
    (env : Env) (r : Request) (w : World) (article : Article.t) :
  Method r = MethodPost ->
  decode_article env (Body r) = Ok article ->
  (forall n, sql_fault env n = None) ->
  (forall sub art w', value (sendEmail env sub art) w' = true) ->
  well_keyed (db w) ->
  references_stored (db w) ->
  tasks w = [] ->
  let id := Store.next_rowid Article.ID (Store.articles (db w)) in
  let w1 := exec (handlePublish env r) w in
  let w2 := exec (run_task env) w1 in
  Status (value (handlePublish env r) w) = 200 /\
  map To (delivered (since w1 w2))
  = map Subscriber.Email (Store.rows (Store.subscribers (db w))) /\
  inserts (since w1 w2)
  = map (fun s => (Subscriber.ID s, id)) (Store.rows (Store.subscribers (db w))) /\
  (forall s, In s (Store.rows (Store.subscribers (db w))) ->
             Store.count_sent (Subscriber.ID s) id (db w2) = 1) /\
  tasks w2 = [].
Proof.
  intros HM HD F Hmail (KS & _ & _) R HT. cbv zeta.
  pose proof (handlePublish_accepted env r w article HM HD (F _)) as E. cbv zeta in E.
  rewrite (value_of _ _ _ _ E), (exec_of _ _ _ _ E).
  set (id := Store.next_rowid Article.ID (Store.articles (db w))) in *.
  set (stored := Article.mk id (Article.Title article) (Article.Content article)
                            (current_timestamp env (clock w))) in *.
  set (d1 := Store.mkDB (Store.subscribers (db w))
               (Store.append_row Article.ID stored (Store.articles (db w)))
               (Store.sent_emails (db w))) in *.
  rewrite HT. cbn [app].
  set (t1 := trace w ++ [Sql (Store.InsertArticle (Article.Title article)
                                                  (Article.Content article)); Go id]).
  set (w1 := mkWorld d1 (S (clock w)) t1 [id]).
  set (v := mkWorld d1 (S (clock w)) t1 []).
  assert (Erun : exec (run_task env) w1 = exec (sendNewsletterForArticle env id) v)
    by reflexivity.
  assert (Hfind : find (fun x => Article.ID x =? id) (Store.rows (Store.articles (db v)))
                  = Some stored)
    by exact (find_appended stored (Store.articles (db w)) eq_refl).
  rewrite Erun, (dispatch_enters_loop env id stored v (F _) (F _) Hfind).
  change (Store.rows (Store.subscribers (db v))) with (Store.rows (Store.subscribers (db w))).
  set (subs := map Store.id_email_name (Store.rows (Store.subscribers (db w)))).
  destruct (forEach_delivers_all env stored id subs (loop_entry id v) F Hmail)
    as (d & T & M & I & C).
  { unfold subs. rewrite map_map. apply sorted_nodup. exact KS. }
  { intros s _. exact (count_sent_fresh (db w) (Subscriber.ID s) R). }
  { intros s Hs. exact (in_table_has_subscriber s (db w) Hs). }
  { exact (find_has_article id d1 stored Hfind). }
  destruct (forEach_footprint env stored id subs (loop_entry id v)) as (KT & _).
  split; [reflexivity | ].
  rewrite (since_app w1 _
             ([Log "sending blog post"; Sql (Store.SelectArticle id);
               Sql Store.SelectSubscribers] ++ d)).
  2:{ rewrite T. unfold loop_entry; simpl. rewrite <- app_assoc. reflexivity. }
  simpl delivered. simpl inserts.
  split; [rewrite M; unfold subs; rewrite map_map; reflexivity | ].
  split; [rewrite I; unfold subs; rewrite map_map; reflexivity | ].
  split; [ | exact KT].
  intros s Hs. exact (C (Store.id_email_name s) (in_map _ _ _ Hs)).
Qed.

Lemma publish_mails_every_subscriber_witness :
  let w1 := exec (handlePublish Demo.env (Demo.post "/api/publish" Demo.publish_body))
                 Demo.three_subscribers in
  let w2 := exec (run_task Demo.env) w1 in
  map To (delivered (since w1 w2)) = ["ann@x.com"; "bob@x.com"; "cyd@x.com"].
Proof.
  assert (K : well_keyed (db Demo.three_subscribers)).
  { unfold well_keyed, ascending; simpl. repeat split; repeat constructor; lia. }
  assert (R : references_stored (db Demo.three_subscribers)).
  { intros r []. }
  exact (proj1 (proj2 (publish_mails_every_subscriber Demo.env
                         (Demo.post "/api/publish" Demo.publish_body)
                         Demo.three_subscribers (Article.mk 0 "Hi" "Body" "")
                         eq_refl eq_refl (fun _ => eq_refl) (fun _ _ _ => eq_refl)
                         K R eq_refl))).
Defined.
